(** * delegatooor: the scanning-and-execution engine, embedded in Rocq

    A shallow embedding of the Python sources of the treasury bot
    (helpers/fetch_transactions.py, helpers/deposit_monitor.py,
    helpers/decode_hex.py, helpers/execute_transaction.py, commands/hot.py
    and main.py) together with the properties of its specification.

    Conventions.
    - Python [int] is [Z]; a [dict] keyed by nonce is a [gmap Z _];
      [str] is [string], the UTF-8 bytes of the text (addresses, dates
      and hex data are ASCII, one byte per character).
    - The network is an oracle: every function that performs requests
      takes the answers it will receive as an argument and returns the
      observable effects (sleeps, messages, submissions) next to its value.
    - A Python exception that leaves a function is the [Raise] outcome. *)

From Stdlib Require Import ZArith NArith Lia Bool Ascii String List.
From Stdlib Require Import Strings.Byte.
From Stdlib Require Import Sorting.Sorted Sorting.Permutation.
From Stdlib Require Import DecimalString.
From stdpp Require Import base option list gmap strings.
Import ListNotations.

Local Open Scope string_scope.
Local Open Scope Z_scope.

(** ** Outcomes of fallible code *)

Inductive exn : Type :=
  | ValueError
  | TypeError
  | AttributeError
  | KeyError
  | IndexError.

Inductive outcome (A : Type) : Type :=
  | Ret (a : A)
  | Raise (e : exn).
Arguments Ret {A} a.
Arguments Raise {A} e.

#[global] Instance outcome_ret : MRet outcome := fun _ a => Ret a.
#[global] Instance outcome_bind : MBind outcome := fun _ _ k x =>
  match x with
  | Ret a => k a
  | Raise e => Raise e
  end.

(** ** Python strings, bytes and integers *)

Module Py.

(** [s[n:]] for [0 <= n]. *)
Fixpoint drop (n : nat) (s : string) : string :=
  match n, s with
  | O, _ => s
  | S n', EmptyString => EmptyString
  | S n', String _ s' => drop n' s'
  end.

(** [s[:n]] for [0 <= n]. *)
Fixpoint take (n : nat) (s : string) : string :=
  match n, s with
  | O, _ => EmptyString
  | S n', EmptyString => EmptyString
  | S n', String c s' => String c (take n' s')
  end.

(** [s[-n:]] for [0 < n]: the last [n] characters, or all of [s]. *)
Definition last_chars (n : nat) (s : string) : string :=
  drop (String.length s - n) s.

(** [s.startswith(p)]. *)
Fixpoint startswith (s p : string) {struct p} : bool :=
  match p with
  | EmptyString => true
  | String a p' =>
      match s with
      | EmptyString => false
      | String b s' => Ascii.eqb a b && startswith s' p'
      end
  end.

Definition is_upper (c : ascii) : bool :=
  let n := N_of_ascii c in ((65 <=? n) && (n <=? 90))%N.

(** [str.lower()] on ASCII text. *)
Definition lower_char (c : ascii) : ascii :=
  if is_upper c then ascii_of_N (N_of_ascii c + 32) else c.

Fixpoint lower (s : string) : string :=
  match s with
  | EmptyString => EmptyString
  | String c s' => String (lower_char c) (lower s')
  end.

(** The value of a hexadecimal digit, either case. *)
Definition hex_digit (c : ascii) : option Z :=
  let n := Z.of_N (N_of_ascii c) in
  if (48 <=? n) && (n <=? 57) then Some (n - 48)
  else if (97 <=? n) && (n <=? 102) then Some (n - 87)
  else if (65 <=? n) && (n <=? 70) then Some (n - 55)
  else None.

Definition dec_digit (c : ascii) : option Z :=
  let n := Z.of_N (N_of_ascii c) in
  if (48 <=? n) && (n <=? 57) then Some (n - 48) else None.

(** [Py_ISSPACE]: space, tab, line feed, vertical tab, form feed,
    carriage return. *)
Definition is_space (c : ascii) : bool :=
  let n := N_of_ascii c in ((n =? 32) || ((9 <=? n) && (n <=? 13)))%N.

Definition byte_of_Z (z : Z) : Byte.byte :=
  default Byte.x00 (Byte.of_N (Z.to_N z)).

(** [binascii.unhexlify]: pairs of hex digits, nothing else; [None] is
    the error. *)
Fixpoint unhexlify (s : string) : option (list Byte.byte) :=
  match s with
  | EmptyString => Some []
  | String c EmptyString => None
  | String c (String d s') =>
      match hex_digit c, hex_digit d, unhexlify s' with
      | Some hi, Some lo, Some bs => Some (byte_of_Z (16 * hi + lo) :: bs)
      | _, _, _ => None
      end
  end.

(** [bytes.fromhex]: like [unhexlify], but white space is skipped in
    front of every pair. [None] is [ValueError]. *)
Fixpoint fromhex (s : string) : option (list Byte.byte) :=
  match s with
  | EmptyString => Some []
  | String c s' =>
      if is_space c then fromhex s'
      else
        match s' with
        | EmptyString => None
        | String d s'' =>
            match hex_digit c, hex_digit d, fromhex s'' with
            | Some hi, Some lo, Some bs => Some (byte_of_Z (16 * hi + lo) :: bs)
            | _, _, _ => None
            end
        end
  end.

(** Digits in base [b] read left to right, from accumulator [acc]. *)
Fixpoint digits_value (digit : ascii -> option Z) (b : Z) (acc : Z)
    (s : string) : option Z :=
  match s with
  | EmptyString => Some acc
  | String c s' =>
      match digit c with
      | Some v => digits_value digit b (b * acc + v) s'
      | None => None
      end
  end.

(** A run of decimal digits, as [repr] writes them. *)
Definition digits10 (s : string) : option Z :=
  match s with
  | EmptyString => None
  | _ => digits_value dec_digit 10 0 s
  end.

(** [int] skips white space around a numeral: on ASCII text, the
    characters of [is_space]. *)
Fixpoint lstrip_space (s : string) : string :=
  match s with
  | EmptyString => EmptyString
  | String c s' => if is_space c then lstrip_space s' else s
  end.

Fixpoint rstrip_space (s : string) : string :=
  match s with
  | EmptyString => EmptyString
  | String c s' =>
      match rstrip_space s' with
      | EmptyString => if is_space c then EmptyString else String c EmptyString
      | r => String c r
      end
  end.

(** The digits of a numeral after a digit was read: more digits, each
    one possibly behind a single underscore. *)
Fixpoint grouped_digits (digit : ascii -> option Z) (b : Z) (acc : Z)
    (s : string) : option Z :=
  match s with
  | EmptyString => Some acc
  | String c s' =>
      if Ascii.eqb c "_" then
        match s' with
        | EmptyString => None
        | String d s'' =>
            match digit d with
            | Some v => grouped_digits digit b (b * acc + v) s''
            | None => None
            end
        end
      else
        match digit c with
        | Some v => grouped_digits digit b (b * acc + v) s'
        | None => None
        end
  end.

(** A numeral without sign: it starts with a digit. *)
Definition numeral (digit : ascii -> option Z) (b : Z) (s : string)
  : option Z :=
  match s with
  | EmptyString => None
  | String c s' =>
      match digit c with
      | Some v => grouped_digits digit b v s'
      | None => None
      end
  end.

(** The sign in front of a numeral, and what follows it. *)
Definition signed (s : string) : bool * string :=
  match s with
  | String "+" s' => (false, s')
  | String "-" s' => (true, s')
  | _ => (false, s)
  end.

(** [int(s)] on ASCII text: white space around the numeral, a sign,
    decimal digits with single underscores between them; [None] is
    [ValueError]. *)
Definition int10 (s : string) : option Z :=
  let '(negative, body) := signed (rstrip_space (lstrip_space s)) in
  (fun n => if negative : bool then - n else n) <$> numeral dec_digit 10 body.

(** [int(s, 16)] on ASCII text: as [int(s)], with hexadecimal digits of
    either case behind an optional prefix [0x] or [0X], which one
    underscore may follow; [None] is [ValueError]. *)
Definition int16 (s : string) : option Z :=
  let '(negative, body) := signed (rstrip_space (lstrip_space s)) in
  let body :=
    if startswith body "0x" || startswith body "0X" then
      match drop 2 body with
      | String "_" digits => digits
      | digits => digits
      end
    else body in
  (fun n => if negative : bool then - n else n) <$> numeral hex_digit 16 body.

(** [str(n)] for an integer. *)
Definition str_of_Z (z : Z) : string :=
  if z <? 0 then "-" ++ NilEmpty.string_of_uint (N.to_uint (Z.to_N (- z)))
  else NilEmpty.string_of_uint (N.to_uint (Z.to_N z)).

(** [int.from_bytes(bs, "big")]. *)
Definition be_value (bs : list Byte.byte) : Z :=
  fold_left (fun acc b => 256 * acc + Z.of_N (Byte.to_N b)) bs 0.

(** [c * n] for a one-character string [c]. *)
Fixpoint repeat_char (c : ascii) (n : nat) : string :=
  match n with
  | O => EmptyString
  | S n' => String c (repeat_char c n')
  end.

(** [sep.join(l)]. *)
Fixpoint join (sep : string) (l : list string) : string :=
  match l with
  | [] => EmptyString
  | [x] => x
  | x :: l' => x ++ sep ++ join sep l'
  end.

(** The [,] format option on a string of integer digits: groups of three
    from the right. *)
Fixpoint group3 (fuel : nat) (digits : string) : string :=
  match fuel with
  | O => digits
  | S fuel' =>
      if (3 <? String.length digits)%nat
      then group3 fuel' (take (String.length digits - 3) digits) ++ ","
           ++ last_chars 3 digits
      else digits
  end.

Definition with_commas (digits : string) : string :=
  group3 (String.length digits) digits.

End Py.

(** ** Python floats

    Finite non-negative binary64 values, as needed for token amounts: the
    quotient of a 256-bit integer by [10^18] lies between [10^-18] and
    [2^256], well inside the normal range, so neither overflow nor
    subnormal numbers arise. *)

Module PyFloat.

(** The value [fm * 2^fe], with [fm = 0] (and [fe = 0]) or
    [2^52 <= fm < 2^53]. *)
Record float : Type := mkFloat { fm : Z; fe : Z }.

Definition zero : float := mkFloat 0 0.

Definition eqb (x y : float) : bool := (fm x =? fm y) && (fe x =? fe y).

(** [n / (d * 2^e)] as a fraction of integers. *)
Definition scaled (n d e : Z) : Z * Z :=
  if 0 <=? e then (n, d * 2 ^ e) else (n * 2 ^ (- e), d).

(** The binary64 nearest to [n / d], ties to even ([0 <= n], [0 < d]):
    what [n / d] evaluates to for Python integers, and what [float(s)]
    gives for the decimal numeral [s = n / d]. *)
Definition round_ratio (n d : Z) : float :=
  if n <=? 0 then zero
  else
    let e0 := Z.log2 n - Z.log2 d - 53 in
    let '(a0, b0) := scaled n d e0 in
    let e := if 2 ^ 53 <=? a0 / b0 then e0 + 1 else e0 in
    let '(a, b) := scaled n d e in
    let q := a / b in
    let r := a mod b in
    let q' :=
      if b <? 2 * r then q + 1
      else if 2 * r =? b then (if Z.even q then q else q + 1)
      else q in
    if q' =? 2 ^ 53 then mkFloat (2 ^ 52) (e + 1) else mkFloat q' e.

(** [a / b] for integers [a >= 0], [b > 0]. *)
Definition truediv (a b : Z) : float := round_ratio a b.

(** [float(n)] for an integer [n >= 0]. *)
Definition of_Z (n : Z) : float := round_ratio n 1.

(** The exact value of [x] as a fraction. *)
Definition to_ratio (x : float) : Z * Z := scaled (fm x) 1 (- fe x).

(** [x >= p / q] and [x <= p / q], exactly ([0 < q]). *)
Definition geb_ratio (x : float) (p q : Z) : bool :=
  let '(n, d) := to_ratio x in p * d <=? n * q.

Definition leb_ratio (x : float) (p q : Z) : bool :=
  let '(n, d) := to_ratio x in n * q <=? p * d.

(** [x <= y], exactly. *)
Definition leb (x y : float) : bool :=
  let '(n, d) := to_ratio y in leb_ratio x n d.

(** [x * k] for an integer [k >= 0]. *)
Definition mul_Z (x : float) (k : Z) : float :=
  let '(n, d) := to_ratio x in round_ratio (n * k) d.

(** [int(x)]: the integer part. *)
Definition trunc (x : float) : Z :=
  let '(n, d) := to_ratio x in n / d.

(** The value [D * 10^q] read as a float. *)
Definition of_decimal (D q : Z) : float :=
  if 0 <=? q then round_ratio (D * 10 ^ q) 1 else round_ratio D (10 ^ (- q)).

(** [10^p <= n / d]. *)
Definition pow10_le (p n d : Z) : bool :=
  if 0 <=? p then d * 10 ^ p <=? n else d <=? n * 10 ^ (- p).

(** [floor (log10 (n / d))] for [0 < n], [0 < d]. *)
Definition ilog10 (n d : Z) : Z :=
  let est := ((Z.log2 n - Z.log2 d) * 1233) / 4096 in
  if pow10_le (est + 1) n d then est + 1
  else if pow10_le est n d then est
  else est - 1.

(** [floor (x / 10^q)] and whether the fraction left is below, at or above
    one half. *)
Definition decimal_floor (x : float) (q : Z) : Z * comparison :=
  let '(n, d) := to_ratio x in
  let '(a, b) := if 0 <=? q then (n, d * 10 ^ q) else (n * 10 ^ (- q), d) in
  (a / b, (2 * (a mod b)) ?= b).

(** Strip the trailing zeros of [D], counting them into [q]. *)
Fixpoint strip_zeros (fuel : nat) (D q : Z) : Z * Z :=
  match fuel with
  | O => (D, q)
  | S fuel' =>
      if (D mod 10 =? 0) && (0 <? D) then strip_zeros fuel' (D / 10) (q + 1)
      else (D, q)
  end.

(** The shortest decimal [D * 10^q] that reads back as [x], the closest
    to [x] among those of that length (the digits of [repr]): tried with
    [ndigits], [ndigits + 1], ... significant digits; [p] is
    [floor (log10 x)]. *)
Fixpoint shortest_from (fuel : nat) (ndigits : Z) (p : Z) (x : float)
  : Z * Z :=
  let q := p - ndigits + 1 in
  let '(lo, half) := decimal_floor x q in
  let first :=
    match half with
    | Lt => lo
    | Gt => lo + 1
    | Eq => if Z.even lo then lo else lo + 1
    end in
  let second := if first =? lo then lo + 1 else lo in
  match fuel with
  | O => (first, q)
  | S fuel' =>
      if eqb (of_decimal first q) x then (first, q)
      else if eqb (of_decimal second q) x then (second, q)
      else shortest_from fuel' (ndigits + 1) p x
  end.

Definition shortest (x : float) : Z * Z :=
  let '(n, d) := to_ratio x in
  let '(D, q) := shortest_from 16 1 (ilog10 n d) x in
  strip_zeros 20 D q.

(** The exponent of the [e] notation: a sign and at least two digits. *)
Definition exponent_str (k : Z) : string :=
  let digits := Py.str_of_Z (Z.abs k) in
  (if k <? 0 then "-" else "+")
  ++ (if (String.length digits <? 2)%nat then "0" ++ digits else digits).

(** [repr(x)], which is also [str(x)]. *)
Definition repr (x : float) : string :=
  if fm x =? 0 then "0.0"
  else
    let '(D, q) := shortest x in
    let ds := Py.str_of_Z D in
    let nd := Z.of_nat (String.length ds) in
    let decpt := nd + q in
    if (decpt <=? -4) || (16 <? decpt) then
      Py.take 1 ds
      ++ (if 1 <? nd then "." ++ Py.drop 1 ds else "")
      ++ "e" ++ exponent_str (decpt - 1)
    else if decpt <=? 0 then
      "0." ++ Py.repeat_char "0" (Z.to_nat (- decpt)) ++ ds
    else if nd <=? decpt then
      ds ++ Py.repeat_char "0" (Z.to_nat (decpt - nd)) ++ ".0"
    else
      Py.take (Z.to_nat decpt) ds ++ "." ++ Py.drop (Z.to_nat decpt) ds.

(** Split [s] at the first occurrence of [c]: the part before it and,
    when [c] occurs, the part after it. *)
Fixpoint split_at (c : ascii) (s : string) : string * option string :=
  match s with
  | EmptyString => (EmptyString, None)
  | String a s' =>
      if Ascii.eqb a c then (EmptyString, Some s')
      else let '(l, r) := split_at c s' in (String a l, r)
  end.

(** [float(s)] on the numerals that [repr] writes: digits, an optional
    fraction, an optional exponent. [None] is [ValueError]. *)
Definition of_string (s : string) : option float :=
  let '(mantissa, exponent) := split_at "e" s in
  let '(int_part, frac_part) := split_at "." mantissa in
  let frac := default EmptyString frac_part in
  let exp_value :=
    match exponent with
    | None => Some 0
    | Some (String "+" ds) => Py.digits10 ds
    | Some (String "-" ds) => Z.opp <$> Py.digits10 ds
    | Some ds => Py.digits10 ds
    end in
  match Py.digits10 (int_part ++ frac), exp_value with
  | Some D, Some k =>
      if (String.length int_part =? 0)%nat && (String.length frac =? 0)%nat
      then None
      else Some (of_decimal D (k - Z.of_nat (String.length frac)))
  | _, _ => None
  end.

(** A non-negative amount rounded to [places] decimals, ties to even, and
    written with thousands separators: the format [{x:,.Nf}] for
    [N = places > 0]. *)
Definition format_fixed_commas (places : Z) (x : float) : string :=
  let '(lo, half) := decimal_floor x (- places) in
  let scaled_value :=
    match half with
    | Lt => lo
    | Gt => lo + 1
    | Eq => if Z.even lo then lo else lo + 1
    end in
  let int_digits := Py.str_of_Z (scaled_value / 10 ^ places) in
  let frac_digits := Py.str_of_Z (scaled_value mod 10 ^ places) in
  Py.with_commas int_digits ++ "."
  ++ Py.repeat_char "0" (Z.to_nat places - String.length frac_digits)
  ++ frac_digits.

End PyFloat.

(** ** helpers/decode_hex.py: the calldata decoder *)

(** The values stored in the decoder's result dict. *)
Inductive value : Type :=
  | VStr (s : string)
  | VFloat (x : PyFloat.float).

Module Decoder.

Record DecodedPayload : Type := mkPayload {
  validatorId : value;
  amountInTokens : value;
}.

(** [eth_utils.decode_hex]: drop an [0x] or [0X] prefix, then
    [binascii.unhexlify]. *)
Definition decode_hex (v : string) : option (list Byte.byte) :=
  Py.unhexlify
    (if Py.startswith v "0x" || Py.startswith v "0X" then Py.drop 2 v else v).

(** [eth_abi.decode(['uint256', 'uint256'], data)]: two big-endian words of
    32 bytes from the front of [data]; fewer than 64 bytes is an error. *)
Definition abi_decode_uint256_pair (payload : list Byte.byte)
  : option (Z * Z) :=
  if (length payload <? 64)%nat then None
  else Some (Py.be_value (take 32 payload),
             Py.be_value (take 32 (drop 32 payload))).

(** [decode_hex_data]; the [except Exception] branch is [None]. *)
Definition decode_hex_data (hex_data : string) : option DecodedPayload :=
  let hex_data :=
    if Py.startswith hex_data "0x" then Py.drop 2 hex_data else hex_data in
  raw ← decode_hex (Py.drop 8 hex_data);
  params ← abi_decode_uint256_pair raw;
  let validator_id := Py.str_of_Z params.1 in
  let amount_in_tokens := PyFloat.truediv params.2 (10 ^ 18) in
  Some {| validatorId := VStr validator_id;
          amountInTokens := VStr (PyFloat.repr amount_in_tokens) |}.

(** [float(v)] for a value of the result dict. *)
Definition float_of_value (v : value) : option PyFloat.float :=
  match v with
  | VStr s => PyFloat.of_string s
  | VFloat x => Some x
  end.

End Decoder.

(** ** Data model: the coordination feed *)

(** One entry of a transaction's ["confirmations"] list. A JSON [null]
    signature is [None]. *)
Record Confirmation : Type := mkConfirmation {
  owner : string;
  signature : option string;
}.

(** A record of the multisig feed. Keys read with [tx.get(..)] are
    options ([None]: key absent or, for ["data"], null); keys read with
    [tx[..]] are plain fields. *)
Record FeedTx : Type := mkFeedTx {
  nonce : Z;
  isExecuted : bool;
  submissionDate : string;
  data : option string;
  confirmations : option (list Confirmation);
  confirmationsRequired : option Z;
}.

(** A feed record after [fetch_recent_transactions] has added the keys
    ["signature_count"] and ["confirmations_required"]. *)
Record Tx : Type := mkTx {
  feed :> FeedTx;
  signature_count : Z;
  confirmations_required : Z;
}.

(** ** helpers/fetch_transactions.py: the queue normalizer *)

Module Normalizer.

(** One iteration of the [for tx in transactions] loop over the dict
    [latest_transactions]. *)
Definition visit (latest : gmap Z Tx) (tx : Tx) : gmap Z Tx :=
  if isExecuted tx then <[nonce tx := tx]> latest
  else
    match (latest !! nonce tx : option Tx) with
    | None => <[nonce tx := tx]> latest
    | Some kept =>
        if String.ltb (submissionDate kept) (submissionDate tx)
        then <[nonce tx := tx]> latest
        else latest
    end.

(** [list.sort(key=lambda tx: tx["nonce"])]: a stable sort, here by
    insertion; [x] goes in front of the first element whose key is not
    smaller. *)
Fixpoint insert_by_nonce (x : Tx) (l : list Tx) : list Tx :=
  match l with
  | [] => [x]
  | y :: l' =>
      if nonce x <=? nonce y then x :: y :: l' else y :: insert_by_nonce x l'
  end.

Definition sort_by_nonce (l : list Tx) : list Tx :=
  foldr insert_by_nonce [] l.

Definition latest_transactions (transactions : list Tx) : gmap Z Tx :=
  foldl visit ∅ transactions.

(** The dict's values are enumerated in key order here and in insertion
    order by Python; the keys are distinct and the list is sorted by key
    afterwards, so the result is the same. *)
Definition filter_and_sort_pending_transactions (transactions : list Tx)
  : list Tx :=
  let latest := latest_transactions transactions in
  let filtered_transactions :=
    List.filter (fun tx : Tx => negb (isExecuted tx))
      (map_to_list latest).*2 in
  sort_by_nonce filtered_transactions.

End Normalizer.

(** ** helpers/execute_transaction.py: signature aggregation *)

Module Signatures.

(** The sort key [x["owner"].lower()]. *)
Definition sort_key (c : Confirmation) : string := Py.lower (owner c).

(** [sorted(.., key=..)] is stable: [x] goes in front of the first element
    whose key is not smaller. *)
Fixpoint insert_by_owner (x : Confirmation) (l : list Confirmation)
  : list Confirmation :=
  match l with
  | [] => [x]
  | y :: l' =>
      if String.leb (sort_key x) (sort_key y) then x :: y :: l'
      else y :: insert_by_owner x l'
  end.

Definition sorted_by_owner (l : list Confirmation) : list Confirmation :=
  foldr insert_by_owner [] l.

(** The body of [for confirmation in confirmations]: a missing or empty
    signature is skipped, the others lose two characters and are read as
    hex. *)
Definition append_signature (signatures : list Byte.byte) (c : Confirmation)
  : outcome (list Byte.byte) :=
  match signature c with
  | None => Ret signatures
  | Some EmptyString => Ret signatures
  | Some sig =>
      match Py.fromhex (Py.drop 2 sig) with
      | Some bs => Ret (signatures ++ bs)%list
      | None => Raise ValueError
      end
  end.

Fixpoint append_signatures (signatures : list Byte.byte)
    (l : list Confirmation) : outcome (list Byte.byte) :=
  match l with
  | [] => Ret signatures
  | c :: l' =>
      signatures' ← append_signature signatures c;
      append_signatures signatures' l'
  end.

(** [collect_and_sort_signatures]; the result is [None] or the bytes. *)
Definition collect_and_sort_signatures (transaction : FeedTx)
  : outcome (option (list Byte.byte)) :=
  match confirmations transaction with
  | None => Ret None
  | Some [] => Ret None
  | Some confs =>
      signatures ← append_signatures [] (sorted_by_owner confs);
      match signatures with
      | [] => Ret None
      | _ => Ret (Some signatures)
      end
  end.

End Signatures.

(** ** The outside world: clock, network, checkpoint file *)

(** What [requests.get] does on one attempt. *)
Inductive reply (B : Type) : Type :=
  | Timeout
  | RequestFailed
  | Response (status : Z) (body : B).
Arguments Timeout {B}.
Arguments RequestFailed {B}.
Arguments Response {B} status body.

(** [response.raise_for_status()] raises for the 4xx and 5xx codes. *)
Definition raises_for_status (status : Z) : bool :=
  (400 <=? status) && (status <? 600).

(** What happens when [last_scanned_block.json] is written:
    [open(.., "w")] and [json.dump] succeed; or [open] raises and the file
    stays as it is; or [open] succeeds, which empties the file, and the
    write breaks off after it. *)
Inductive write_outcome : Type :=
  | WriteSucceeds
  | OpenFails
  | DumpFails.

(** The state that the helpers read and write: the number of requests
    sent so far (replies are indexed by it), the wall clock in seconds, the
    durations slept in order, the content of [last_scanned_block.json]
    ([None]: missing or unreadable), and what a write of that file would
    do. *)
Record world : Type := mkWorld {
  requests_sent : nat;
  unix_time : Z;
  slept : list Z;
  stored_block : option Z;
  writable : write_outcome;
}.

Definition M (A : Type) : Type := world -> outcome A * world.

#[global] Instance M_ret : MRet M := fun _ a w => (Ret a, w).
#[global] Instance M_bind : MBind M := fun _ _ k m w =>
  match m w with
  | (Ret a, w') => k a w'
  | (Raise e, w') => (Raise e, w')
  end.

Definition throw {A} (e : exn) : M A := fun w => (Raise e, w).

Definition lift {A} (e : exn) (x : option A) : M A :=
  match x with
  | Some a => mret a
  | None => throw e
  end.

(** [time.sleep(d)] *)
Definition sleep (d : Z) : M unit := fun w =>
  (Ret tt, mkWorld (requests_sent w) (unix_time w + d) (slept w ++ [d])%list
                   (stored_block w) (writable w)).

(** [time.time()] *)
Definition time : M Z := fun w => (Ret (unix_time w), w).

(** [requests.get(url, ..)]: the reply is the one the network holds for
    this request number. *)
Definition get {B} (url : nat -> reply B) : M (reply B) := fun w =>
  (Ret (url (requests_sent w)),
   mkWorld (S (requests_sent w)) (unix_time w) (slept w) (stored_block w)
           (writable w)).

(** ** helpers/fetch_transactions.py: the feed client *)

Module Fetch.

Definition MAX_RETRIES : Z := 4.
Definition BACKOFF_FACTOR : Z := 2.

(** The body of a feed response: not JSON at all, a JSON object with or
    without the key ["results"], or JSON of another kind. *)
Inductive feed_body : Type :=
  | FeedNotJson
  | FeedObject (results : option (list FeedTx))
  | FeedNotObject.

(** The two assignments of the [for tx in results] loop. *)
Definition annotate (tx : FeedTx) : Tx :=
  {| feed := tx;
     signature_count := Z.of_nat (length (default [] (confirmations tx)));
     confirmations_required := default 0 (confirmationsRequired tx) |}.

Section client.
Variable url : nat -> reply feed_body.

(** The iterations [attempt, attempt + 1, ..] of [for attempt in
    range(MAX_RETRIES)], [remaining] of them. *)
Fixpoint attempts_from (remaining : nat) (attempt : Z) (delay : Z)
  : M (list Tx) :=
  match remaining with
  | O => mret []
  | S remaining' =>
      let failed : M (list Tx) :=
        if attempt <? MAX_RETRIES - 1 then
          _ ← sleep delay;
          attempts_from remaining' (attempt + 1) (delay * BACKOFF_FACTOR)
        else attempts_from remaining' (attempt + 1) delay in
      response ← get url;
      match response with
      | Response status body =>
          if raises_for_status status then failed
          else
            match body with
            | FeedNotJson => failed
            | FeedObject results => mret (annotate <$> default [] results)
            | FeedNotObject => throw AttributeError
            end
      | _ => failed
      end
  end.

(** [fetch_recent_transactions]; [configured] says that both
    [SAFE_ADDRESS] and [BASE_URL] are set and non-empty. *)
Definition fetch_recent_transactions (configured : bool) : M (list Tx) :=
  if negb configured then throw ValueError
  else attempts_from (Z.to_nat MAX_RETRIES) 0 1.

End client.
End Fetch.

(** ** helpers/deposit_monitor.py *)

Module Monitor.

Definition MAX_RETRIES : Z := 5.
Definition INITIAL_DELAY : Z := 1.
Definition DECIMALS : Z := 10 ^ 18.
Definition FLAG_THRESHOLD : Z := 100000.

(** The body of a scanning response, by JSON kind: an object (with the
    value under ["result"], if that key is there), an array (does it have
    the string ["result"] as an element?), a string, or a number, boolean
    or null. *)
Inductive scan_body (R : Type) : Type :=
  | NotJson
  | JsonObject (result : option R)
  | JsonArray (has_result_item : bool)
  | JsonString (s : string)
  | JsonScalar.
Arguments NotJson {R}.
Arguments JsonObject {R} result.
Arguments JsonArray {R} has_result_item.
Arguments JsonString {R} s.
Arguments JsonScalar {R}.

(** [sub in s] for strings. *)
Fixpoint occurs_in (sub s : string) : bool :=
  Py.startswith s sub ||
  match s with
  | EmptyString => false
  | String _ s' => occurs_in sub s'
  end.

(** ["result" in data]. *)
Definition contains_result {R} (body : scan_body R) : outcome bool :=
  match body with
  | NotJson => Raise ValueError
  | JsonObject result => Ret (bool_decide (is_Some result))
  | JsonArray has_result_item => Ret has_result_item
  | JsonString s => Ret (occurs_in "result" s)
  | JsonScalar => Raise TypeError
  end.

(** [data["result"]]. *)
Definition result_of {R} (body : scan_body R) : outcome R :=
  match body with
  | JsonObject (Some r) => Ret r
  | JsonObject None => Raise KeyError
  | _ => Raise TypeError
  end.

(** [data.get("result", [])], for a caller that needs a list. *)
Definition get_result {A} (body : scan_body (list A)) : outcome (list A) :=
  match body with
  | JsonObject result => Ret (default [] result)
  | _ => Raise AttributeError
  end.

Definition run {A} (x : outcome A) : M A := fun w => (x, w).

(** The iterations of [for attempt in range(MAX_RETRIES)] in
    [make_request], [remaining] of them. *)
Fixpoint make_request_from {R} (url : nat -> reply (scan_body R))
    (remaining : nat) (delay : Z) : M (option (scan_body R)) :=
  match remaining with
  | O => mret None
  | S remaining' =>
      let next := make_request_from url remaining' (delay * 2) in
      _ ← sleep delay;
      response ← get url;
      match response with
      | Response status body =>
          if raises_for_status status then next
          else
            match body with
            | NotJson => next
            | _ =>
                found ← run (contains_result body);
                if found : bool then mret (Some body) else next
            end
      | _ => next
      end
  end.

Definition make_request {R} (url : nat -> reply (scan_body R))
  : M (option (scan_body R)) :=
  make_request_from url (Z.to_nat MAX_RETRIES) INITIAL_DELAY.

(** A raw log of the deposit event. *)
Inductive block_number : Type :=
  | BlockHex (s : string)
  | BlockInt (z : Z).

Record LogEvent : Type := mkLog {
  transactionHash : option string;
  blockNumber : block_number;
  topics : list string;
  log_data : option string;
}.

(** The three calls of the block-indexing service: each maps the request
    number (and the query) to the reply. *)
Record network : Type := mkNetwork {
  getblocknobytime : Z -> nat -> reply (scan_body string);
  eth_blockNumber : nat -> reply (scan_body string);
  getLogs : Z -> Z -> nat -> reply (scan_body (list LogEvent));
}.

(** [load_last_scanned_block] *)
Definition load_last_scanned_block : M (option Z) := fun w =>
  (Ret (stored_block w), w).

(** [save_last_scanned_block]: a failed write is printed and ignored;
    the file was emptied if it failed after [open]. *)
Definition save_last_scanned_block (block_num : Z) : M unit := fun w =>
  (Ret tt,
   match writable w with
   | WriteSucceeds =>
       mkWorld (requests_sent w) (unix_time w) (slept w) (Some block_num)
               (writable w)
   | OpenFails => w
   | DumpFails =>
       mkWorld (requests_sent w) (unix_time w) (slept w) None (writable w)
   end).

(** [int(b, 16) if isinstance(b, str) else int(b)] *)
Definition block_of (deposit : LogEvent) : outcome Z :=
  match blockNumber deposit with
  | BlockHex s =>
      match Py.int16 s with Some b => Ret b | None => Raise ValueError end
  | BlockInt z => Ret z
  end.

(** [max(block_of d for d in deposits)] over a non-empty list, from the
    first element on. *)
Fixpoint max_block (best : Z) (deposits : list LogEvent) : outcome Z :=
  match deposits with
  | [] => Ret best
  | d :: rest => b ← block_of d; max_block (Z.max best b) rest
  end.

Definition nl : string := String (ascii_of_N 10) EmptyString.

Definition sonicscan_tx_url : string := "https://sonicscan.org/tx/".
Definition debank_url : string := "https://debank.com/profile/".

(** What every loop over the logs computes first: hash, sender and
    amount. *)
Definition classify (deposit : LogEvent)
  : outcome (string * string * PyFloat.float) :=
  let tx_hash := default "N/A" (transactionHash deposit) in
  match topics deposit with
  | _ :: topic1 :: _ =>
      let sender := "0x" ++ Py.last_chars 40 topic1 in
      let raw_amount_assets := Py.take 66 (default "0x0" (log_data deposit)) in
      match Py.int16 raw_amount_assets with
      | Some deposit_amount_wei =>
          Ret (tx_hash, sender, PyFloat.truediv deposit_amount_wei DECIMALS)
      | None => Raise ValueError
      end
  | _ => Raise IndexError
  end.

(** [deposit_amount >= FLAG_THRESHOLD] *)
Definition large (deposit_amount : PyFloat.float) : bool :=
  PyFloat.geb_ratio deposit_amount FLAG_THRESHOLD 1.

Definition threshold_text : string :=
  Py.with_commas (Py.str_of_Z FLAG_THRESHOLD).

Definition alert_line (tx_hash sender : string) (amount : PyFloat.float)
  : string :=
  "**ALERT!**, " ++ PyFloat.format_fixed_commas 2 amount
  ++ " $S deposit by [DeBank Wallet](<" ++ debank_url ++ sender
  ++ ">) at [SonicScan TX](" ++ sonicscan_tx_url ++ tx_hash
  ++ "). Alert threshold = " ++ threshold_text ++ " $S.".

(** The [for deposit in deposits] loop of
    [check_large_deposits_with_block], on the state
    [(alert_triggered, messages, last_block_scanned)]. *)
Fixpoint process_deposits (deposits : list LogEvent)
    (st : bool * list string * Z) : outcome (bool * list string * Z) :=
  match deposits with
  | [] => Ret st
  | deposit :: rest =>
      let '(alert_triggered, messages, last_block_scanned) := st in
      '(tx_hash, sender, deposit_amount) ← classify deposit;
      deposit_block ← block_of deposit;
      let last_block_scanned := Z.max last_block_scanned deposit_block in
      if large deposit_amount then
        process_deposits rest
          (true, (messages ++ [alert_line tx_hash sender deposit_amount])%list,
           last_block_scanned)
      else process_deposits rest (alert_triggered, messages, last_block_scanned)
  end.

Definition pause_notice : string :=
  nl ++ nl ++ "Automated executions are now paused. Please investigate "
  ++ "<@538717564067381249> and resume automation when satisfied.".

Section monitor.
Variable net : network.

(** [check_large_deposits_with_block] *)
Definition check_large_deposits_with_block (start_block : option Z)
  : M (bool * string * option Z) :=
  resolved ←
    match start_block with
    | Some b => mret (Some b)
    | None =>
        now ← time;
        let one_hour_ago := now - 3900 in
        block_response ← make_request (getblocknobytime net one_hour_ago);
        match block_response with
        | None => mret None
        | Some body =>
            r ← run (result_of body);
            b ← lift ValueError (Py.int10 r);
            mret (Some b)
        end
    end;
  match resolved with
  | None => mret (false, "Error: Could not fetch block time.", None)
  | Some start_block =>
      latest_block_response ← make_request (eth_blockNumber net);
      match latest_block_response with
      | None => mret (false, "Error: Could not fetch latest block.", None)
      | Some body =>
          r ← run (result_of body);
          latest_block ← lift ValueError (Py.int16 r);
          tx_response ← make_request (getLogs net start_block latest_block);
          match tx_response with
          | None => mret (false, "Error: Could not fetch deposit logs.", None)
          | Some body =>
              deposits ← run (get_result body);
              last_block_scanned ←
                match deposits with
                | [] => mret latest_block
                | d :: rest => b ← run (block_of d); run (max_block b rest)
                end;
              '(alert_triggered, messages, last_block_scanned) ←
                run (process_deposits deposits (false, [], last_block_scanned));
              if alert_triggered : bool then
                mret (true, Py.join (nl ++ nl) messages ++ pause_notice,
                      Some last_block_scanned)
              else mret (false, "message", Some last_block_scanned)
          end
      end
  end.

(** [str(b)] for an optional block number. *)
Definition str_of_block (b : option Z) : string :=
  match b with
  | Some z => Py.str_of_Z z
  | None => "None"
  end.

(** [run_deposit_probe]; the check runs to its end in a worker thread. *)
Definition run_deposit_probe (start_block : option Z)
  : M (bool * string * option Z * option Z) :=
  old_persisted_block ← load_last_scanned_block;
  let start_block :=
    match start_block with
    | Some b => Some b
    | None => (fun b => b + 1) <$> old_persisted_block
    end in
  '(alert_triggered, deposit_message, new_last_block) ←
    check_large_deposits_with_block start_block;
  _ ← match new_last_block with
      | Some b => save_last_scanned_block b
      | None => mret tt
      end;
  let deposit_message :=
    if alert_triggered : bool then deposit_message
    else "✅ No deposits over " ++ threshold_text
         ++ " S tokens were found between blocks "
         ++ str_of_block start_block ++ " and "
         ++ str_of_block new_last_block ++ "." in
  mret (alert_triggered, deposit_message, start_block, new_last_block).

(** *** The chunked historical scan *)

Definition BLOCK_CHUNK_SIZE : Z := 25000.
Definition MIN_BLOCK_CHUNK : Z := 3125.
Definition RETRY_LIMIT : Z := 2.

(** The variables of the scan loops: the retry counter, the chunk size,
    the logs collected, and the ranges reported by the
    ["Retrieved .. from blocks a to b"] lines. *)
Record scan_state : Type := mkScan {
  retries : Z;
  chunk_size : Z;
  deposits : list LogEvent;
  retrieved : list (Z * Z);
}.

(** [tx_response and "result" in tx_response] *)
Definition usable {R} (tx_response : option (scan_body R)) : outcome bool :=
  match tx_response with
  | None => Ret false
  | Some body => contains_result body
  end.

(** The inner loop [while retries < RETRY_LIMIT], with at most
    [remaining] iterations left. *)
Fixpoint query_chunk (remaining : nat) (current_start_block
    current_end_block : Z) (st : scan_state) : M scan_state :=
  match remaining with
  | O => mret st
  | S remaining' =>
      tx_response ←
        make_request (getLogs net current_start_block current_end_block);
      ok ← run (usable tx_response);
      if ok : bool then
        logs ← run (from_option result_of (Raise TypeError) tx_response);
        mret (mkScan (retries st) (chunk_size st)
                     (deposits st ++ logs)%list
                     (retrieved st
                        ++ [(current_start_block, current_end_block)])%list)
      else
        let retries' := retries st + 1 in
        _ ← sleep (10 * retries');
        let size' :=
          if (retries' =? RETRY_LIMIT) && (MIN_BLOCK_CHUNK <? chunk_size st)
          then Z.max (chunk_size st / 2) MIN_BLOCK_CHUNK
          else chunk_size st in
        query_chunk remaining' current_start_block current_end_block
          (mkScan retries' size' (deposits st) (retrieved st))
  end.

(** How the outer loop ends: the range is exhausted, or a chunk failed at
    the floor size, or the iteration budget ran out (which
    [walk_chunks] with a budget of one iteration per block never does). *)
Inductive walk_end : Type :=
  | RangeDone (st : scan_state)
  | FloorFailed (st : scan_state)
  | BudgetSpent.

(** The outer loop [while current_start_block <= latest_block]. *)
Fixpoint walk_chunks (budget : nat) (latest_block current_start_block : Z)
    (st : scan_state) : M walk_end :=
  if current_start_block <=? latest_block then
    match budget with
    | O => mret BudgetSpent
    | S budget' =>
        let current_end_block :=
          Z.min (current_start_block + chunk_size st) latest_block in
        st' ← query_chunk (Z.to_nat RETRY_LIMIT) current_start_block
                current_end_block
                (mkScan 0 (chunk_size st) (deposits st) (retrieved st));
        if (retries st' =? RETRY_LIMIT) && (chunk_size st' =? MIN_BLOCK_CHUNK)
        then mret (FloorFailed st')
        else walk_chunks budget' latest_block (current_end_block + 1) st'
    end
  else mret (RangeDone st).

(** The part both scans share: resolve [start_block] from the time window
    and [latest_block] from the chain head, then walk the range. The
    result is the name of the lookup that failed, or the end of the
    walk. *)
Definition scan_window (hours : PyFloat.float) : M (string + walk_end) :=
  let window_seconds := PyFloat.trunc (PyFloat.mul_Z hours 3600) in
  now ← time;
  let start_time := now - window_seconds in
  block_response ← make_request (getblocknobytime net start_time);
  match block_response with
  | None => mret (inl "block time")
  | Some body =>
      r ← run (result_of body);
      start_block ← lift ValueError (Py.int10 r);
      latest_block_response ← make_request (eth_blockNumber net);
      match latest_block_response with
      | None => mret (inl "latest block")
      | Some body =>
          r ← run (result_of body);
          latest_block ← lift ValueError (Py.int16 r);
          w ← walk_chunks (Z.to_nat (latest_block - start_block + 1))
                latest_block start_block (mkScan 0 BLOCK_CHUNK_SIZE [] []);
          mret (inr w)
      end
  end.

Definition deposited_line (tx_hash sender : string) (amount : PyFloat.float)
  : string :=
  PyFloat.format_fixed_commas 2 amount
  ++ " $S deposited by [DeBank Wallet](<" ++ debank_url ++ sender
  ++ ">) at [SonicScan TX](" ++ sonicscan_tx_url ++ tx_hash ++ ").".

(** The filter loop at the end of [check_large_deposits_custom]. *)
Fixpoint large_lines (logs : list LogEvent) : outcome (list string) :=
  match logs with
  | [] => Ret []
  | deposit :: rest =>
      '(tx_hash, sender, deposit_amount) ← classify deposit;
      lines ← large_lines rest;
      Ret (if large deposit_amount
           then deposited_line tx_hash sender deposit_amount :: lines
           else lines)
  end.

(** [check_large_deposits_custom]: the alert-free historical scan. [None]
    stands for a spent iteration budget. *)
Definition check_large_deposits_custom (hours : PyFloat.float)
  : M (option (bool * string)) :=
  scanned ← scan_window hours;
  match scanned with
  | inl what => mret (Some (false, "Error: Could not fetch " ++ what ++ "."))
  | inr BudgetSpent => mret None
  | inr (FloorFailed _) =>
      mret (Some (false,
        "Error: API rate limits or network failures prevented retrieving "
        ++ "historical deposits."))
  | inr (RangeDone st) =>
      messages ← run (large_lines (deposits st));
      match messages with
      | [] =>
          mret (Some (false,
            "✅ No large deposits (≥ " ++ threshold_text
            ++ " S tokens) were found in the last " ++ PyFloat.repr hours
            ++ " hours."))
      | _ => mret (Some (true, Py.join (nl ++ nl) messages))
      end
  end.

(** One row of the export. *)
Record Deposit : Type := mkDeposit {
  tx_hash : string;
  sender : string;
  amount : PyFloat.float;
}.

Fixpoint deposit_list (logs : list LogEvent) : outcome (list Deposit) :=
  match logs with
  | [] => Ret []
  | deposit :: rest =>
      '(h, a, x) ← classify deposit;
      rows ← deposit_list rest;
      Ret (mkDeposit h a x :: rows)
  end.

(** [fetch_all_deposits_custom]: the export keeps what was collected when
    a chunk fails at the floor size. *)
Definition fetch_all_deposits_custom (hours : PyFloat.float)
  : M (option (list Deposit)) :=
  scanned ← scan_window hours;
  match scanned with
  | inl _ => mret (Some [])
  | inr BudgetSpent => mret None
  | inr (FloorFailed st) | inr (RangeDone st) =>
      rows ← run (deposit_list (deposits st));
      mret (Some rows)
  end.

End monitor.
End Monitor.


(** ** Execution: what the commands and the tick share *)

(** What [execute_transaction] returns: nothing, the bare hash of the
    legacy path, or the dict with the receipt status. *)
Inductive exec_result : Type :=
  | ExecNone
  | ExecHash (tx_hash : string)
  | ExecReceipt (ok : bool) (tx_hash : string).

(** [isinstance(res, dict) and res.get("ok")] *)
Definition succeeded (res : exec_result) : bool :=
  match res with
  | ExecReceipt ok _ => ok
  | _ => false
  end.

(** [res["tx_hash"]] of a dict result. *)
Definition hash_of (res : exec_result) : string :=
  match res with
  | ExecReceipt _ h => h
  | ExecHash h => h
  | ExecNone => ""
  end.

(** What a handler does that others can see: a message to the channel, a
    message that quotes an exception, a line on the console, and a call of
    [execute_transaction] (with the transaction's nonce). *)
Inductive event : Type :=
  | Send (text : string)
  | SendError (e : exn)
  | Print (text : string)
  | Submit (n : Z).

Definition is_submit (ev : event) : bool :=
  match ev with
  | Submit _ => true
  | _ => false
  end.

(** The number of calls of [execute_transaction] in a journal. *)
Definition submissions (journal : list event) : nat :=
  length (List.filter is_submit journal).

(** [round(balance, 1) if balance else 0.0] on the balance in wei that
    [get_staking_balance] read ([None]: the read failed), in tenths of a
    token; ties go to the even tenth. *)
Definition rounded_balance (balance_wei : option Z) : Z :=
  match balance_wei with
  | None => 0
  | Some wei =>
      let q := wei / 10 ^ 17 in
      let r := wei mod 10 ^ 17 in
      if 10 ^ 17 <? 2 * r then q + 1
      else if 2 * r =? 10 ^ 17 then (if Z.even q then q else q + 1)
      else q
  end.

(** [{balance:,.1f}] of a balance in tenths. *)
Definition format_tenths (tenths : Z) : string :=
  Py.with_commas (Py.str_of_Z (tenths / 10)) ++ "." ++ Py.str_of_Z (tenths mod 10).

(** [decode_hex_data(hex_data) if hex_data else {}], where a failed
    decoding and the empty dict are both [None]. *)
Definition decode_if_present (hex_data : option string)
  : option Decoder.DecodedPayload :=
  match hex_data with
  | None => None
  | Some EmptyString => None
  | Some h => Decoder.decode_hex_data h
  end.

Definition text_of (v : value) : string :=
  match v with
  | VStr s => s
  | VFloat x => PyFloat.repr x
  end.

(** The character U+200B in UTF-8. *)
Definition zero_width_space : string :=
  String (ascii_of_N 226) (String (ascii_of_N 128)
    (String (ascii_of_N 139) EmptyString)).

Definition signatures_text (signature_count confirmations_required : Z)
  : string :=
  Py.str_of_Z signature_count ++ "/" ++ Py.str_of_Z confirmations_required.

(** ** commands/hot.py: the four execution commands *)

Module Hot.

Import Monitor.

Section commands.
(** The collaborators handed to [register_hot_commands]. *)
Variable get_paused : bool.
Variable get_staking_balance : option Z.
Variable fetch_recent_transactions : outcome (list Tx).
Variable fetch_transaction_by_nonce : Z -> option FeedTx.
Variable execute_transaction : FeedTx -> exec_result.

Definition paused_text : string :=
  "⏸️ The bot is currently paused. Transaction execution is disabled.".

Definition decode_failure_text (n : Z) : string :=
  "❌ Failed to decode transaction data for nonce " ++ Py.str_of_Z n ++ ".".

Definition insufficient_signatures_text (n sc cr : Z) : string :=
  "❌ Transaction with nonce " ++ Py.str_of_Z n
  ++ " cannot be executed due to insufficient signatures." ++ nl
  ++ "- **Signatures**: " ++ signatures_text sc cr.

Definition insufficient_balance_text (n sc cr : Z) (amount : PyFloat.float)
    (staking_balance : Z) : string :=
  "❌ Insufficient staking contract balance to execute the transaction." ++ nl
  ++ "- **Nonce**: " ++ Py.str_of_Z n ++ nl
  ++ "- **Signatures**: " ++ signatures_text sc cr ++ nl
  ++ "- **Required**: " ++ PyFloat.format_fixed_commas 1 amount ++ " S tokens"
  ++ nl
  ++ "- **Available**: " ++ format_tenths staking_balance ++ " S tokens".

Definition executed_text (n : Z) (detail : string) (txh : string) : string :=
  "✅ Transaction " ++ Py.str_of_Z n ++ " executed successfully!" ++ nl
  ++ detail
  ++ "- **Transaction Hash**: [View on SonicScan](" ++ sonicscan_tx_url ++ txh
  ++ ")" ++ zero_width_space.

Definition payload_detail (validator_id : string) (amount : PyFloat.float)
  : string :=
  "- **Validator ID**: " ++ validator_id ++ nl
  ++ "- **Amount**: " ++ PyFloat.format_fixed_commas 1 amount ++ " S tokens"
  ++ nl.

(** The part of [_run_execute_command] after the signature check. *)
Definition submit_lowest (check_balance allow_no_data_branch : bool)
    (staking_balance : Z) (lowest_transaction : Tx)
    (decoded : option Decoder.DecodedPayload)
  : list event * outcome unit :=
  let n := nonce lowest_transaction in
  let sc := signature_count lowest_transaction in
  let cr := confirmations_required lowest_transaction in
  match
    match decoded with
    | Some d => Decoder.float_of_value (Decoder.amountInTokens d)
    | None => Some PyFloat.zero
    end
  with
  | None => ([], Raise ValueError)
  | Some amount =>
      if check_balance && negb (PyFloat.leb_ratio amount staking_balance 10)
      then
        ([Send (insufficient_balance_text n sc cr amount staking_balance)],
         Ret tt)
      else
        match fetch_transaction_by_nonce n with
        | None =>
            ([Send ("❌ No transaction found for nonce " ++ Py.str_of_Z n
                    ++ ".")], Ret tt)
        | Some transaction =>
            let res := execute_transaction transaction in
            let report :=
              if succeeded res then
                match decoded with
                | Some d =>
                    executed_text n
                      (payload_detail (text_of (Decoder.validatorId d)) amount)
                      (hash_of res)
                | None =>
                    executed_text n ("- **No decodeable data**" ++ nl)
                      (hash_of res)
                end
              else "❌ Transaction " ++ Py.str_of_Z n
                   ++ " could not be executed." in
            ([Submit (nonce transaction); Send report], Ret tt)
        end
  end.

(** [_run_execute_command]: the messages sent and the submissions made,
    and how the handler ends. *)
Definition run_execute_command (initial_message : string)
    (check_pause check_balance allow_no_data_branch : bool)
  : list event * outcome unit :=
  if check_pause && get_paused then ([Send paused_text], Ret tt)
  else
    let staking_balance := rounded_balance get_staking_balance in
    match fetch_recent_transactions with
    | Raise e => ([Send initial_message], Raise e)
    | Ret transactions =>
        match Normalizer.filter_and_sort_pending_transactions transactions with
        | [] =>
            ([Send initial_message; Send "❌ No pending transactions found."],
             Ret tt)
        | lowest_transaction :: _ =>
            let n := nonce lowest_transaction in
            let sc := signature_count lowest_transaction in
            let cr := confirmations_required lowest_transaction in
            let decoded := decode_if_present (data lowest_transaction) in
            if negb allow_no_data_branch && negb (bool_decide (is_Some decoded))
            then ([Send initial_message; Send (decode_failure_text n)], Ret tt)
            else if sc <? cr then
              ([Send initial_message;
                Send (insufficient_signatures_text n sc cr)], Ret tt)
            else
              let '(evs, r) :=
                submit_lowest check_balance allow_no_data_branch
                  staking_balance lowest_transaction decoded in
              (Send initial_message :: evs, r)
        end
    end.

(** [!execute] *)
Definition execute : list event * outcome unit :=
  run_execute_command "⚔️ Checking for executable transactions..."
    true true false.

(** [!shikai] *)
Definition force_execute : list event * outcome unit :=
  run_execute_command
    "⚡ Overriding pause state, executing the lowest nonce transaction..."
    false true false.

(** [!bankai] *)
Definition force_execute_no_checks : list event * outcome unit :=
  run_execute_command
    ("🔥 Overriding pause state AND token balance, "
     ++ "executing the lowest nonce transaction...")
    false false false.

(** [!shukai9000] *)
Definition ultimate_force_execute : list event * outcome unit :=
  run_execute_command
    "💀 Unleashing ultimate power! Executing the lowest nonce transaction..."
    false false true.

End commands.
End Hot.

(** ** main.py: the periodic tick *)

Module Engine.

Import Monitor.

(** The automation state and the tick's bookkeeping: the global [paused],
    the number of suspension points passed and of calls of
    [execute_transaction] made (the environment's answers are indexed by
    them), the text of [full_report] once built, and the journal. *)
Record automation : Type := mkAutomation {
  paused : bool;
  awaits : nat;
  executions : nat;
  full_report : option string;
  journal : list event;
}.

Definition set_paused (v : bool) (st : automation) : automation :=
  mkAutomation v (awaits st) (executions st) (full_report st) (journal st).

Definition record (ev : event) (st : automation) : automation :=
  mkAutomation (paused st) (awaits st) (executions st) (full_report st)
               (journal st ++ [ev]).

Definition set_report (text : option string) (st : automation) : automation :=
  mkAutomation (paused st) (awaits st) (executions st) text (journal st).

Section tick.
(** What the tick meets: the outcome of the probe (alert flag and
    message), the chunks of a long message, the balance in wei, the feed,
    the text of [compose_full_report], the record found for a nonce, the
    result of the k-th call of [execute_transaction], what the
    [!pause] and [!resume] handlers write to [paused] while the tick is
    suspended for the k-th time, and the environment variable
    [SAFE_ADDRESS] ([None]: not set). *)
Variable run_deposit_probe : outcome (bool * string).
Variable split_long_message : string -> list string.
Variable get_staking_balance : option Z.
Variable fetch_recent_transactions : outcome (list Tx).
Variable compose_full_report : outcome string.
Variable fetch_transaction_by_nonce : Z -> option FeedTx.
Variable execute_transaction : nat -> exec_result.
Variable pause_writes : nat -> option bool.
Variable SAFE_ADDRESS : option string.

(** An [await]: the other handlers run. *)
Definition suspend (st : automation) : automation :=
  mkAutomation (default (paused st) (pause_writes (awaits st)))
               (S (awaits st)) (executions st) (full_report st) (journal st).

(** [await broadcast_message(text)] *)
Definition broadcast (text : string) (st : automation) : automation :=
  suspend (record (Send text) st).

Definition print (text : string) (st : automation) : automation :=
  record (Print text) st.

(** The cool-down [for _ in range(60)], [seconds] iterations left. *)
Fixpoint cooldown (seconds : nat) (st : automation) : automation :=
  match seconds with
  | O => st
  | S seconds' => if paused st then st else cooldown seconds' (suspend st)
  end.

Definition success_text (n : Z) (validator_id : string)
    (amount : PyFloat.float) (txh : string) : string :=
  "✅ Successfully executed transaction:" ++ nl
  ++ "- **Nonce**: " ++ Py.str_of_Z n ++ nl
  ++ "- **Validator ID**: " ++ validator_id ++ nl
  ++ "- **Amount**: " ++ PyFloat.format_fixed_commas 1 amount ++ " S tokens"
  ++ nl
  ++ "- **Transaction Hash**: [View on SonicScan](" ++ sonicscan_tx_url ++ txh
  ++ ")" ++ zero_width_space.

Definition reverted_text (attempts n : Z) : string :=
  "❌ Transaction reverted (attempt " ++ Py.str_of_Z attempts
  ++ "/3) for nonce " ++ Py.str_of_Z n ++ ". Retrying in 60 seconds…".

Definition circuit_breaker_text : string :=
  "🚨 **Transaction Reverted Alert** 🚨" ++ nl
  ++ "This transaction reverted 3 consecutive times and automation is now "
  ++ "paused. <@538717564067381249>, <@771222144780206100> please "
  ++ "investigate.".

(** The loop [while attempts < 3] with [remaining] iterations left, and
    the statements after it. *)
Fixpoint attempt_loop (remaining : nat) (attempts : Z) (n : Z)
    (validator_id : string) (amount : PyFloat.float) (st : automation)
  : automation :=
  match remaining with
  | O =>
      let st := set_paused true st in
      let st := broadcast circuit_breaker_text st in
      print "Three consecutive transaction reverts. Automation is paused." st
  | S remaining' =>
      if paused st then print "Pause detected during execution." st
      else
        let res := execute_transaction (executions st) in
        let st :=
          mkAutomation (paused st) (awaits st) (S (executions st))
                       (full_report st) (journal st ++ [Submit n]) in
        if succeeded res then
          broadcast (success_text n validator_id amount (hash_of res)) st
        else
          let attempts := attempts + 1 in
          let st :=
            if attempts <? 3
            then cooldown 60 (broadcast (reverted_text attempts n) st)
            else st in
          attempt_loop remaining' attempts n validator_id amount st
  end.

(** The status of one pending transaction in the console listing;
    [None] when [float(..)] rejects the amount. *)
Definition status_line (staking_balance : Z) (tx : Tx) : option string :=
  let decoded := decode_if_present (data tx) in
  amount ←
    match decoded with
    | Some d => Decoder.float_of_value (Decoder.amountInTokens d)
    | None => Some PyFloat.zero
    end;
  let validator_id :=
    match decoded with
    | Some d => text_of (Decoder.validatorId d)
    | None => "N/A"
    end in
  let status :=
    match decoded with
    | None => "No Data"
    | Some _ =>
        if signature_count tx <? confirmations_required tx
        then "Signatures Needed "
             ++ signatures_text (signature_count tx) (confirmations_required tx)
        else if PyFloat.leb_ratio amount staking_balance 10
             then "Ready to Execute"
             else "Insufficient Balance"
    end in
  Some ("- Nonce: " ++ Py.str_of_Z (nonce tx) ++ ", Status: " ++ status
        ++ ", Validator ID: " ++ validator_id ++ ", Amount: "
        ++ PyFloat.repr amount ++ " S tokens, Signatures: "
        ++ signatures_text (signature_count tx) (confirmations_required tx)).

(** The loop that lists the pending transactions; it stops at the first
    amount that [float(..)] rejects. *)
Fixpoint list_pending (staking_balance : Z) (pending : list Tx)
    (st : automation) : automation * option exn :=
  match pending with
  | [] => (st, None)
  | tx :: rest =>
      match status_line staking_balance tx with
      | Some line => list_pending staking_balance rest (print line st)
      | None => (st, Some ValueError)
      end
  end.

(** The [except Exception] handler. *)
Definition recover (e : exn) (st : automation) : automation :=
  suspend (record (SendError e) st).

Definition paused_note : string :=
  nl ++ nl ++ "⏸️ **Note:** Automated transaction execution is currently "
  ++ "paused. Rechecks and reports will continue.".

(** The block under ["Check if any transaction can be executed"]. *)
Definition execute_lowest (staking_balance : Z) (pending : list Tx)
    (st : automation) : automation :=
  let decoded :=
    match pending with
    | lowest_transaction :: _ => decode_if_present (data lowest_transaction)
    | [] => None
    end in
  if paused st then
    set_report ((fun r => r ++ paused_note) <$> full_report st)
      (print "Periodic recheck: Execution is paused." st)
  else
    match pending, decoded with
    | lowest_transaction :: _, Some d =>
        let n := nonce lowest_transaction in
        let sc := signature_count lowest_transaction in
        let cr := confirmations_required lowest_transaction in
        match Decoder.float_of_value (Decoder.amountInTokens d) with
        | None => recover ValueError st
        | Some amount =>
            if (cr <=? sc)
               && PyFloat.leb amount (PyFloat.round_ratio staking_balance 10)
            then
              let st :=
                print ("Transaction " ++ Py.str_of_Z n
                       ++ " is ready to execute. Executing now...") st in
              match fetch_transaction_by_nonce n with
              | Some transaction =>
                  attempt_loop 3 0 n (text_of (Decoder.validatorId d)) amount
                    st
              | None =>
                  print ("Transaction " ++ Py.str_of_Z n
                         ++ " not found for execution.") st
              end
            else if sc <? cr then
              print ("Skipping execution for nonce " ++ Py.str_of_Z n
                     ++ " because it only has " ++ signatures_text sc cr
                     ++ " signatures.") st
            else print "Insufficient balance for the next transaction." st
        end
    | _, _ => st
    end.

Definition feed_empty_text : string :=
  "⚠️  Gnosis Safe API either shat the bed again or there are legitimately "
  ++ "no pending transactions."
  ++ "If the CEO of staking is on smoke break...again, then don't tell "
  ++ "franz, you fucken snitch.".

Definition no_tx_message : string :=
  nl ++ nl ++ "📋 **Note:** No pending transactions found during this recheck.".

Definition safe_queue_link : string :=
  nl ++ nl ++ " <https://app.safe.global/transactions/queue?safe=sonic:"
  ++ default "None" SAFE_ADDRESS ++ ">".

(** [full_report] as the [try] block builds it before the pause note. *)
Definition recheck_report (text : string) (pending_transactions : list Tx)
  : string :=
  let full_report := "### Periodic Recheck Report ###" ++ nl ++ nl ++ text in
  let full_report :=
    match pending_transactions with
    | [] => full_report ++ no_tx_message
    | _ => full_report
    end in
  if existsb (fun tx : Tx => signature_count tx <? confirmations_required tx)
       pending_transactions
  then full_report ++ safe_queue_link
  else full_report.

(** The [try] block of [periodic_recheck] with its handler; the [finally]
    clause, which only sends [full_report] once a day, is left out, and so
    are the console lines that do not concern execution. *)
Definition periodic_recheck (st : automation) : automation :=
  let st := set_report None st in
  let st :=
    broadcast "⏳ Performing periodic recheck of deposits and transactions..."
      st in
  let st := suspend st in
  match run_deposit_probe with
  | Raise e => recover e st
  | Ret (alert_triggered, deposit_message) =>
      let st :=
        if alert_triggered : bool then
          set_paused true
            (foldl (fun st chunk => broadcast chunk st) st
                   (split_long_message deposit_message))
        else st in
      let st := suspend st in
      let staking_balance := rounded_balance get_staking_balance in
      let st := suspend st in
      match fetch_recent_transactions with
      | Raise e => recover e st
      | Ret transactions =>
          let pending_transactions :=
            Normalizer.filter_and_sort_pending_transactions transactions in
          let st :=
            match transactions with
            | [] => broadcast feed_empty_text st
            | _ => st
            end in
          match list_pending staking_balance pending_transactions st with
          | (st, Some e) => recover e st
          | (st, None) =>
              match compose_full_report with
              | Raise e => recover e st
              | Ret text =>
                  let st :=
                    set_report
                      (Some (recheck_report text pending_transactions)) st in
                  execute_lowest staking_balance pending_transactions st
              end
          end
      end
  end.

End tick.
End Engine.


(** The surroundings of one tick, and a run of ticks. *)
Record surroundings : Type := mkSurroundings {
  probe_outcome : outcome (bool * string);
  message_chunks : string -> list string;
  balance_wei : option Z;
  feed_outcome : outcome (list Tx);
  report_outcome : outcome string;
  found_by_nonce : Z -> option FeedTx;
  execution_results : nat -> exec_result;
  flag_writes : nat -> option bool;
  safe_address : option string;
}.

Definition tick (e : surroundings) (st : Engine.automation)
  : Engine.automation :=
  Engine.periodic_recheck (probe_outcome e) (message_chunks e) (balance_wei e)
    (feed_outcome e) (report_outcome e) (found_by_nonce e)
    (execution_results e) (flag_writes e) (safe_address e) st.

Definition ticks (es : list surroundings) (st : Engine.automation)
  : Engine.automation :=
  foldl (fun st e => tick e st) st es.

(** No [!resume] reaches the flag during the tick. *)
Definition no_resume (e : surroundings) : Prop :=
  forall k, flag_writes e k <> Some false.

(** ** helpers/execute_transaction.py: the executor *)

Module Executor.

(** What [execute_transaction] reads of the record it is given, besides
    what [collect_and_sort_signatures] reads: whether the keys ["to"] and
    ["data"] are there (the value under ["data"] is [data fields], [None]
    for [null]), what [int(transaction["value"])] evaluates to ([None]:
    no such key), what [int(transaction.get("gasPrice", 0))] evaluates
    to, and the flag under ["_wait_for_receipt"]. *)
Record SafeTransaction : Type := mkSafeTransaction {
  fields : FeedTx;
  has_to : bool;
  has_data : bool;
  value : option (outcome Z);
  gas_price : outcome Z;
  wait_for_receipt_flag : bool;
}.

(** The node: what the calls from [web3.eth.gas_price] to
    [send_raw_transaction] give the k-th time they run with this calldata
    and these signatures (the hash in hex, or an exception), and what
    [wait_for_receipt] learns of a hash ([None]: no receipt in time,
    otherwise the status of the receipt). *)
Record node : Type := mkNode {
  exec_transaction : nat -> list Byte.byte -> list Byte.byte -> outcome string;
  receipt_status : string -> option Z;
}.

Definition max_retries : Z := 5.

(** [s.lstrip("0x")]: the leading characters that are ['0'] or ['x'] go. *)
Fixpoint lstrip_0x (s : string) : string :=
  match s with
  | EmptyString => EmptyString
  | String c s' =>
      if Ascii.eqb c "0" || Ascii.eqb c "x" then lstrip_0x s' else s
  end.

Section executor.
Variable rpc : node.

(** The calls to the node; they count as one request. *)
Definition send_to_safe (calldata signatures : list Byte.byte) : M string :=
  fun w =>
    (exec_transaction rpc (requests_sent w) calldata signatures,
     mkWorld (S (requests_sent w)) (unix_time w) (slept w) (stored_block w)
             (writable w)).

(** The body of the [try] statement. *)
Definition try_once (transaction : option SafeTransaction) : M exec_result :=
  match transaction with
  | None => mret ExecNone
  | Some t =>
      if negb (has_to t) || negb (has_data t)
         || negb (bool_decide (is_Some (value t)))
      then mret ExecNone
      else
        _ ← Monitor.run (default (Raise KeyError) (value t));
        calldata ←
          match data (fields t) with
          | None => mret []
          | Some s => lift ValueError (Py.fromhex (lstrip_0x s))
          end;
        _ ← Monitor.run (gas_price t);
        signatures ←
          Monitor.run (Signatures.collect_and_sort_signatures (fields t));
        match signatures with
        | None => mret ExecNone
        | Some signatures =>
            tx_hash ← send_to_safe calldata signatures;
            if wait_for_receipt_flag t then
              mret (ExecReceipt
                      (bool_decide (receipt_status rpc tx_hash = Some 1))
                      tx_hash)
            else mret (ExecHash tx_hash)
        end
  end.

(** The loop [while attempt < max_retries], [remaining] iterations of it
    left; its [except] clause catches every exception. *)
Fixpoint attempts_from (remaining : nat) (attempt : Z) (delay : Z)
    (transaction : option SafeTransaction) : M exec_result :=
  match remaining with
  | O => mret ExecNone
  | S remaining' => fun w =>
      match try_once transaction w with
      | (Ret res, w') => (Ret res, w')
      | (Raise _, w') =>
          let attempt := attempt + 1 in
          if attempt =? max_retries then (Ret ExecNone, w')
          else
            (_ ← sleep delay;
             attempts_from remaining' attempt (delay * 2) transaction) w'
      end
  end.

(** [execute_transaction] *)
Definition execute_transaction (transaction : option SafeTransaction)
  : M exec_result :=
  attempts_from (Z.to_nat max_retries) 0 1 transaction.

End executor.
End Executor.


(** ** helpers/deposit_monitor.py: splitting a long message *)

Module Splitter.

(** A Python [str] as the list of its code points: [len], slices and
    [rfind] count code points. *)
Definition text : Type := list Z.

Definition MAX_MESSAGE_LENGTH : nat := 2000.

Definition line_feed : Z := 10.

(** The characters that [str.lstrip()] removes: those for which
    [str.isspace] holds. *)
Definition is_whitespace (c : Z) : bool :=
  ((9 <=? c) && (c <=? 13)) || ((28 <=? c) && (c <=? 32))
  || (c =? 133) || (c =? 160) || (c =? 5760)
  || ((8192 <=? c) && (c <=? 8202)) || (c =? 8232) || (c =? 8233)
  || (c =? 8239) || (c =? 8287) || (c =? 12288).

Fixpoint lstrip (s : text) : text :=
  match s with
  | [] => []
  | c :: s' => if is_whitespace c then lstrip s' else s
  end.

(** The index of the last line feed of [s], counting from [i], after the
    candidate [found]. *)
Fixpoint last_line_feed (i : nat) (s : text) (found : option nat)
  : option nat :=
  match s with
  | [] => found
  | c :: s' =>
      last_line_feed (S i) s' (if c =? line_feed then Some i else found)
  end.

(** [msg.rfind("\n", 0, stop)] for [stop >= 0]; [None] is [-1]. *)
Definition rfind_line_feed (msg : text) (stop : nat) : option nat :=
  last_line_feed 0 (take stop msg) None.

(** The loop [while len(msg) > max_length] with [fuel] iterations
    allowed, and the statement after it; [None] when the fuel runs out. *)
Fixpoint split_from (fuel : nat) (max_length : nat) (msg : text)
    (messages : list text) : option (list text) :=
  if (max_length <? length msg)%nat then
    match fuel with
    | O => None
    | S fuel' =>
        let split_index :=
          default max_length (rfind_line_feed msg max_length) in
        split_from fuel' max_length (lstrip (drop split_index msg))
          (messages ++ [take split_index msg])%list
    end
  else Some (messages ++ [msg])%list.

(** [split_long_message(msg, max_length)] for [max_length >= 0], with one
    iteration allowed per character of [msg]. *)
Definition split_long_message (msg : text) (max_length : nat)
  : option (list text) :=
  split_from (length msg) max_length msg [].

End Splitter.


(** ** helpers/decode_hex.py: the function names *)

Module Names.

(** [_SELECTOR_TO_NAME]; no key occurs twice, so that the first entry
    found is the dict's. *)
Definition SELECTOR_TO_NAME : list (string * string) :=
  [("095ea7b3", "approve");
   ("42966c68", "burn");
   ("79cc6790", "burnFrom");
   ("5eac6239", "claimRewards");
   ("d9a34952", "delegate");
   ("d0e30db0", "deposit");
   ("ed88c68e", "donate");
   ("2f2ff15d", "grantRole");
   ("485cc955", "initialize");
   ("cf5c3eb7", "operatorExecuteClawBack");
   ("71bbf3e7", "operatorInitiateClawBack");
   ("8456cb59", "pause");
   ("d505accf", "permit");
   ("715018a6", "renounceOwnership");
   ("36568abe", "renounceRole");
   ("d547741f", "revokeRole");
   ("543f66a4", "setDepositPaused");
   ("98176a01", "setProtocolFeeBIPS");
   ("f0f44260", "setTreasury");
   ("e882e4ef", "setUndelegateFromPoolPaused");
   ("cc90ef5c", "setUndelegatePaused");
   ("72f0cb30", "setWithdrawDelay");
   ("37d15139", "setWithdrawPaused");
   ("a9059cbb", "transfer");
   ("23b872dd", "transferFrom");
   ("f2fde38b", "transferOwnership");
   ("634b91e3", "undelegate");
   ("d02e92a6", "undelegateFromPool");
   ("2f3cd672", "undelegateMany");
   ("4f1ef286", "upgradeToAndCall");
   ("38d07436", "withdraw");
   ("ac697e3f", "withdrawMany")].

(** [d.get(key, default)] on a dict written as its items. *)
Fixpoint dict_get (items : list (string * string)) (key : string)
    (default : string) : string :=
  match items with
  | [] => default
  | (k, v) :: items' =>
      if String.eqb k key then v else dict_get items' key default
  end.

(** [get_function_name] on the calldata of a feed record ([None]: the
    JSON [null]); none of its steps raises on a string. *)
Definition get_function_name (hex_data : option string) : string :=
  match hex_data with
  | None => "No Data"
  | Some EmptyString => "No Data"
  | Some hex_data =>
      let hex_data :=
        if Py.startswith hex_data "0x" then Py.drop 2 hex_data else hex_data in
      let selector := Py.lower (Py.take 8 hex_data) in
      dict_get SELECTOR_TO_NAME selector "Unknown"
  end.

End Names.


(** * Invariants and predicates *)

(** Every value of the dict sits under its own nonce. *)
Definition keyed (m : gmap Z Tx) : Prop :=
  forall (k : Z) (tx : Tx), m !! k = Some tx -> nonce tx = k.

(** The bytes behind a confirmation's signature: the hex text after its
    first two characters; a missing signature has none. [None] when the
    text is not hex. *)
Definition raw_signature (c : Confirmation) : option (list Byte.byte) :=
  match signature c with
  | None => Some []
  | Some sig => Py.fromhex (Py.drop 2 sig)
  end.

Definition signature_bytes (c : Confirmation) : list Byte.byte :=
  default [] (raw_signature c).

(** Owners compared without regard to case. *)
Definition owner_le (a b : Confirmation) : Prop :=
  String.leb (Py.lower (owner a)) (Py.lower (owner b)) = true.

(** The delays [d, 2 d, 4 d, ..], [n] of them. *)
Fixpoint doubling (n : nat) (d : Z) : list Z :=
  match n with
  | O => []
  | S n' => d :: doubling n' (d * 2)
  end.

(** The replies that [make_request] takes as a failed attempt: an error of
    the transport, a 4xx or 5xx status, a body that is not JSON, or JSON
    in which ["result" in data] is false. *)
Definition scan_failure {R} (r : reply (Monitor.scan_body R)) : bool :=
  match r with
  | Timeout | RequestFailed => true
  | Response status body =>
      raises_for_status status ||
      match body with
      | Monitor.NotJson => true
      | Monitor.JsonObject None => true
      | Monitor.JsonArray false => true
      | Monitor.JsonString s => negb (Monitor.occurs_in "result" s)
      | _ => false
      end
  end.

(** The replies that [fetch_recent_transactions] takes as a failed
    attempt: an error of the transport, a 4xx or 5xx status, or a body
    that is not JSON. *)
Definition feed_failure (r : reply Fetch.feed_body) : bool :=
  match r with
  | Timeout | RequestFailed => true
  | Response status body =>
      raises_for_status status ||
      match body with
      | Fetch.FeedNotJson => true
      | _ => false
      end
  end.







(** What a helper that does not write the checkpoint file leaves as it
    was. *)
Definition frame (w w' : world) : Prop :=
  stored_block w' = stored_block w /\
  writable w' = writable w /\
  (requests_sent w <= requests_sent w')%nat.


(** [st'] comes after [st] without a call of [execute_transaction] in
    between: the journal has grown by events that are not submissions. *)
Definition calm (st st' : Engine.automation) : Prop :=
  Engine.executions st' = Engine.executions st /\
  exists added,
    Engine.journal st' = (Engine.journal st ++ added)%list /\
    submissions added = 0%nat.

(** Moreover a pause in force at [st] is still in force at [st'], as long
    as no handler writes [False] to the flag. *)
Definition quiet (writes : nat -> option bool) (st st' : Engine.automation)
  : Prop :=
  calm st st' /\
  ((forall k, writes k <> Some false) ->
   Engine.paused st = true -> Engine.paused st' = true).





(** * Worked inputs *)

(** The [n] hexadecimal digits of [z], most significant first. *)
Fixpoint hex_digits (n : nat) (z : Z) : string :=
  match n with
  | O => EmptyString
  | S n' =>
      let d := (z / 16 ^ Z.of_nat n') mod 16 in
      String (ascii_of_N (Z.to_N (if d <? 10 then 48 + d else 87 + d)))
             (hex_digits n' z)
  end.

(** A 32-byte big-endian word in hex. *)
Definition abi_word (z : Z) : string := hex_digits 64 z.

(** Calldata of a call with the arguments [validatorId = 7] and
    [amount = 2500 * 10^18]. *)
Definition stake_calldata (selector : string) : string :=
  "0x" ++ selector ++ abi_word 7 ++ abi_word (2500 * 10 ^ 18).

(** An executed record of nonce 5 followed by a pending record of the same
    nonce with a later date. *)
Definition executed_5 : Tx :=
  mkTx (mkFeedTx 5 true "2024-01-01T00:00:00Z" None (Some []) (Some 2)) 0 2.
Definition pending_5 : Tx :=
  mkTx (mkFeedTx 5 false "2024-02-01T00:00:00Z" None (Some []) (Some 2)) 0 2.

(** A transaction whose only confirmation carries no signature. *)
Definition unsigned_tx : FeedTx :=
  mkFeedTx 9 false "2024-03-01T00:00:00Z" None
    (Some [mkConfirmation "0x69503B52764138e906C883eD6ef4Cac939eb998C" None])
    (Some 1).

(** A transaction confirmed by two owners, listed out of order. *)
Definition signed_tx : FeedTx :=
  mkFeedTx 9 false "2024-03-01T00:00:00Z" None
    (Some [mkConfirmation "0xB3B1B2d1C9745E98e93F21DC2e4D816DA8a2440c"
             (Some "0x0102");
           mkConfirmation "0x69503B52764138e906C883eD6ef4Cac939eb998C"
             (Some "0xff")])
    (Some 2).

(** A feed record without confirmations and without the key
    ["confirmationsRequired"]. *)
Definition bare_tx : FeedTx :=
  mkFeedTx 7 false "2024-03-01T00:00:00Z" None None None.

(** A feed that is down once and then serves a record with two
    confirmations, which requires two, and the bare one. *)
Definition mixed_feed : nat -> reply Fetch.feed_body :=
  fun k =>
    match k with
    | O => Response 503 Fetch.FeedNotJson
    | _ => Response 200 (Fetch.FeedObject (Some [signed_tx; bare_tx]))
    end.

(** A fresh world: nothing sent, nothing slept, no checkpoint stored. *)
Definition fresh_world : world := mkWorld 0 1700000000 [] None WriteSucceeds.

(** A scanning endpoint that answers every request with the JSON number
    [5], one that always times out, and a feed that is always down. *)
Definition scalar_endpoint : nat -> reply (Monitor.scan_body string) :=
  fun _ => Response 200 Monitor.JsonScalar.

Definition silent_endpoint : nat -> reply (Monitor.scan_body string) :=
  fun _ => Timeout.

Definition dead_feed : nat -> reply Fetch.feed_body :=
  fun _ => Response 503 Fetch.FeedNotJson.

(** A well-formed answer of the block-indexing service. *)
Definition answer {R} (r : R) : reply (Monitor.scan_body R) :=
  Response 200 (Monitor.JsonObject (Some r)).

(** A service whose history starts at block 0 and whose head is block
    30000 ([0x7530]); it times out on the requests number 2 to 11, the ten
    attempts of the first two log queries, and then answers every log
    query with no logs. *)
Definition flaky_net : Monitor.network :=
  Monitor.mkNetwork
    (fun _ _ => answer "0")
    (fun _ => answer "0x7530")
    (fun _ _ k => if (k <? 12)%nat then Timeout else answer []).

(** A service that never answers, and a world with block 100 stored. *)
Definition dead_net : Monitor.network :=
  Monitor.mkNetwork (fun _ _ => Timeout) (fun _ => Timeout)
                    (fun _ _ _ => RequestFailed).

Definition world_at_100 : world :=
  mkWorld 0 1700000000 [] (Some 100) WriteSucceeds.



(** A service that reports the head 123 ([0x7b]) and no logs. *)
Definition quiet_net : Monitor.network :=
  Monitor.mkNetwork (fun _ _ => answer "90") (fun _ => answer "0x7b")
                    (fun _ _ _ => answer []).


(** The same transaction with the one confirmation it needs. *)
Definition ready_tx : Tx :=
  Fetch.annotate
    (mkFeedTx 5 false "2024-03-01T00:00:00Z"
       (Some (stake_calldata "a9059cbb"))
       (Some [mkConfirmation "0x69503B52764138e906C883eD6ef4Cac939eb998C"
                (Some "0x0102")])
       (Some 1)).

(** Automation running, nothing done yet. *)
Definition running : Engine.automation :=
  Engine.mkAutomation false 0 0 None [].

(** A tick that finds [ready_tx] with a balance of 10000 tokens, every
    submission reverting, and nobody touching the pause flag; and a later
    tick in which submissions would succeed. *)
Definition reverting_tick : surroundings :=
  mkSurroundings (Ret (false, "message")) (fun text => [text])
    (Some (10 ^ 22)) (Ret [ready_tx]) (Ret "report")
    (fun _ => Some (feed ready_tx)) (fun _ => ExecReceipt false "0xdead")
    (fun _ => None) None.

Definition healthy_tick : surroundings :=
  mkSurroundings (Ret (false, "message")) (fun text => [text])
    (Some (10 ^ 22)) (Ret [ready_tx]) (Ret "report")
    (fun _ => Some (feed ready_tx)) (fun _ => ExecReceipt true "0xbeef")
    (fun _ => None) None.

(** An older pending record of nonce 5. *)
Definition pending_5_old : Tx :=
  mkTx (mkFeedTx 5 false "2024-01-15T00:00:00Z" None (Some []) (Some 2)) 0 2.


(** ** Predicates of the chunked scan *)

(** Block ranges in ascending order and without overlap, all of them
    inside [lo, hi]. *)
Fixpoint ascending_ranges (lo hi : Z) (ranges : list (Z * Z)) : Prop :=
  match ranges with
  | [] => True
  | (a, b) :: rest =>
      lo <= a /\ a <= b /\ b <= hi /\ ascending_ranges (b + 1) hi rest
  end.

(** Block ranges that follow each other from [lo] to [hi] without a gap
    and without overlap. *)
Fixpoint tiles (lo hi : Z) (ranges : list (Z * Z)) : Prop :=
  match ranges with
  | [] => hi < lo
  | (a, b) :: rest => a = lo /\ lo <= b /\ b <= hi /\ tiles (b + 1) hi rest
  end.

(** The loop variables with which a walk ended. *)
Definition state_at_end (e : Monitor.walk_end) : option Monitor.scan_state :=
  match e with
  | Monitor.RangeDone st | Monitor.FloorFailed st => Some st
  | Monitor.BudgetSpent => None
  end.

(** A reply that [make_request] returns to its caller. *)
Definition good_reply {R} (r : reply (Monitor.scan_body R)) : Prop :=
  exists status body,
    r = Response status body /\ raises_for_status status = false /\
    Monitor.contains_result body = Ret true.

(** A service that answers every log query with a list of logs within the
    attempts of one [make_request], whatever the request number at which
    the query starts. *)
Definition answers_logs (net : Monitor.network) : Prop :=
  forall (a b : Z) (n : nat),
    exists (k : nat) (status : Z) (logs : list Monitor.LogEvent),
      (k < Z.to_nat Monitor.MAX_RETRIES)%nat /\
      (forall i, (i < k)%nat ->
         scan_failure (Monitor.getLogs net a b (n + i)) = true) /\
      Monitor.getLogs net a b (n + k)
      = Response status (Monitor.JsonObject (Some logs)) /\
      raises_for_status status = false.


(** Where the walk over [0, 30000] ends with [flaky_net] from a fresh
    world, and the world it leaves. *)
Definition flaky_walk_end : Monitor.walk_end :=
  Monitor.RangeDone (Monitor.mkScan 0 12500 [] [(25001, 30000)]).

Definition flaky_walk_world : world :=
  mkWorld 13 1700000099 [1; 2; 4; 8; 16; 10; 1; 2; 4; 8; 16; 20; 1; 2; 4]
          None WriteSucceeds.


(** A pending transaction of nonce 6 without calldata that has the one
    confirmation it needs, and the record the Safe API holds for it. *)
Definition plain_transfer_tx : Tx :=
  Fetch.annotate
    (mkFeedTx 6 false "2024-03-02T00:00:00Z" None
       (Some [mkConfirmation "0x69503B52764138e906C883eD6ef4Cac939eb998C"
                (Some "0x0102")])
       (Some 1)).


(** [st'] comes after [st] with every call of [execute_transaction] in
    between journalled, and all of them for the nonce [n]. *)
Definition grown (n : Z) (st st' : Engine.automation) : Prop :=
  exists added,
    Engine.journal st' = (Engine.journal st ++ added)%list /\
    (Engine.executions st + submissions added)%nat = Engine.executions st' /\
    forall k, Submit k ∈ added -> k = n.


(** Automation paused, nothing done yet; and a tick like [healthy_tick]
    whose probe raises the alert. *)
Definition halted : Engine.automation :=
  Engine.mkAutomation true 0 0 None [].

Definition alarmed_tick : surroundings :=
  mkSurroundings (Ret (true, "alert")) (fun text => [text])
    (Some (10 ^ 22)) (Ret [ready_tx]) (Ret "report")
    (fun _ => Some (feed ready_tx)) (fun _ => ExecReceipt true "0xbeef")
    (fun _ => None) None.


(** A deposit log of [10^23] wei (100000 tokens) in block 112 ([0x70]), a
    service with the head 123 that answers every log query with it, and
    the message of the check that reads it. *)
Definition whale_log : Monitor.LogEvent :=
  Monitor.mkLog (Some "0xfeed") (Monitor.BlockHex "0x70")
    ["0x73a19dd210f1a7f902193214c0ee91dd35ee5b4d920cba8d519eca65a7b488ca";
     "0x00000000000000000000000069503b52764138e906c883ed6ef4cac939eb998c"]
    (Some ("0x" ++ abi_word (10 ^ 23))).

Definition whale_net : Monitor.network :=
  Monitor.mkNetwork (fun _ _ => answer "90") (fun _ => answer "0x7b")
                    (fun _ _ _ => answer [whale_log]).

Definition whale_message : string :=
  Eval vm_compute in
    match
      (Monitor.check_large_deposits_with_block whale_net (Some 101)
         world_at_100).1
    with
    | Ret (_, message, _) => message
    | Raise _ => ""
    end.


(** [signed_tx] with its confirmations listed the other way round, and a
    transaction one of whose two signatures is not hexadecimal. *)
Definition signed_tx_reversed : FeedTx :=
  mkFeedTx 9 false "2024-03-01T00:00:00Z" None
    (Some [mkConfirmation "0x69503B52764138e906C883eD6ef4Cac939eb998C"
             (Some "0xff");
           mkConfirmation "0xB3B1B2d1C9745E98e93F21DC2e4D816DA8a2440c"
             (Some "0x0102")])
    (Some 2).

Definition garbled_confirmation : Confirmation :=
  mkConfirmation "0xB3B1B2d1C9745E98e93F21DC2e4D816DA8a2440c" (Some "0xzz").

Definition garbled_tx : FeedTx :=
  mkFeedTx 9 false "2024-03-01T00:00:00Z" None
    (Some [mkConfirmation "0x69503B52764138e906C883eD6ef4Cac939eb998C"
             (Some "0xff");
           garbled_confirmation])
    (Some 2).


(** A record of nonce 8 that calls [approve] (selector [095ea7b3]), with
    the one confirmation it needs, as [execute_transaction] gets it from
    the commands; and a node that accepts every call. *)
Definition approve_tail : string :=
  "5ea7b3" ++ abi_word 7 ++ abi_word (2500 * 10 ^ 18).

Definition approve_tx : Executor.SafeTransaction :=
  Executor.mkSafeTransaction
    (mkFeedTx 8 false "2024-03-03T00:00:00Z"
       (Some ("0x0" ++ String "9" approve_tail))
       (Some [mkConfirmation "0x69503B52764138e906C883eD6ef4Cac939eb998C"
                (Some "0x0102")])
       (Some 1))
    true true (Some (Ret 0)) (Ret 0) true.

Definition willing_node : Executor.node :=
  Executor.mkNode (fun _ _ _ => Ret "0xbeef") (fun _ => Some 1).


(** The record of [ready_tx] as the tick hands it to
    [execute_transaction]. *)
Definition transfer_tx : Executor.SafeTransaction :=
  Executor.mkSafeTransaction (feed ready_tx) true true (Some (Ret 0)) (Ret 0)
    true.





(** * Properties *)

(** ** The queue normalizer *)

Section normalizer_facts.
Import Normalizer.

Lemma keyed_insert (m : gmap Z Tx) (tx : Tx) : keyed m -> keyed (<[nonce tx := tx]> m).
Proof.
  intros Hm k tx' Hk.
  destruct (decide (nonce tx = k)) as [<-|Hne].
  - rewrite lookup_insert_eq in Hk. by inversion Hk.
  - rewrite lookup_insert_ne in Hk by done. by apply Hm.
Qed.

Lemma keyed_visit (m : gmap Z Tx) (tx : Tx) : keyed m -> keyed (visit m tx).
Proof.
  intros Hm. unfold visit.
  destruct (isExecuted tx); [by apply keyed_insert|].
  destruct (_ : option Tx); [|by apply keyed_insert].
  destruct (_ <? _)%string; [by apply keyed_insert|done].
Qed.

Lemma keyed_foldl (txs : list Tx) (m : gmap Z Tx) : keyed m -> keyed (foldl visit m txs).
Proof.
  revert m. induction txs as [|tx txs IH]; intros m Hm; simpl; [done|].
  apply IH, keyed_visit, Hm.
Qed.

Lemma keyed_latest (txs : list Tx) : keyed (latest_transactions txs).
Proof. apply keyed_foldl. intros k tx Hk. by rewrite lookup_empty in Hk. Qed.

Lemma insert_by_nonce_perm (x : Tx) (l : list Tx) : insert_by_nonce x l ≡ₚ x :: l.
Proof.
  induction l as [|y l IH]; simpl; [done|].
  destruct (_ <=? _); [done|]. by rewrite IH, Permutation_swap.
Qed.

Lemma sort_by_nonce_perm (l : list Tx) : sort_by_nonce l ≡ₚ l.
Proof.
  induction l as [|x l IH]; simpl; [done|].
  by rewrite insert_by_nonce_perm, IH.
Qed.

Lemma insert_by_nonce_sorted (x : Tx) (l : list Tx) :
  Sorted (fun a b : Tx => nonce a <= nonce b) l ->
  Sorted (fun a b : Tx => nonce a <= nonce b) (insert_by_nonce x l).
Proof.
  induction 1 as [|y l Hl IH Hhd]; simpl.
  - repeat constructor.
  - destruct (Z.leb_spec (nonce x) (nonce y)).
    + repeat constructor; [done|done|lia].
    + constructor; [done|].
      destruct Hhd as [|z l Hz]; simpl in *.
      * constructor. lia.
      * destruct (Z.leb_spec (nonce x) (nonce z)); constructor; lia.
Qed.

Lemma sort_by_nonce_sorted (l : list Tx) :
  Sorted (fun a b : Tx => nonce a <= nonce b) (sort_by_nonce l).
Proof.
  induction l as [|x l IH]; simpl; [constructor|].
  by apply insert_by_nonce_sorted.
Qed.

(** The values of a keyed dict carry pairwise distinct nonces. *)
Lemma keyed_values_NoDup (m : gmap Z Tx) :
  keyed m -> NoDup ((fun tx : Tx => nonce tx) <$> (map_to_list m).*2).
Proof.
  intros Hm.
  assert ((fun tx : Tx => nonce tx) <$> (map_to_list m).*2
          = (map_to_list m).*1) as ->.
  { rewrite <- list_fmap_compose. apply list_fmap_ext.
    intros i [k tx] Hin; simpl. apply Hm.
    apply elem_of_map_to_list, list_elem_of_lookup. eauto. }
  apply NoDup_fst_map_to_list.
Qed.

Lemma List_filter_sublist {A} (P : A -> bool) (l : list A) :
  List.filter P l `sublist_of` l.
Proof.
  induction l as [|x l IH]; simpl; [constructor|].
  destruct (P x); by constructor.
Qed.

(** The true half of the normalizer's invariant: at most one entry per
    nonce, whatever the input. *)
Lemma normalized_nonces_NoDup (txs : list Tx) :
  NoDup ((fun tx : Tx => nonce tx) <$> filter_and_sort_pending_transactions txs).
Proof.
  unfold filter_and_sort_pending_transactions; simpl.
  rewrite sort_by_nonce_perm.
  eapply sublist_NoDup; [apply keyed_values_NoDup, (keyed_latest txs)|].
  apply fmap_sublist, List_filter_sublist.
Qed.

(** The output is in ascending nonce order. *)
Lemma normalized_sorted (txs : list Tx) :
  Sorted (fun a b : Tx => nonce a <= nonce b)
         (filter_and_sort_pending_transactions txs).
Proof. apply sort_by_nonce_sorted. Qed.

End normalizer_facts.

(** C1 (evaluation at the failing input). The feed
    [[executed_5; pending_5]] has an executed record for nonce 5, yet the
    normalizer returns the pending record of that nonce: an executed
    record only removes the pending records seen before it, and a later
    pending record with a greater submission date takes its place. In the
    opposite order the nonce is dropped. *)
Theorem normalizer_keeps_pending_after_executed :
  isExecuted executed_5 = true /\
  nonce executed_5 = nonce pending_5 /\
  Normalizer.filter_and_sort_pending_transactions [executed_5; pending_5]
    = [pending_5] /\
  Normalizer.filter_and_sort_pending_transactions [pending_5; executed_5]
    = [].
Proof. repeat split; vm_compute; reflexivity. Qed.

(** ** The calldata decoder *)

Lemma drop_length_app (s t : string) : Py.drop (String.length s) (s ++ t) = t.
Proof. induction s as [|c s IH]; simpl; [reflexivity|exact IH]. Qed.

Lemma startswith_app (p s : string) : Py.startswith (p ++ s) p = true.
Proof.
  induction p as [|c p IH]; simpl; [reflexivity|].
  by rewrite Ascii.eqb_refl, IH.
Qed.

(** C8 (counterexample). On the calldata of the claim the decoder does not
    return the payload with the number [2500.0] under [amountInTokens]. *)
Lemma decode_amount_is_not_a_float :
  Decoder.decode_hex_data (stake_calldata "a9059cbb")
  <> Some {| Decoder.validatorId := VStr "7";
             Decoder.amountInTokens := VFloat (PyFloat.of_Z 2500) |}.
Proof. vm_compute. discriminate. Qed.

(** C8 (amended). For calldata made of [0x], any selector of eight
    characters and the two words [validatorId = 7] and
    [amount = 2500 * 10^18], [decode_hex_data] returns the payload whose
    [validatorId] is the string ["7"] and whose [amountInTokens] is the
    string ["2500.0"], the text of the float [2500.0]. *)
Theorem decode_stake_calldata (selector : string) :
  String.length selector = 8%nat ->
  Decoder.decode_hex_data (stake_calldata selector)
  = Some {| Decoder.validatorId := VStr "7";
            Decoder.amountInTokens := VStr "2500.0" |}.
Proof.
  intros Hlen. unfold Decoder.decode_hex_data, stake_calldata.
  rewrite startswith_app.
  rewrite (drop_length_app "0x").
  rewrite <- Hlen, drop_length_app.
  vm_compute. reflexivity.
Qed.

Lemma decode_stake_calldata_witness :
  String.length "a9059cbb" = 8%nat /\
  Decoder.decode_hex_data (stake_calldata "a9059cbb")
  = Some {| Decoder.validatorId := VStr "7";
            Decoder.amountInTokens := VStr "2500.0" |}.
Proof.
  split; [reflexivity|].
  apply (decode_stake_calldata "a9059cbb"). reflexivity.
Defined.

(** ** Signature aggregation *)

Section signature_facts.
Import Signatures.

Lemma string_compare_trans (a b c : string) :
  String.compare a b <> Gt -> String.compare b c <> Gt ->
  String.compare a c <> Gt.
Proof.
  revert b c. induction a as [|x a IH]; intros [|y b] [|z c]; simpl;
    try congruence.
  unfold Ascii.compare.
  destruct (N.compare_spec (N_of_ascii x) (N_of_ascii y)),
           (N.compare_spec (N_of_ascii y) (N_of_ascii z)),
           (N.compare_spec (N_of_ascii x) (N_of_ascii z));
    try lia; try congruence.
  apply IH.
Qed.

Lemma string_leb_trans (a b c : string) :
  String.leb a b = true -> String.leb b c = true -> String.leb a c = true.
Proof.
  unfold String.leb. intros Hab Hbc.
  pose proof (string_compare_trans a b c) as H.
  destruct (String.compare a b), (String.compare b c), (String.compare a c);
    try done; exfalso; apply H; congruence.
Qed.

#[local] Instance owner_le_trans : Transitive owner_le.
Proof. intros a b c. apply string_leb_trans. Qed.

Lemma insert_by_owner_perm x l : insert_by_owner x l ≡ₚ x :: l.
Proof.
  induction l as [|y l IH]; simpl; [done|].
  destruct (String.leb _ _); [done|]. by rewrite IH, Permutation_swap.
Qed.

Lemma sorted_by_owner_perm l : sorted_by_owner l ≡ₚ l.
Proof.
  induction l as [|x l IH]; simpl; [done|].
  by rewrite insert_by_owner_perm, IH.
Qed.

Lemma insert_by_owner_sorted x l :
  Sorted owner_le l -> Sorted owner_le (insert_by_owner x l).
Proof.
  induction 1 as [|y l Hl IH Hhd]; simpl.
  - repeat constructor.
  - destruct (String.leb (sort_key x) (sort_key y)) eqn:Hxy.
    + by repeat constructor.
    + assert (owner_le y x) as Hyx.
      { destruct (String.leb_total (sort_key x) (sort_key y));
          [congruence|done]. }
      constructor; [done|].
      destruct Hhd as [|z l Hz]; simpl; [by constructor|].
      destruct (String.leb (sort_key x) (sort_key z)); by constructor.
Qed.

Lemma sorted_by_owner_sorted l : StronglySorted owner_le (sorted_by_owner l).
Proof.
  apply Sorted_StronglySorted; [apply owner_le_trans|].
  induction l as [|x l IH]; simpl; [constructor|].
  by apply insert_by_owner_sorted.
Qed.

Lemma append_signature_bytes acc c :
  is_Some (raw_signature c) ->
  append_signature acc c = Ret (acc ++ signature_bytes c)%list.
Proof.
  unfold append_signature, signature_bytes, raw_signature.
  destruct (signature c) as [[|a s]|]; simpl.
  - intros _. by rewrite app_nil_r.
  - intros [bs ->]. done.
  - intros _. by rewrite app_nil_r.
Qed.

Lemma append_signatures_bytes l acc :
  Forall (fun c => is_Some (raw_signature c)) l ->
  append_signatures acc l
  = Ret (acc ++ concat (signature_bytes <$> l))%list.
Proof.
  intros Hl. revert acc.
  induction Hl as [|c l Hc Hl IH]; intros acc; simpl.
  - by rewrite app_nil_r.
  - rewrite append_signature_bytes by done. simpl.
    rewrite IH. by rewrite <- app_assoc.
Qed.

Lemma insert_by_owner_filter k x l :
  filter (fun c => sort_key c = k) (insert_by_owner x l)
  = filter (fun c => sort_key c = k) (x :: l).
Proof.
  induction l as [|y l IH]; simpl; [done|].
  destruct (String.leb (sort_key x) (sort_key y)) eqn:Hxy; [done|].
  rewrite (filter_cons _ y), IH, !filter_cons.
  repeat case_decide; try done.
  exfalso. destruct (String.leb_total (sort_key x) (sort_key y)); congruence.
Qed.

(** The sort is stable: confirmations of one key keep their order. *)
Lemma sorted_by_owner_filter k l :
  filter (fun c => sort_key c = k) (sorted_by_owner l)
  = filter (fun c => sort_key c = k) l.
Proof.
  induction l as [|x l IH]; simpl; [done|].
  by rewrite insert_by_owner_filter, !filter_cons, IH.
Qed.

Lemma concat_signature_bytes_nil (l : list Confirmation) :
  (forall c, c ∈ l -> signature_bytes c = []) ->
  concat (signature_bytes <$> l) = [].
Proof.
  induction l as [|c l IH]; intros Hall; simpl; [done|].
  rewrite (Hall c) by apply list_elem_of_here. simpl.
  apply IH. intros d Hd. apply Hall. by apply list_elem_of_further.
Qed.

Lemma concat_signature_bytes_cons (l : list Confirmation) c :
  c ∈ l -> signature_bytes c <> [] -> concat (signature_bytes <$> l) <> [].
Proof.
  intros Hin Hbytes Hcat.
  induction Hin as [c l|c d l Hin IH]; simpl in Hcat;
    apply app_eq_nil in Hcat as [? ?]; auto.
Qed.

End signature_facts.

(** C9 (counterexample). A transaction with a non-empty confirmations list
    for which [collect_and_sort_signatures] returns [None], not bytes:
    its only confirmation has no signature. *)
Lemma collect_without_signature_bytes :
  confirmations unsigned_tx <> Some [] /\
  confirmations unsigned_tx <> None /\
  Signatures.collect_and_sort_signatures unsigned_tx = Ret None.
Proof. repeat split; vm_compute; congruence. Qed.

(** C9 (amended). For every transaction whose confirmations carry
    well-formed signatures (missing, empty, or two characters followed by
    hex text), take the confirmations in ascending order of the
    lower-cased owner address, those of one address in the order of the
    feed. A confirmation without signature contributes no byte. When some
    confirmation contributes a byte, [collect_and_sort_signatures]
    returns exactly the concatenation, without separators, of the
    signature bytes in that order; when none does, it returns [None]. *)
Theorem collect_concatenates_in_owner_order (tx : FeedTx)
    (confs : list Confirmation) :
  confirmations tx = Some confs ->
  Forall (fun c => is_Some (raw_signature c)) confs ->
  exists ordered,
    ordered ≡ₚ confs /\
    StronglySorted owner_le ordered /\
    (forall address,
       filter (fun c => Py.lower (owner c) = address) ordered
       = filter (fun c => Py.lower (owner c) = address) confs) /\
    (forall c, c ∈ confs -> signature c = None -> signature_bytes c = []) /\
    ((exists c, c ∈ confs /\ signature_bytes c <> []) ->
     Signatures.collect_and_sort_signatures tx
     = Ret (Some (concat (signature_bytes <$> ordered)))) /\
    ((forall c, c ∈ confs -> signature_bytes c = []) ->
     Signatures.collect_and_sort_signatures tx = Ret None).
Proof.
  intros Hconfs Hwf.
  exists (Signatures.sorted_by_owner confs).
  assert (Forall (fun c => is_Some (raw_signature c))
            (Signatures.sorted_by_owner confs)) as Hwf'
    by (by rewrite sorted_by_owner_perm).
  split_and!.
  - apply sorted_by_owner_perm.
  - apply sorted_by_owner_sorted.
  - intros address. apply sorted_by_owner_filter.
  - intros c _ Hnone. unfold signature_bytes, raw_signature.
    by rewrite Hnone.
  - intros (c & Hc & Hbytes).
    unfold Signatures.collect_and_sort_signatures. rewrite Hconfs.
    destruct confs as [|c0 confs0] eqn:E; [by apply elem_of_nil in Hc|].
    rewrite <- E in *. clear E c0 confs0.
    rewrite append_signatures_bytes by done. simpl.
    destruct (concat _) as [|b bs] eqn:Hcat; [|done].
    exfalso. revert Hcat. apply (concat_signature_bytes_cons _ c); [|done].
    by rewrite sorted_by_owner_perm.
  - intros Hnone.
    unfold Signatures.collect_and_sort_signatures. rewrite Hconfs.
    destruct confs as [|c0 confs0] eqn:E; [done|].
    rewrite <- E in *. clear E c0 confs0.
    rewrite append_signatures_bytes by done. simpl.
    rewrite concat_signature_bytes_nil; [done|].
    intros c Hc. apply Hnone. by rewrite <- sorted_by_owner_perm.
Qed.

Lemma collect_concatenates_in_owner_order_witness :
  (exists ordered,
     ordered ≡ₚ default [] (confirmations signed_tx) /\
     StronglySorted owner_le ordered /\
     Signatures.collect_and_sort_signatures signed_tx
     = Ret (Some (concat (signature_bytes <$> ordered)))) /\
  Signatures.collect_and_sort_signatures unsigned_tx = Ret None.
Proof.
  split.
  - destruct (collect_concatenates_in_owner_order signed_tx
                (default [] (confirmations signed_tx)))
      as (ordered & Hperm & Hsorted & _ & _ & Hbytes & _).
    + reflexivity.
    + repeat constructor; vm_compute; eauto.
    + exists ordered. split_and!; [done|done|].
      apply Hbytes. eexists. split; [apply list_elem_of_here|].
      vm_compute. discriminate.
  - destruct (collect_concatenates_in_owner_order unsigned_tx
                (default [] (confirmations unsigned_tx)))
      as (ordered & _ & _ & _ & _ & _ & Hnone).
    + reflexivity.
    + repeat constructor; vm_compute; eauto.
    + apply Hnone. intros c Hc.
      repeat (apply elem_of_cons in Hc as [->|Hc]); try reflexivity.
      by apply elem_of_nil in Hc.
Defined.

(** ** The feed client *)

Ltac unfold_io :=
  unfold mbind, mret, M_bind, M_ret, get, sleep, throw, lift, time,
    Monitor.run in *;
  simpl in *.

Section fetch_facts.
Import Fetch.
Variable url : nat -> reply feed_body.

(** A fetch that returns a list, returns the empty list after as many
    failed attempts as it may make, or the annotated records of the first
    reply that is not a failure. *)
Lemma attempts_from_served remaining attempt delay w txs w' :
  attempts_from url remaining attempt delay w = (Ret txs, w') ->
  (txs = [] /\
   forall k, (requests_sent w <= k < requests_sent w + remaining)%nat ->
     feed_failure (url k) = true) \/
  exists k status results,
    (requests_sent w <= k < requests_sent w + remaining)%nat /\
    requests_sent w' = S k /\
    (forall j, (requests_sent w <= j < k)%nat -> feed_failure (url j) = true) /\
    url k = Response status (FeedObject results) /\
    raises_for_status status = false /\
    txs = annotate <$> default [] results.
Proof.
  revert attempt delay w.
  induction remaining as [|n IH]; intros attempt delay w; simpl.
  - unfold_io. intros [= <- <-]. left. split; [done|]. intros k Hk. lia.
  - unfold_io.
    set (w1 := mkWorld (S (requests_sent w)) _ _ _ _).
    assert (feed_failure (url (requests_sent w)) = true ->
      forall a d w0, requests_sent w0 = S (requests_sent w) ->
      attempts_from url n a d w0 = (Ret txs, w') ->
      (txs = [] /\
       forall k, (requests_sent w <= k < requests_sent w + S n)%nat ->
         feed_failure (url k) = true) \/
      exists k status results,
        (requests_sent w <= k < requests_sent w + S n)%nat /\
        requests_sent w' = S k /\
        (forall j, (requests_sent w <= j < k)%nat ->
           feed_failure (url j) = true) /\
        url k = Response status (FeedObject results) /\
        raises_for_status status = false /\
        txs = annotate <$> default [] results) as Hnext.
    { intros Hfail a d w0 Hw0 Hrun.
      apply IH in Hrun
        as [[-> Hall]
           |(k & status & results & Hk & Hw' & Hbefore & Hreply & Hok & ->)].
      - left. split; [done|]. intros k Hk.
        destruct (decide (k = requests_sent w)) as [->|]; [done|].
        apply Hall. lia.
      - right. exists k, status, results.
        split; [lia|]. split_and!; [done| |done|done|done].
        intros j Hj.
        destruct (decide (j = requests_sent w)) as [->|]; [done|].
        apply Hbefore. lia. }
    unfold feed_failure in Hnext.
    destruct (url (requests_sent w)) as [| |status body] eqn:Hreply.
    1,2: destruct (attempt <? _); unfold_io; intros Hrun;
      (eapply Hnext; [done| |exact Hrun]; done).
    destruct (raises_for_status status) eqn:Hstatus.
    { destruct (attempt <? _); unfold_io; intros Hrun;
        (eapply Hnext; [done| |exact Hrun]; done). }
    destruct body as [|results|].
    + destruct (attempt <? _); unfold_io; intros Hrun;
        (eapply Hnext; [done| |exact Hrun]; done).
    + intros [= <- <-]. right. exists (requests_sent w), status, results.
      subst w1. simpl. split; [lia|]. split_and!; try done.
      intros j Hj. lia.
    + discriminate.
Qed.

End fetch_facts.

(** C10. A successful [fetch_recent_transactions] that finds every
    attempt failed returns the empty list. Otherwise it returns, in the
    order of the feed, one transaction for each record under ["results"]
    of the first reply that is no failure (none when the key is absent):
    the record itself, with [signature_count] the length of its
    confirmations list (0 when the key is absent) and
    [confirmations_required] its [confirmationsRequired], or 0 when that
    key is absent; so a record without [confirmationsRequired] passes the
    signature check [signature_count < confirmations_required] of the
    execution gate whatever its number of signatures, zero included. *)
Theorem fetched_signature_counts (url : nat -> reply Fetch.feed_body)
    (configured : bool) (w w' : world) (txs : list Tx) :
  Fetch.fetch_recent_transactions url configured w = (Ret txs, w') ->
  (txs = [] /\
   forall k, (requests_sent w <= k < requests_sent w + 4)%nat ->
     feed_failure (url k) = true) \/
  exists k status results,
    (requests_sent w <= k < requests_sent w + 4)%nat /\
    requests_sent w' = S k /\
    (forall j, (requests_sent w <= j < k)%nat -> feed_failure (url j) = true) /\
    url k = Response status (Fetch.FeedObject results) /\
    raises_for_status status = false /\
    Forall2
      (fun (record : FeedTx) (tx : Tx) =>
         feed tx = record /\
         signature_count tx
         = Z.of_nat (length (default [] (confirmations record))) /\
         confirmations_required tx
         = default 0 (confirmationsRequired record) /\
         (confirmationsRequired record = None ->
          (signature_count tx <? confirmations_required tx) = false))
      (default [] results) txs.
Proof.
  unfold Fetch.fetch_recent_transactions.
  destruct configured; cbn [negb]; [|unfold throw; discriminate].
  intros Hfetch.
  apply attempts_from_served in Hfetch
    as [Hempty
       |(k & status & results & Hk & Hw' & Hbefore & Hreply & Hok & ->)].
  - left. exact Hempty.
  - right. exists k, status, results.
    split; [exact Hk|]. split_and!; [done|done|done|done|].
    induction (default [] results) as [|record records IH]; simpl;
      constructor; [|exact IH].
    split_and!; [done|done|done|].
    intros Hnone. simpl. rewrite Hnone. simpl. apply Z.ltb_ge. lia.
Qed.

Lemma fetched_signature_counts_witness :
  exists k status results,
    (0 <= k < 4)%nat /\
    mixed_feed k = Response status (Fetch.FeedObject results) /\
    Forall2
      (fun (record : FeedTx) (tx : Tx) =>
         feed tx = record /\
         signature_count tx
         = Z.of_nat (length (default [] (confirmations record))) /\
         confirmations_required tx
         = default 0 (confirmationsRequired record) /\
         (confirmationsRequired record = None ->
          (signature_count tx <? confirmations_required tx) = false))
      (default [] results)
      [Fetch.annotate signed_tx; Fetch.annotate bare_tx] /\
    signature_count <$> [Fetch.annotate signed_tx; Fetch.annotate bare_tx]
    = [2; 0] /\
    confirmations_required
      <$> [Fetch.annotate signed_tx; Fetch.annotate bare_tx]
    = [2; 0].
Proof.
  destruct (fetched_signature_counts mixed_feed true fresh_world
              (mkWorld 2 1700000001 [1] None WriteSucceeds)
              [Fetch.annotate signed_tx; Fetch.annotate bare_tx])
    as [[Hempty _]
       |(k & status & results & Hk & _ & _ & Hreply & _ & Hall)].
  - reflexivity.
  - discriminate.
  - exists k, status, results.
    split; [exact Hk|]. split_and!; [done|done|done|done].
Defined.

(** ** The resilient request executor *)

Section make_request_facts.
Import Monitor.
Context {R : Type}.
Variable url : nat -> reply (scan_body R).

(** What any run of the retry loop does to the world: [n] requests, one
    sleep before each, the delay doubling; the checkpoint file is not
    touched. *)
Lemma make_request_from_trace remaining delay w r w' :
  make_request_from url remaining delay w = (r, w') ->
  exists n, (n <= remaining)%nat /\
    requests_sent w' = (requests_sent w + n)%nat /\
    slept w' = (slept w ++ doubling n delay)%list /\
    stored_block w' = stored_block w /\
    writable w' = writable w.
Proof.
  revert delay w r w'.
  induction remaining as [|m IH]; intros delay w r w'; simpl.
  - unfold_io. intros [= <- <-]. exists 0%nat.
    rewrite app_nil_r. repeat split; lia.
  - unfold_io.
    set (w1 := mkWorld (S (requests_sent w)) _ _ _ _).
    assert (forall r w',
      make_request_from url m (delay * 2) w1 = (r, w') ->
      exists n, (n <= S m)%nat /\
        requests_sent w' = (requests_sent w + n)%nat /\
        slept w' = (slept w ++ doubling n delay)%list /\
        stored_block w' = stored_block w /\
        writable w' = writable w) as Hnext.
    { intros r0 w0 Hrun. apply IH in Hrun as (n & Hn & Hreq & Hsl & Hst & Hwr).
      exists (S n). subst w1; simpl in *.
      rewrite Hreq, Hsl, Hst, Hwr, <- app_assoc.
      repeat split; [lia|lia]. }
    assert (exists n, (n <= S m)%nat /\
        requests_sent w1 = (requests_sent w + n)%nat /\
        slept w1 = (slept w ++ doubling n delay)%list /\
        stored_block w1 = stored_block w /\
        writable w1 = writable w) as Hstop.
    { exists 1%nat. subst w1; simpl. repeat split; lia. }
    destruct (url (requests_sent w)) as [| |status body];
      [exact (Hnext r w')..|].
    destruct (raises_for_status status); [exact (Hnext r w')|].
    destruct body as [|[res|]|[]|s|]; simpl; try exact (Hnext r w').
    + intros [= <- <-]. exact Hstop.
    + intros [= <- <-]. exact Hstop.
    + destruct (occurs_in "result" s); [|exact (Hnext r w')].
      intros [= <- <-]. exact Hstop.
    + intros [= <- <-]. exact Hstop.
Qed.

(** When every attempt fails, the loop runs to its end and returns
    [None]. *)
Lemma make_request_from_exhausted remaining delay w :
  (forall k, (k < remaining)%nat ->
     scan_failure (url (requests_sent w + k)) = true) ->
  exists w',
    make_request_from url remaining delay w = (Ret None, w') /\
    requests_sent w' = (requests_sent w + remaining)%nat /\
    slept w' = (slept w ++ doubling remaining delay)%list.
Proof.
  revert delay w.
  induction remaining as [|m IH]; intros delay w Hfail; simpl.
  - unfold_io. eexists. split; [reflexivity|].
    rewrite app_nil_r. split; [lia|done].
  - unfold_io.
    set (w1 := mkWorld (S (requests_sent w)) _ _ _ _).
    destruct (IH (delay * 2) w1) as (w' & Hrun & Hreq & Hsl).
    { intros k Hk. subst w1; simpl. rewrite <- Nat.add_succ_r.
      apply Hfail. lia. }
    exists w'. subst w1; simpl in *.
    rewrite Hreq, Hsl, <- app_assoc. split; [|split; [lia|done]].
    specialize (Hfail 0%nat ltac:(lia)).
    rewrite Nat.add_0_r in Hfail.
    destruct (url (requests_sent w)) as [| |status body]; [done..|].
    simpl in Hfail.
    destruct (raises_for_status status); [done|].
    destruct body as [|[res|]|[]|s|]; simpl in *; try done.
    by destruct (occurs_in "result" s).
Qed.

End make_request_facts.

Section fetch_retry_facts.
Import Fetch.
Variable url : nat -> reply feed_body.

(** What any run of the feed client's loop does to the world: [n]
    requests with a sleep between two of them, the delay doubling. *)
Lemma attempts_from_trace remaining attempt delay w r w' :
  attempt = MAX_RETRIES - Z.of_nat remaining ->
  attempts_from url remaining attempt delay w = (r, w') ->
  exists n, (n <= remaining)%nat /\ (1 <= remaining -> 1 <= n)%nat /\
    requests_sent w' = (requests_sent w + n)%nat /\
    slept w' = (slept w ++ doubling (n - 1) delay)%list.
Proof.
  revert attempt delay w r w'.
  induction remaining as [|m IH]; intros attempt delay w r w' Hatt; simpl.
  - unfold_io. intros [= <- <-]. exists 0%nat.
    rewrite app_nil_r. repeat split; lia.
  - unfold_io.
    set (w1 := mkWorld (S (requests_sent w)) _ _ _ _).
    assert (forall r w',
      (if attempt <? MAX_RETRIES - 1
       then fun w => attempts_from url m (attempt + 1) (delay * BACKOFF_FACTOR)
                       (mkWorld (requests_sent w) (unix_time w + delay)
                          (slept w ++ [delay]) (stored_block w) (writable w))
       else attempts_from url m (attempt + 1) delay) w1 = (r, w') ->
      exists n, (n <= S m)%nat /\ (1 <= S m -> 1 <= n)%nat /\
        requests_sent w' = (requests_sent w + n)%nat /\
        slept w' = (slept w ++ doubling (n - 1) delay)%list) as Hnext.
    { intros r0 w0.
      destruct (Z.ltb_spec attempt (MAX_RETRIES - 1)) as [Hlt|Hge].
      - intros Hrun. apply IH in Hrun as (n & Hn & Hpos & Hreq & Hsl); [|lia].
        exists (S n). subst w1; simpl in *.
        rewrite Hreq, Hsl, <- app_assoc, Nat.sub_0_r.
        specialize (Hpos ltac:(unfold MAX_RETRIES in *; lia)).
        destruct n as [|n]; [lia|]. simpl. rewrite Nat.sub_0_r.
        repeat split; lia.
      - destruct m as [|m]; [|unfold MAX_RETRIES in *; lia].
        simpl. unfold_io. intros [= <- <-]. exists 1%nat.
        subst w1; simpl. rewrite app_nil_r. repeat split; lia. }
    assert (exists n, (n <= S m)%nat /\ (1 <= S m -> 1 <= n)%nat /\
        requests_sent w1 = (requests_sent w + n)%nat /\
        slept w1 = (slept w ++ doubling (n - 1) delay)%list) as Hstop.
    { exists 1%nat. subst w1; simpl. rewrite app_nil_r. repeat split; lia. }
    destruct (url (requests_sent w)) as [| |status body].
    1,2: destruct (attempt <? _); unfold_io; apply Hnext.
    destruct (raises_for_status status).
    { destruct (attempt <? _); unfold_io; apply Hnext. }
    destruct body as [|results|].
    + destruct (attempt <? _); unfold_io; apply Hnext.
    + intros [= <- <-]. apply Hstop.
    + intros [= <- <-]. apply Hstop.
Qed.

(** When every attempt fails, the client returns the empty list. *)
Lemma attempts_from_exhausted remaining attempt delay w :
  attempt = MAX_RETRIES - Z.of_nat remaining ->
  (forall k, (k < remaining)%nat ->
     feed_failure (url (requests_sent w + k)) = true) ->
  exists w',
    attempts_from url remaining attempt delay w = (Ret [], w') /\
    requests_sent w' = (requests_sent w + remaining)%nat /\
    slept w' = (slept w ++ doubling (remaining - 1) delay)%list.
Proof.
  revert attempt delay w.
  induction remaining as [|m IH]; intros attempt delay w Hatt Hfail; simpl.
  - unfold_io. eexists. split; [reflexivity|].
    rewrite app_nil_r. split; [lia|done].
  - unfold_io.
    set (w1 := mkWorld (S (requests_sent w)) _ _ _ _).
    assert (exists w',
      (if attempt <? MAX_RETRIES - 1
       then fun w => attempts_from url m (attempt + 1) (delay * BACKOFF_FACTOR)
                       (mkWorld (requests_sent w) (unix_time w + delay)
                          (slept w ++ [delay]) (stored_block w) (writable w))
       else attempts_from url m (attempt + 1) delay) w1 = (Ret [], w') /\
      requests_sent w' = (requests_sent w + S m)%nat /\
      slept w' = (slept w ++ doubling (m - 0) delay)%list) as (w' & Hrun & Hw').
    { assert (forall k, (k < m)%nat ->
                feed_failure (url (S (requests_sent w) + k)) = true) as Hf.
      { intros k Hk.
        replace (S (requests_sent w) + k)%nat
          with (requests_sent w + S k)%nat by lia.
        apply Hfail. lia. }
      destruct (Z.ltb_spec attempt (MAX_RETRIES - 1)) as [Hlt|Hge].
      - edestruct (IH (attempt + 1) (delay * BACKOFF_FACTOR)
                     (mkWorld (requests_sent w1) (unix_time w1 + delay)
                        (slept w1 ++ [delay]) (stored_block w1) (writable w1)))
          as (w' & Hrun & Hreq & Hsl); [lia|exact Hf|].
        exists w'. split; [exact Hrun|]. subst w1; simpl in *.
        rewrite Hreq, Hsl, <- app_assoc, Nat.sub_0_r.
        destruct m as [|m]; [unfold MAX_RETRIES in *; lia|].
        simpl. rewrite Nat.sub_0_r. split; [lia|done].
      - destruct m as [|m]; [|unfold MAX_RETRIES in *; lia].
        simpl. unfold_io. eexists. split; [reflexivity|].
        subst w1; simpl. rewrite app_nil_r. split; [lia|done]. }
    exists w'. split; [|exact Hw'].
    specialize (Hfail 0%nat ltac:(lia)).
    rewrite Nat.add_0_r in Hfail.
    destruct (url (requests_sent w)) as [| |status body].
    1,2: destruct (attempt <? _); unfold_io; apply Hrun.
    simpl in Hfail.
    destruct (raises_for_status status).
    { destruct (attempt <? _); unfold_io; apply Hrun. }
    destruct body as [|results|]; done.
Qed.

End fetch_retry_facts.

(** C7 (counterexample). A scanning endpoint that answers [200] with a
    JSON number makes [make_request] raise [TypeError] to its caller
    instead of counting a failed attempt, and the feed client raises
    [ValueError] when its configuration is missing. *)
Lemma executor_raises_to_caller :
  (Monitor.make_request scalar_endpoint fresh_world).1 = Raise TypeError /\
  (Fetch.fetch_recent_transactions dead_feed false fresh_world).1
  = Raise ValueError.
Proof. split; vm_compute; reflexivity. Qed.

(** C7 (amended). [make_request] sends at most 5 requests and sleeps
    before each, 1, 2, 4, 8 and 16 seconds; a configured
    [fetch_recent_transactions] sends at most 4 and sleeps between them, 1,
    2 and 4 seconds. A transport error, a 4xx or 5xx status and a body
    that is not JSON are failed attempts for both, and so is, for
    [make_request], JSON without ["result"] in it; when every attempt
    fails in one of these ways [make_request] returns [None] and the feed
    client the empty list. The feed client raises [ValueError] before any
    request when [SAFE_ADDRESS] or [BASE_URL] is unset, and takes a JSON
    object without ["results"] as an empty answer, without a retry. *)
Theorem bounded_retries_with_backoff :
  (forall R (url : nat -> reply (Monitor.scan_body R)) w,
     exists n, (n <= 5)%nat /\
       requests_sent (Monitor.make_request url w).2
       = (requests_sent w + n)%nat /\
       slept (Monitor.make_request url w).2
       = (slept w ++ take n [1; 2; 4; 8; 16])%list) /\
  (forall R (url : nat -> reply (Monitor.scan_body R)) w,
     (forall k, (k < 5)%nat ->
        scan_failure (url (requests_sent w + k)%nat) = true) ->
     (Monitor.make_request url w).1 = Ret None /\
     requests_sent (Monitor.make_request url w).2 = (requests_sent w + 5)%nat /\
     slept (Monitor.make_request url w).2
     = (slept w ++ [1; 2; 4; 8; 16])%list) /\
  (forall url w,
     exists n, (n <= 4)%nat /\
       requests_sent (Fetch.fetch_recent_transactions url true w).2
       = (requests_sent w + n)%nat /\
       slept (Fetch.fetch_recent_transactions url true w).2
       = (slept w ++ take (n - 1) [1; 2; 4])%list) /\
  (forall url w,
     (forall k, (k < 4)%nat ->
        feed_failure (url (requests_sent w + k)%nat) = true) ->
     (Fetch.fetch_recent_transactions url true w).1 = Ret [] /\
     requests_sent (Fetch.fetch_recent_transactions url true w).2
     = (requests_sent w + 4)%nat /\
     slept (Fetch.fetch_recent_transactions url true w).2
     = (slept w ++ [1; 2; 4])%list) /\
  (forall url w,
     Fetch.fetch_recent_transactions url false w = (Raise ValueError, w)) /\
  (forall url w status,
     url (requests_sent w) = Response status (Fetch.FeedObject None) ->
     raises_for_status status = false ->
     (Fetch.fetch_recent_transactions url true w).1 = Ret [] /\
     requests_sent (Fetch.fetch_recent_transactions url true w).2
     = S (requests_sent w)).
Proof.
  repeat apply conj.
  - intros R url w. unfold Monitor.make_request.
    destruct (Monitor.make_request_from url _ _ w) as [r w'] eqn:Hrun.
    apply make_request_from_trace in Hrun as (n & Hn & Hreq & Hsl & _).
    change (Z.to_nat Monitor.MAX_RETRIES) with 5%nat in Hn.
    exists n. simpl in *. rewrite Hreq, Hsl. repeat split; [done|].
    do 6 (destruct n as [|n]; [reflexivity|]). lia.
  - intros R url w Hfail. unfold Monitor.make_request.
    destruct (make_request_from_exhausted url
                (Z.to_nat Monitor.MAX_RETRIES) Monitor.INITIAL_DELAY w Hfail)
      as (w' & -> & Hreq & Hsl).
    simpl. by rewrite Hreq, Hsl.
  - intros url w. unfold Fetch.fetch_recent_transactions. cbn [negb].
    destruct (Fetch.attempts_from url _ _ _ w) as [r w'] eqn:Hrun.
    apply attempts_from_trace in Hrun as (n & Hn & _ & Hreq & Hsl);
      [|reflexivity].
    change (Z.to_nat Fetch.MAX_RETRIES) with 4%nat in Hn.
    exists n. simpl in *. rewrite Hreq, Hsl. repeat split; [done|].
    do 5 (destruct n as [|n]; [reflexivity|]). lia.
  - intros url w Hfail. unfold Fetch.fetch_recent_transactions. cbn [negb].
    destruct (attempts_from_exhausted url
                (Z.to_nat Fetch.MAX_RETRIES) 0 1 w eq_refl Hfail)
      as (w' & -> & Hreq & Hsl).
    simpl. by rewrite Hreq, Hsl.
  - reflexivity.
  - intros url w status Hreply Hok.
    unfold Fetch.fetch_recent_transactions. cbn [negb].
    change (Z.to_nat Fetch.MAX_RETRIES) with 4%nat.
    cbn [Fetch.attempts_from]. unfold_io.
    by rewrite Hreply, Hok.
Qed.

Lemma bounded_retries_with_backoff_witness :
  ((Monitor.make_request silent_endpoint fresh_world).1 = Ret None /\
   requests_sent (Monitor.make_request silent_endpoint fresh_world).2 = 5%nat /\
   slept (Monitor.make_request silent_endpoint fresh_world).2
   = [1; 2; 4; 8; 16]) /\
  ((Fetch.fetch_recent_transactions dead_feed true fresh_world).1 = Ret [] /\
   requests_sent (Fetch.fetch_recent_transactions dead_feed true fresh_world).2
   = 4%nat /\
   slept (Fetch.fetch_recent_transactions dead_feed true fresh_world).2
   = [1; 2; 4]).
Proof.
  destruct bounded_retries_with_backoff as (_ & Hscan & _ & Hfeed & _).
  split.
  - apply (Hscan string silent_endpoint fresh_world). reflexivity.
  - apply (Hfeed dead_feed fresh_world). reflexivity.
Defined.

(** ** The chunked historical scan *)

Section scan_facts.
Import Monitor.
Variable net : network.

Lemma bind_inv {A B} (m : M A) (k : A -> M B) w r w' :
  (m ≫= k) w = (Ret r, w') ->
  exists a w1, m w = (Ret a, w1) /\ k a w1 = (Ret r, w').
Proof.
  unfold mbind, M_bind. destruct (m w) as [[a|e] w1]; [eauto|discriminate].
Qed.

(** The inner loop never lowers the chunk size below the floor, and never
    raises it. *)
Lemma query_chunk_floor remaining a b st w st' w' :
  MIN_BLOCK_CHUNK <= chunk_size st ->
  query_chunk net remaining a b st w = (Ret st', w') ->
  MIN_BLOCK_CHUNK <= chunk_size st' <= chunk_size st.
Proof.
  revert st w. induction remaining as [|m IH]; intros st w Hmin; simpl.
  - unfold_io. intros [= <- <-]. lia.
  - intros (resp & w1 & _ & Hrest)%bind_inv.
    apply bind_inv in Hrest as (ok & w2 & _ & Hrest).
    destruct ok.
    + apply bind_inv in Hrest as (logs & w3 & _ & Hrest).
      unfold_io. injection Hrest as <- <-. simpl. lia.
    + apply bind_inv in Hrest as ([] & w3 & _ & Hrest).
      apply IH in Hrest; simpl in *;
        destruct (_ && _); unfold MIN_BLOCK_CHUNK in *.
      all: assert (chunk_size st / 2 <= chunk_size st)
             by (apply Z.div_le_upper_bound; lia).
      all: lia.
Qed.

(** The outer loop ends within one iteration per block of the range. *)
Lemma walk_chunks_ends budget latest start st w e w' :
  MIN_BLOCK_CHUNK <= chunk_size st ->
  latest - start + 1 <= Z.of_nat budget ->
  walk_chunks net budget latest start st w = (Ret e, w') ->
  e <> BudgetSpent.
Proof.
  revert start st w.
  induction budget as [|n IH]; intros start st w Hmin Hbudget;
    cbn [walk_chunks].
  - destruct (Z.leb_spec start latest); [lia|].
    unfold_io. by intros [= <- <-].
  - destruct (Z.leb_spec start latest); [|unfold_io; by intros [= <- <-]].
    intros (st' & w1 & Hchunk & Hrest)%bind_inv.
    apply query_chunk_floor in Hchunk as [Hfloor _]; [|done].
    destruct (_ && _); [unfold_io; by injection Hrest as <- <-|].
    eapply IH in Hrest; [done|done|].
    unfold MIN_BLOCK_CHUNK in *. lia.
Qed.

(** A scan of a time window always ends: the iteration budget it gives
    the walk is never spent. *)
Lemma scan_window_ends hours w e w' :
  scan_window net hours w = (Ret (inr e), w') -> e <> BudgetSpent.
Proof.
  unfold scan_window.
  intros (now & w0 & _ & Hrest)%bind_inv.
  apply bind_inv in Hrest as ([body|] & w1 & _ & Hrest);
    [|unfold_io; discriminate].
  apply bind_inv in Hrest as (r & w2 & _ & Hrest).
  apply bind_inv in Hrest as (start_block & w3 & _ & Hrest).
  apply bind_inv in Hrest as ([body'|] & w4 & _ & Hrest);
    [|unfold_io; discriminate].
  apply bind_inv in Hrest as (r' & w5 & _ & Hrest).
  apply bind_inv in Hrest as (latest_block & w6 & _ & Hrest).
  apply bind_inv in Hrest as (e' & w7 & Hwalk & Hrest).
  unfold mret, M_ret in Hrest. injection Hrest as <- <-.
  eapply walk_chunks_ends; [| |exact Hwalk].
  - unfold MIN_BLOCK_CHUNK, BLOCK_CHUNK_SIZE. simpl. lia.
  - lia.
Qed.

End scan_facts.

(** C2 (evaluation at the failing input). Over the range [0, 30000] the
    first chunk, [0, 25000], fails on both of its attempts; the chunk size
    is halved to 12500, and the scan goes on with the next chunk, from
    block 25001, instead of the same unfinished chunk: the only range
    retrieved is [25001, 30000], blocks 0 to 25000 are never read, and the
    scan reports that it found no large deposit. *)
Theorem scan_skips_chunk_after_retries :
  (Monitor.scan_window flaky_net (PyFloat.of_Z 24) fresh_world).1
  = Ret (inr (Monitor.RangeDone
               {| Monitor.retries := 0;
                  Monitor.chunk_size := 12500;
                  Monitor.deposits := [];
                  Monitor.retrieved := [(25001, 30000)] |})) /\
  (Monitor.check_large_deposits_custom flaky_net (PyFloat.of_Z 24)
     fresh_world).1
  = Ret (Some (false,
         "✅ No large deposits (≥ 100,000 S tokens) were found in the last "
         ++ "24.0 hours.")).
Proof. split; vm_compute; reflexivity. Qed.

(** ** The deposit probe *)

(** C3 (evaluation at the failing input). With block 100 stored and a
    service that never answers, the probe returns no alert, no new
    checkpoint and leaves the stored block alone, but its message is the
    summary of a clean scan, not the error text that
    [check_large_deposits_with_block] produced. *)
Theorem probe_failure_reads_as_clean_scan :
  Monitor.check_large_deposits_with_block dead_net (Some 101) world_at_100
  = (Ret (false, "Error: Could not fetch latest block.", None),
     mkWorld 5 1700000031 [1; 2; 4; 8; 16] (Some 100) WriteSucceeds) /\
  Monitor.run_deposit_probe dead_net None world_at_100
  = (Ret (false,
          "✅ No deposits over 100,000 S tokens were found between blocks "
          ++ "101 and None.",
          Some 101, None),
     mkWorld 5 1700000031 [1; 2; 4; 8; 16] (Some 100) WriteSucceeds).
Proof. split; vm_compute; reflexivity. Qed.

Section probe_facts.
Import Monitor.
Variable net : network.

Lemma frame_refl w : frame w w.
Proof. by repeat split. Qed.


Lemma make_request_frame {R} (url : nat -> reply (scan_body R)) w r w' :
  make_request url w = (r, w') -> frame w w'.
Proof.
  intros (n & _ & Hreq & _ & Hst & Hwr)%make_request_from_trace.
  repeat split; [done|done|lia].
Qed.

(** A request that succeeds returns the body of one of the replies it
    received, and that body has ["result"] in it. *)
Lemma make_request_from_Some {R} (url : nat -> reply (scan_body R))
    remaining delay w body w' :
  make_request_from url remaining delay w = (Ret (Some body), w') ->
  exists k status,
    (requests_sent w <= k < requests_sent w')%nat /\
    url k = Response status body /\
    contains_result body = Ret true.
Proof.
  revert delay w.
  induction remaining as [|m IH]; intros delay w; simpl.
  - unfold_io. discriminate.
  - unfold_io.
    set (w1 := mkWorld (S (requests_sent w)) _ _ _ _).
    assert (make_request_from url m (delay * 2) w1 = (Ret (Some body), w') ->
            exists k status,
              (requests_sent w <= k < requests_sent w')%nat /\
              url k = Response status body /\
              contains_result body = Ret true) as Hnext.
    { intros (k & status & Hk & Hurl & Hres)%IH.
      exists k, status. subst w1; simpl in *. repeat split; [lia|lia|done..]. }
    destruct (url (requests_sent w)) as [| |status b] eqn:Hurl;
      [exact Hnext..|].
    destruct (raises_for_status status); [exact Hnext|].
    assert (forall w0, (Ret (Some b), w0) = (Ret (Some body), w') ->
              w0 = w1 -> contains_result b = Ret true ->
              exists k status,
                (requests_sent w <= k < requests_sent w')%nat /\
                url k = Response status body /\
                contains_result body = Ret true) as Hstop.
    { intros w0 [= -> ->] -> Hres. exists (requests_sent w), status.
      subst w1; simpl. repeat split; [lia|lia|done..]. }
    destruct b as [|[res|]|[]|s|]; simpl; try exact Hnext.
    + intros H. by eapply Hstop.
    + intros H. by eapply Hstop.
    + destruct (occurs_in "result" s) eqn:Hocc; [|exact Hnext].
      intros H. eapply Hstop; [done..|]. simpl. by rewrite Hocc.
    + discriminate.
Qed.

Lemma make_request_Some {R} (url : nat -> reply (scan_body R)) w body w' :
  make_request url w = (Ret (Some body), w') ->
  exists k status,
    (requests_sent w <= k < requests_sent w')%nat /\
    url k = Response status body /\
    contains_result body = Ret true.
Proof. apply make_request_from_Some. Qed.

Lemma run_inv {A} (x : outcome A) w a w' :
  run x w = (Ret a, w') -> x = Ret a /\ w' = w.
Proof. unfold run. by intros [= -> ->]. Qed.

Lemma lift_inv {A} e (x : option A) w a w' :
  lift e x w = (Ret a, w') -> x = Some a /\ w' = w.
Proof. destruct x; unfold_io; [by intros [= -> ->]|discriminate]. Qed.




End probe_facts.

Section checkpoint_facts.
Import Monitor.
Variable net : network.














End checkpoint_facts.




(** ** The execution gate and the execution engine *)

Section engine_facts.
Import Engine.
Variable writes : nat -> option bool.

Lemma submissions_app l1 l2 :
  submissions (l1 ++ l2) = (submissions l1 + submissions l2)%nat.
Proof. unfold submissions. by rewrite List.filter_app, length_app. Qed.

Lemma calm_refl st : calm st st.
Proof. split; [done|]. exists []. by rewrite app_nil_r. Qed.

Lemma calm_same st st' :
  executions st' = executions st -> journal st' = journal st -> calm st st'.
Proof. intros He Hj. split; [done|]. exists []. by rewrite Hj, app_nil_r. Qed.

Lemma calm_trans st1 st2 st3 : calm st1 st2 -> calm st2 st3 -> calm st1 st3.
Proof.
  intros [He1 (a1 & Hj1 & Hs1)] [He2 (a2 & Hj2 & Hs2)].
  split; [congruence|]. exists (a1 ++ a2)%list.
  rewrite Hj2, Hj1, <- app_assoc, submissions_app. split; [done|lia].
Qed.

Lemma calm_elem st st' ev :
  calm st st' -> ev ∈ journal st -> ev ∈ journal st'.
Proof. intros [_ (a & -> & _)] Hin. apply elem_of_app. by left. Qed.

Lemma calm_submissions st st' :
  calm st st' -> submissions (journal st') = submissions (journal st).
Proof. intros [_ (a & -> & Ha)]. rewrite submissions_app. lia. Qed.

Lemma quiet_calm st st' : quiet writes st st' -> calm st st'.
Proof. by intros [? _]. Qed.

Lemma quiet_refl st : quiet writes st st.
Proof. split; [apply calm_refl|done]. Qed.

Lemma quiet_trans st1 st2 st3 :
  quiet writes st1 st2 -> quiet writes st2 st3 -> quiet writes st1 st3.
Proof.
  intros [Hc1 Hp1] [Hc2 Hp2]. split; [by eapply calm_trans|auto].
Qed.

Lemma quiet_suspend st : quiet writes st (suspend writes st).
Proof.
  split; [by apply calm_same|]. intros Hno Hp. unfold suspend; simpl.
  specialize (Hno (awaits st)). destruct (writes (awaits st)) as [[]|]; done.
Qed.

Lemma quiet_record ev st :
  is_submit ev = false -> quiet writes st (record ev st).
Proof.
  intros Hev. split; [|done]. split; [done|]. exists [ev].
  split; [done|]. unfold submissions; simpl. by rewrite Hev.
Qed.

Lemma quiet_broadcast text st : quiet writes st (broadcast writes text st).
Proof.
  eapply quiet_trans; [by apply (quiet_record (Send text))|apply quiet_suspend].
Qed.

Lemma quiet_print text st : quiet writes st (print text st).
Proof. by apply (quiet_record (Print text)). Qed.

Lemma quiet_recover e st : quiet writes st (recover writes e st).
Proof.
  eapply quiet_trans; [by apply (quiet_record (SendError e))|apply quiet_suspend].
Qed.

Lemma quiet_set_report text st : quiet writes st (set_report text st).
Proof. split; [by apply calm_same|done]. Qed.

Lemma quiet_set_paused_true st : quiet writes st (set_paused true st).
Proof. split; [by apply calm_same|done]. Qed.

Lemma quiet_cooldown seconds st : quiet writes st (cooldown writes seconds st).
Proof.
  revert st. induction seconds as [|n IH]; intros st; simpl;
    [apply quiet_refl|].
  destruct (paused st); [apply quiet_refl|].
  eapply quiet_trans; [apply quiet_suspend|apply IH].
Qed.

Lemma quiet_broadcasts chunks st :
  quiet writes st (foldl (fun st chunk => broadcast writes chunk st) st chunks).
Proof.
  revert st. induction chunks as [|c chunks IH]; intros st; simpl;
    [apply quiet_refl|].
  eapply quiet_trans; [apply quiet_broadcast|apply IH].
Qed.

Lemma quiet_list_pending balance pending st :
  quiet writes st (list_pending balance pending st).1.
Proof.
  revert st. induction pending as [|tx pending IH]; intros st; simpl;
    [apply quiet_refl|].
  destruct (status_line balance tx); [|apply quiet_refl].
  eapply quiet_trans; [apply quiet_print|apply IH].
Qed.

(** The listing prints the status line of every pending transaction,
    unless it stops on an amount that is not a number. *)
Lemma list_pending_lines balance pending st tx :
  (list_pending balance pending st).2 = None ->
  tx ∈ pending ->
  exists line,
    status_line balance tx = Some line /\
    Print line ∈ journal (list_pending balance pending st).1.
Proof.
  revert st. induction pending as [|tx0 pending IH]; intros st Hok Hin; simpl.
  - by apply elem_of_nil in Hin.
  - simpl in Hok.
    destruct (status_line balance tx0) as [line|] eqn:Hline; [|done].
    apply elem_of_cons in Hin as [->|Hin]; [|by apply IH].
    exists line. split; [done|].
    eapply calm_elem; [apply quiet_list_pending|].
    simpl. apply elem_of_app. right. apply list_elem_of_here.
Qed.

End engine_facts.

Section loop_facts.
Import Engine.
Variable execute_transaction : nat -> exec_result.
Variable writes : nat -> option bool.

Lemma quiet_after_failure (retry : bool) text st :
  quiet writes st
    (if retry then cooldown writes 60 (broadcast writes text st) else st).
Proof.
  destruct retry; [|apply quiet_refl].
  eapply quiet_trans; [apply quiet_broadcast|apply quiet_cooldown].
Qed.

(** The retry loop calls [execute_transaction] at most [remaining] times. *)
Lemma attempt_loop_bound remaining attempts n v a st :
  (executions st
   <= executions (attempt_loop execute_transaction writes remaining attempts
                    n v a st)
   <= executions st + remaining)%nat.
Proof.
  revert attempts st.
  induction remaining as [|m IH]; intros attempts st; cbn [attempt_loop].
  - simpl. lia.
  - destruct (paused st) eqn:Hp; [simpl; lia|].
    set (st0 := mkAutomation _ _ (S (executions st)) _ _).
    destruct (succeeded _).
    + rewrite (proj1 (proj1 (quiet_broadcast writes _ st0))). simpl. lia.
    + specialize (IH (attempts + 1)
        (if attempts + 1 <? 3
         then cooldown writes 60
                (broadcast writes (reverted_text (attempts + 1) n) st0)
         else st0)).
      rewrite (proj1 (proj1 (quiet_after_failure _ _ st0))) in IH.
      change (executions st0) with (S (executions st)) in IH. lia.
Qed.

(** When the loop has used all its attempts and the last one failed, it
    has set the pause flag and sent the circuit-breaker alert. *)
Lemma attempt_loop_trips remaining attempts n v a st :
  let st' := attempt_loop execute_transaction writes remaining attempts
               n v a st in
  executions st' = (executions st + remaining)%nat ->
  (remaining <> 0%nat ->
   succeeded (execute_transaction (executions st + remaining - 1)%nat)
   = false) ->
  Send circuit_breaker_text ∈ journal st' /\
  ((forall k, writes k <> Some false) -> paused st' = true).
Proof.
  revert attempts st.
  induction remaining as [|m IH]; intros attempts st; cbn [attempt_loop].
  - intros _ _. split.
    + unfold print, broadcast, suspend, record, set_paused. cbn [journal].
      apply elem_of_app. left. apply elem_of_app. right. apply list_elem_of_here.
    + intros Hno. unfold print, broadcast, suspend, record, set_paused.
      cbn [paused awaits]. specialize (Hno (awaits st)).
      destruct (writes (awaits st)) as [[]|]; done.
  - destruct (paused st) eqn:Hp; [simpl; lia|].
    set (st0 := mkAutomation _ _ (S (executions st)) _ _).
    destruct (succeeded (execute_transaction (executions st))) eqn:Hres.
    + rewrite (proj1 (proj1 (quiet_broadcast writes _ st0))). simpl.
      intros Hex Hlast. assert (m = 0%nat) as -> by lia.
      specialize (Hlast ltac:(done)).
      replace (executions st + 1 - 1)%nat with (executions st) in Hlast by lia.
      congruence.
    + specialize (IH (attempts + 1)
        (if attempts + 1 <? 3
         then cooldown writes 60
                (broadcast writes (reverted_text (attempts + 1) n) st0)
         else st0)).
      cbv zeta in IH.
      rewrite (proj1 (proj1 (quiet_after_failure _ _ st0))) in IH.
      change (executions st0) with (S (executions st)) in IH.
      intros Hex Hlast. apply IH; [lia|].
      intros Hm. destruct m as [|m]; [done|].
      replace (S (executions st) + S m - 1)%nat
        with (executions st + S (S m) - 1)%nat by lia.
      by apply Hlast.
Qed.

End loop_facts.

Ltac quiet_chain :=
  lazymatch goal with
  | |- quiet _ ?s ?s => apply quiet_refl
  | |- quiet _ _ (Engine.suspend _ _) =>
      eapply quiet_trans; [|apply quiet_suspend]; quiet_chain
  | |- quiet _ _ (Engine.broadcast _ _ _) =>
      eapply quiet_trans; [|apply quiet_broadcast]; quiet_chain
  | |- quiet _ _ (Engine.print _ _) =>
      eapply quiet_trans; [|apply quiet_print]; quiet_chain
  | |- quiet _ _ (Engine.recover _ _ _) =>
      eapply quiet_trans; [|apply quiet_recover]; quiet_chain
  | |- quiet _ _ (Engine.set_report _ _) =>
      eapply quiet_trans; [|apply quiet_set_report]; quiet_chain
  | |- quiet _ _ (Engine.set_paused true _) =>
      eapply quiet_trans; [|apply quiet_set_paused_true]; quiet_chain
  | |- quiet _ _ (foldl _ _ _) =>
      eapply quiet_trans; [|apply quiet_broadcasts]; quiet_chain
  | |- quiet _ _ (Engine.list_pending _ _ _ _).1 =>
      eapply quiet_trans; [|apply quiet_list_pending]; quiet_chain
  | |- quiet _ _ (if ?b then _ else _) => destruct b; quiet_chain
  | |- quiet _ _ (match ?l with [] => _ | _ :: _ => _ end) =>
      destruct l; quiet_chain
  end.

Section tick_facts.
Import Engine.
Variable probe : outcome (bool * string).
Variable chunks : string -> list string.
Variable balance_wei : option Z.
Variable fetched : outcome (list Tx).
Variable report : outcome string.
Variable lookup : Z -> option FeedTx.
Variable results : nat -> exec_result.
Variable writes : nat -> option bool.
Variable safe : option string.

#[local] Abbreviation recheck :=
  (periodic_recheck probe chunks balance_wei fetched report lookup results
     writes safe).
#[local] Abbreviation gate := (execute_lowest lookup results writes).

(** The gate either submits nothing, or enters the retry loop for a lowest
    transaction with enough signatures, automation not being paused. *)
Lemma execute_lowest_shape balance pending st :
  quiet writes st (gate balance pending st) \/
  exists lowest rest d amount st1,
    pending = lowest :: rest /\
    decode_if_present (data lowest) = Some d /\
    confirmations_required lowest <= signature_count lowest /\
    quiet writes st st1 /\ paused st1 = false /\
    gate balance pending st
    = attempt_loop results writes 3 0 (nonce lowest)
        (text_of (Decoder.validatorId d)) amount st1.
Proof.
  unfold execute_lowest.
  destruct (paused st) eqn:Hp; [left; quiet_chain|].
  destruct pending as [|lowest rest]; [left; apply quiet_refl|].
  destruct (decode_if_present (data lowest)) as [d|] eqn:Hd;
    [|left; apply quiet_refl].
  destruct (Decoder.float_of_value _) as [amount|]; [|left; quiet_chain].
  destruct (_ && _) eqn:Hready.
  - destruct (lookup _); [|left; quiet_chain].
    right.
    exists lowest, rest, d, amount,
      (print ("Transaction " ++ Py.str_of_Z (nonce lowest)
              ++ " is ready to execute. Executing now...") st).
    apply andb_true_iff in Hready as [Hsig%Z.leb_le _].
    split_and!.
    + reflexivity.
    + exact Hd.
    + exact Hsig.
    + apply quiet_print.
    + exact Hp.
    + reflexivity.
  - left. destruct (_ <? _); quiet_chain.
Qed.


(** A tick either ends in its exception handler, or reaches the gate; on
    the way it submits nothing and prints the status of every pending
    transaction. *)
Lemma tick_prefix st :
  (quiet writes st (recheck st) /\ exists e, SendError e ∈ journal (recheck st))
  \/
  exists transactions st_gate,
    fetched = Ret transactions /\
    quiet writes st st_gate /\
    (forall tx,
       tx ∈ Normalizer.filter_and_sort_pending_transactions transactions ->
       exists line,
         status_line (rounded_balance balance_wei) tx = Some line /\
         Print line ∈ journal st_gate) /\
    recheck st
    = gate (rounded_balance balance_wei)
        (Normalizer.filter_and_sort_pending_transactions transactions) st_gate.
Proof.
  unfold periodic_recheck. cbv zeta.
  assert (forall e s, SendError e ∈ journal (recover writes e s)) as Herr.
  { intros e s. cbn. apply elem_of_app. right. apply list_elem_of_here. }
  destruct probe as [[alert msg]|e]; [|left; split; [quiet_chain|eauto]].
  destruct fetched as [transactions|e]; [|left; split; [quiet_chain|eauto]].
  match goal with |- context [list_pending ?b ?p ?s] =>
    set (st_in := s);
    assert (quiet writes st st_in) as Hin by (subst st_in; quiet_chain);
    pose proof (quiet_list_pending writes b p st_in) as Hq;
    pose proof (list_pending_lines writes b p st_in) as Hlines;
    remember (list_pending b p st_in) as listed eqn:Hlist
  end.
  clearbody st_in. destruct listed as [st_listed [e|]]; simpl in Hq, Hlines.
  { left. split; [|eauto].
    eapply quiet_trans; [|apply quiet_recover].
    by eapply quiet_trans. }
  destruct report as [text|e].
  - right. eexists transactions, _. split_and!; [done| | |reflexivity].
    + eapply quiet_trans; [|apply quiet_set_report].
      by eapply quiet_trans.
    + intros tx Htx. by apply Hlines.
  - left. split; [|eauto].
    eapply quiet_trans; [|apply quiet_recover].
    by eapply quiet_trans.
Qed.

(** A tick makes at most three submissions. *)
Lemma tick_bound st :
  (executions st <= executions (recheck st) <= executions st + 3)%nat.
Proof.
  destruct (tick_prefix st) as [[[[He _] _] _]|
    (transactions & st_gate & _ & [[Hg _] _] & _ & ->)]; [lia|].
  destruct (execute_lowest_shape (rounded_balance balance_wei)
              (Normalizer.filter_and_sort_pending_transactions transactions)
              st_gate)
    as [[[He _] _]|(lowest & rest & d & amount & st1 & _ & _ & _
                    & [[H1 _] _] & _ & ->)]; [lia|].
  pose proof (attempt_loop_bound results writes 3 0 (nonce lowest)
                (text_of (Decoder.validatorId d)) amount st1).
  lia.
Qed.

(** A tick that starts paused and meets no [!resume] submits nothing and
    ends paused. *)
Lemma tick_paused st :
  (forall k, writes k <> Some false) -> paused st = true ->
  quiet writes st (recheck st).
Proof.
  intros Hno Hp.
  destruct (tick_prefix st) as [[Hq _]|
    (transactions & st_gate & _ & Hg & _ & ->)]; [done|].
  destruct (execute_lowest_shape (rounded_balance balance_wei)
              (Normalizer.filter_and_sort_pending_transactions transactions)
              st_gate)
    as [Hq|(lowest & rest & d & amount & st1 & _ & _ & _ & Hq1 & Hp1 & _)].
  - by eapply quiet_trans.
  - pose proof (proj2 (quiet_trans _ _ _ _ Hg Hq1) Hno Hp). congruence.
Qed.

End tick_facts.


Section unpaused_facts.
Import Engine.
Variable probe : outcome (bool * string).
Variable chunks : string -> list string.
Variable balance_wei : option Z.
Variable fetched : outcome (list Tx).
Variable report : outcome string.
Variable lookup : Z -> option FeedTx.
Variable results : nat -> exec_result.
Variable writes : nat -> option bool.
Variable safe : option string.
Hypothesis untouched : forall k, writes k = None.






End unpaused_facts.




(** While automation stays paused and nobody resumes it, ticks submit
    nothing. *)
Lemma ticks_paused (later : list surroundings) (st : Engine.automation) :
  Forall no_resume later -> Engine.paused st = true ->
  Engine.executions (ticks later st) = Engine.executions st /\
  submissions (Engine.journal (ticks later st))
  = submissions (Engine.journal st) /\
  Engine.paused (ticks later st) = true.
Proof.
  intros Hlater. revert st.
  induction Hlater as [|e later He _ IH]; intros st Hp; simpl; [done|].
  destruct (tick_paused (probe_outcome e) (message_chunks e) (balance_wei e)
              (feed_outcome e) (report_outcome e) (found_by_nonce e)
              (execution_results e) (flag_writes e) (safe_address e) st He Hp)
    as [Hcalm Hkeep].
  destruct (IH (tick e st)) as (Hex & Hsub & Hpaused); [by apply Hkeep|].
  split_and!; [|rewrite Hsub; by apply calm_submissions|done].
  rewrite Hex. apply Hcalm.
Qed.

(** C5. When the periodic tick has made three calls of
    [execute_transaction] for the lowest-nonce transaction and none
    succeeded, it has set [paused], sent the circuit-breaker alert, and
    stopped: as long as no operator resumes automation, this tick leaves
    [paused] set and no later tick makes a further call. *)
Theorem circuit_breaker_after_three_reverts
    (e : surroundings) (later : list surroundings) (st : Engine.automation) :
  no_resume e -> Forall no_resume later ->
  Engine.executions (tick e st) = (Engine.executions st + 3)%nat ->
  (forall i, (i < 3)%nat ->
     succeeded (execution_results e (Engine.executions st + i)%nat) = false) ->
  Engine.paused (tick e st) = true /\
  Send Engine.circuit_breaker_text ∈ Engine.journal (tick e st) /\
  Engine.executions (ticks later (tick e st)) = (Engine.executions st + 3)%nat /\
  submissions (Engine.journal (ticks later (tick e st)))
  = submissions (Engine.journal (tick e st)) /\
  Engine.paused (ticks later (tick e st)) = true.
Proof.
  intros He Hlater Hthree Hfailed.
  assert (Engine.paused (tick e st) = true /\
          Send Engine.circuit_breaker_text ∈ Engine.journal (tick e st))
    as [Hpaused Halert].
  { unfold tick in *.
    destruct (tick_prefix (probe_outcome e) (message_chunks e) (balance_wei e)
                (feed_outcome e) (report_outcome e) (found_by_nonce e)
                (execution_results e) (flag_writes e) (safe_address e) st)
      as [[[[Hsame _] _] _]|(transactions & st_gate & _ & [[Hgate _] _] & _
                             & Hrun)]; [lia|].
    rewrite Hrun in *.
    destruct (execute_lowest_shape (found_by_nonce e) (execution_results e)
                (flag_writes e) (rounded_balance (balance_wei e))
                (Normalizer.filter_and_sort_pending_transactions transactions)
                st_gate)
      as [[[Hsame _] _]|(lowest & rest & d & amount & st1 & _ & _ & _
                         & [[Hst1 _] _] & _ & Hloop)]; [lia|].
    rewrite Hloop in *.
    destruct (attempt_loop_trips (execution_results e) (flag_writes e) 3 0
                (nonce lowest) (text_of (Decoder.validatorId d)) amount st1)
      as [Halert Hpaused].
    - lia.
    - intros _. rewrite Hst1, Hgate.
      replace (Engine.executions st + 3 - 1)%nat
        with (Engine.executions st + 2)%nat by lia.
      apply Hfailed. lia.
    - split; [by apply Hpaused|done]. }
  destruct (ticks_paused later (tick e st) Hlater Hpaused)
    as (Hex & Hsub & Hstill).
  split_and!; try done. by rewrite Hex.
Qed.

Lemma circuit_breaker_after_three_reverts_witness :
  Engine.paused (tick reverting_tick running) = true /\
  Send Engine.circuit_breaker_text
    ∈ Engine.journal (tick reverting_tick running) /\
  Engine.executions (ticks [healthy_tick] (tick reverting_tick running))
  = 3%nat /\
  submissions
    (Engine.journal (ticks [healthy_tick] (tick reverting_tick running)))
  = submissions (Engine.journal (tick reverting_tick running)) /\
  Engine.paused (ticks [healthy_tick] (tick reverting_tick running)) = true.
Proof.
  apply (circuit_breaker_after_three_reverts reverting_tick [healthy_tick]
           running).
  - intros k. discriminate.
  - repeat constructor. intros k. discriminate.
  - vm_compute. reflexivity.
  - intros i _. reflexivity.
Defined.

(** * Further properties *)

(** ** The queue normalizer, continued *)

Section normalizer_more.
Import Normalizer.

(** What the output holds: the dict's values that are not executed. *)
Lemma normalized_elem (txs : list Tx) (tx : Tx) :
  tx ∈ filter_and_sort_pending_transactions txs <->
  (latest_transactions txs !! nonce tx = Some tx /\ isExecuted tx = false).
Proof.
  unfold filter_and_sort_pending_transactions; simpl.
  rewrite sort_by_nonce_perm, list_elem_of_In, List.filter_In,
    <- list_elem_of_In, negb_true_iff, list_elem_of_fmap.
  split.
  - intros [([k tx'] & -> & Hin) Hex]; simpl in *. split; [|done].
    apply elem_of_map_to_list in Hin.
    by rewrite (keyed_latest txs k tx' Hin).
  - intros [Hlook Hex]. split; [|done].
    exists (nonce tx, tx). split; [done|]. by apply elem_of_map_to_list.
Qed.

Lemma visit_other (m : gmap Z Tx) (tx : Tx) (k : Z) :
  nonce tx <> k -> visit m tx !! k = m !! k.
Proof.
  intros Hne. unfold visit.
  assert (<[nonce tx:=tx]> m !! k = m !! k) as Hins
    by (by rewrite lookup_insert_ne).
  repeat case_match; first [exact Hins|reflexivity].
Qed.

Lemma foldl_visit_other (txs : list Tx) (m : gmap Z Tx) (k : Z) :
  Forall (fun tx : Tx => nonce tx <> k) txs ->
  foldl visit m txs !! k = m !! k.
Proof.
  intros Hall. revert m.
  induction Hall as [|tx txs Hne _ IH]; intros m; simpl; [done|].
  by rewrite IH, visit_other.
Qed.

Lemma foldl_visit_app (l1 l2 : list Tx) (m : gmap Z Tx) :
  foldl visit m (l1 ++ l2) = foldl visit (foldl visit m l1) l2.
Proof. apply foldl_app. Qed.

(** Every value of the dict is one of the records visited (or was there
    before). *)
Lemma foldl_visit_from (txs : list Tx) (m : gmap Z Tx) (k : Z) (tx : Tx) :
  foldl visit m txs !! k = Some tx -> tx ∈ txs \/ m !! k = Some tx.
Proof.
  revert m. induction txs as [|t txs IH]; intros m; simpl; [by right|].
  intros [Hin|Hvisit]%IH; [left; by apply list_elem_of_further|].
  assert (visit m t !! k = Some tx -> tx = t \/ m !! k = Some tx) as Hcase.
  { unfold visit.
    assert (<[nonce t:=t]> m !! k = Some tx -> tx = t \/ m !! k = Some tx).
    { destruct (decide (nonce t = k)) as [<-|Hne].
      - rewrite lookup_insert_eq. intros [= ->]. by left.
      - rewrite lookup_insert_ne by done. by right. }
    repeat case_match; first [assumption|by right]. }
  destruct (Hcase Hvisit) as [->|?]; [left; apply list_elem_of_here|by right].
Qed.

Lemma latest_from_input (txs : list Tx) (k : Z) (tx : Tx) :
  latest_transactions txs !! k = Some tx -> tx ∈ txs.
Proof.
  intros [?|Hempty]%foldl_visit_from; [done|].
  by rewrite lookup_empty in Hempty.
Qed.

End normalizer_more.

(** X1. The normalized queue is in strictly ascending nonce order: sorted,
    and no nonce occurs twice. *)
Theorem normalized_strictly_ascending (txs : list Tx) :
  StronglySorted (fun a b : Tx => nonce a < nonce b)
    (Normalizer.filter_and_sort_pending_transactions txs).
Proof.
  pose proof (normalized_nonces_NoDup txs) as Hnodup.
  pose proof (normalized_sorted txs) as Hsorted.
  apply Sorted_StronglySorted in Hsorted; [|intros a b c; lia].
  induction Hsorted as [|tx l Hl IH Hall]; [constructor|].
  rewrite fmap_cons in Hnodup. apply NoDup_cons in Hnodup as [Hnotin Hnodup].
  constructor; [by apply IH|].
  apply Forall_forall. intros tx' Hin.
  rewrite Forall_forall in Hall. specialize (Hall tx' Hin).
  destruct (decide (nonce tx = nonce tx')) as [Heq|Hne]; [|lia].
  exfalso. apply Hnotin. rewrite Heq.
  apply list_elem_of_fmap. by exists tx'.
Qed.

(** X2. The normalizer invents nothing: every entry of its output is a
    record of the input that is not executed. *)
Theorem normalized_from_input (txs : list Tx) (tx : Tx) :
  tx ∈ Normalizer.filter_and_sort_pending_transactions txs ->
  tx ∈ txs /\ isExecuted tx = false.
Proof.
  intros [Hlook Hex]%normalized_elem. split; [|done].
  by apply latest_from_input in Hlook.
Qed.

Lemma normalized_from_input_witness :
  pending_5 ∈ [executed_5; pending_5] /\ isExecuted pending_5 = false.
Proof.
  apply (normalized_from_input [executed_5; pending_5] pending_5).
  vm_compute. apply list_elem_of_here.
Defined.

(** X3. A nonce whose last record in the feed is executed is dropped from
    the queue, whatever came before it. *)
Theorem executed_last_drops_nonce (before after : list Tx) (e : Tx) :
  isExecuted e = true ->
  Forall (fun tx : Tx => nonce tx <> nonce e) after ->
  Forall (fun tx : Tx => nonce tx <> nonce e)
    (Normalizer.filter_and_sort_pending_transactions (before ++ e :: after)).
Proof.
  intros Hex Hafter. apply Forall_forall.
  intros tx [Hlook Hpending]%normalized_elem Hnonce.
  unfold Normalizer.latest_transactions in Hlook.
  rewrite foldl_visit_app in Hlook. simpl in Hlook.
  rewrite Hnonce, foldl_visit_other in Hlook by done.
  unfold Normalizer.visit in Hlook. rewrite Hex, lookup_insert_eq in Hlook.
  injection Hlook as ->. congruence.
Qed.

Lemma executed_last_drops_nonce_witness :
  Forall (fun tx : Tx => nonce tx <> nonce executed_5)
    (Normalizer.filter_and_sort_pending_transactions
       ([pending_5] ++ executed_5 :: [])).
Proof.
  apply (executed_last_drops_nonce [pending_5] [] executed_5).
  - reflexivity.
  - constructor.
Defined.

Section normalizer_dates.
Import Normalizer.

Lemma string_compare_refl (a : string) : String.compare a a = Eq.
Proof.
  induction a as [|c a IH]; simpl; [done|].
  unfold Ascii.compare. by rewrite N.compare_refl.
Qed.

Lemma string_leb_refl (a : string) : String.leb a a = true.
Proof. unfold String.leb. by rewrite string_compare_refl. Qed.

Lemma string_ltb_leb (a b : string) :
  String.ltb a b = true -> String.leb a b = true.
Proof. unfold String.ltb, String.leb. by destruct (String.compare a b). Qed.

Lemma string_not_ltb_leb (a b : string) :
  String.ltb a b = false -> String.leb b a = true.
Proof.
  unfold String.ltb, String.leb. rewrite (String.compare_antisym a b).
  by destruct (String.compare b a).
Qed.

(** While every record of nonce [n] is pending, the dict holds under [n]
    the record of [n] with the latest date seen so far. *)
Lemma latest_of_pending (txs : list Tx) (n : Z) :
  (forall tx : Tx, tx ∈ txs -> nonce tx = n -> isExecuted tx = false) ->
  match (latest_transactions txs !! n : option Tx) with
  | None => forall tx : Tx, tx ∈ txs -> nonce tx <> n
  | Some kept =>
      isExecuted kept = false /\
      forall tx : Tx, tx ∈ txs -> nonce tx = n ->
        String.leb (submissionDate tx) (submissionDate kept) = true
  end.
Proof.
  induction txs as [|t txs IH] using rev_ind; intros Hpending.
  - unfold latest_transactions; simpl. rewrite lookup_empty.
    intros tx Hin. by apply elem_of_nil in Hin.
  - unfold latest_transactions in *. rewrite foldl_visit_app. simpl.
    specialize (IH ltac:(intros tx Hin; apply Hpending, elem_of_app; by left)).
    destruct (decide (nonce t = n)) as [Hn|Hn]; cycle 1.
    { rewrite visit_other by done.
      destruct (foldl visit ∅ txs !! n) as [kept|].
      - destruct IH as [Hk Hmax]. split; [done|].
        intros tx [Hin|Hin%list_elem_of_singleton]%elem_of_app Htx;
          [by apply Hmax|congruence].
      - intros tx [Hin|Hin%list_elem_of_singleton]%elem_of_app;
          [by apply IH|congruence]. }
    assert (isExecuted t = false) as Hex.
    { apply Hpending; [|done]. apply elem_of_app. right.
      apply list_elem_of_here. }
    subst n. unfold visit at 1. rewrite Hex.
    destruct (foldl visit ∅ txs !! nonce t) as [kept|] eqn:Hlook.
    + destruct IH as [Hk Hmax].
      destruct (String.ltb (submissionDate kept) (submissionDate t)) eqn:Hlt.
      * rewrite lookup_insert_eq. split; [done|].
        intros tx [Hin|Hin%list_elem_of_singleton]%elem_of_app Htx.
        -- eapply string_leb_trans; [by apply Hmax|by apply string_ltb_leb].
        -- subst. apply string_leb_refl.
      * rewrite Hlook. split; [done|].
        intros tx [Hin|Hin%list_elem_of_singleton]%elem_of_app Htx.
        -- by apply Hmax.
        -- subst. by apply string_not_ltb_leb.
    + rewrite lookup_insert_eq. split; [done|].
      intros tx [Hin|Hin%list_elem_of_singleton]%elem_of_app Htx.
      * by apply IH in Hin.
      * subst. apply string_leb_refl.
Qed.

End normalizer_dates.

(** X4. When none of the feed's records of a nonce is executed, the queue
    holds one record of that nonce, and no record of that nonce in the
    feed has a later submission date. *)
Theorem latest_pending_survives (txs : list Tx) (n : Z) :
  (forall tx : Tx, tx ∈ txs -> nonce tx = n -> isExecuted tx = false) ->
  (exists tx : Tx, tx ∈ txs /\ nonce tx = n) ->
  exists kept : Tx,
    kept ∈ Normalizer.filter_and_sort_pending_transactions txs /\
    kept ∈ txs /\ nonce kept = n /\
    forall tx : Tx, tx ∈ txs -> nonce tx = n ->
      String.leb (submissionDate tx) (submissionDate kept) = true.
Proof.
  intros Hpending (tx0 & Hin0 & Hn0).
  pose proof (latest_of_pending txs n Hpending) as Hlatest.
  destruct (Normalizer.latest_transactions txs !! n) as [kept|] eqn:Hlook;
    [|by apply Hlatest in Hin0].
  destruct Hlatest as [Hex Hmax].
  pose proof (keyed_latest txs n kept Hlook) as Hn.
  assert (kept ∈ Normalizer.filter_and_sort_pending_transactions txs) as Hin.
  { apply normalized_elem. by rewrite Hn. }
  exists kept. split_and!; try done.
  by apply latest_from_input in Hlook.
Qed.

Lemma latest_pending_survives_witness :
  exists kept : Tx,
    kept ∈ Normalizer.filter_and_sort_pending_transactions
             [pending_5_old; pending_5] /\
    kept ∈ [pending_5_old; pending_5] /\ nonce kept = 5 /\
    forall tx : Tx, tx ∈ [pending_5_old; pending_5] -> nonce tx = 5 ->
      String.leb (submissionDate tx) (submissionDate kept) = true.
Proof.
  apply (latest_pending_survives [pending_5_old; pending_5] 5).
  - intros tx Hin _.
    repeat (apply elem_of_cons in Hin as [->|Hin]); try reflexivity.
    by apply elem_of_nil in Hin.
  - exists pending_5. split; [|reflexivity].
    apply list_elem_of_further, list_elem_of_here.
Defined.

(** ** The scanning requests, continued *)

Section make_request_more.
Import Monitor.
Context {R : Type}.
Variable url : nat -> reply (scan_body R).

(** The loop stops at the first reply that is not a failed attempt. *)
Lemma make_request_from_first remaining delay w k status body :
  (k < remaining)%nat ->
  (forall i, (i < k)%nat ->
     scan_failure (url (requests_sent w + i)) = true) ->
  url (requests_sent w + k) = Response status body ->
  raises_for_status status = false ->
  contains_result body = Ret true ->
  exists w',
    make_request_from url remaining delay w = (Ret (Some body), w') /\
    requests_sent w' = (requests_sent w + S k)%nat /\
    slept w' = (slept w ++ doubling (S k) delay)%list /\
    stored_block w' = stored_block w /\
    writable w' = writable w.
Proof.
  revert remaining delay w.
  induction k as [|k IH]; intros remaining delay w Hlt Hfail Hurl Hstatus Hres;
    (destruct remaining as [|m]; [lia|]); simpl; unfold_io.
  - rewrite Nat.add_0_r in Hurl. rewrite Hurl, Hstatus.
    destruct body as [|[res|]|[]|s|]; simpl in *; try discriminate.
    + eexists. split; [reflexivity|]. simpl. split_and!; try done. lia.
    + eexists. split; [reflexivity|]. simpl. split_and!; try done. lia.
    + destruct (occurs_in "result" s); [|discriminate].
      eexists. split; [reflexivity|]. simpl. split_and!; try done. lia.
  - set (w1 := mkWorld (S (requests_sent w)) _ _ _ _).
    destruct (IH m (delay * 2) w1) as (w' & Hrun & Hreq & Hsl & Hst & Hwr);
      try done.
    { lia. }
    { intros i Hi. subst w1; simpl. rewrite <- Nat.add_succ_r.
      apply Hfail. lia. }
    { subst w1; simpl. by rewrite <- Nat.add_succ_r. }
    exists w'. subst w1; simpl in *.
    rewrite Hreq, Hsl, Hst, Hwr, <- app_assoc.
    split; [|split_and!; try done; lia].
    specialize (Hfail 0%nat ltac:(lia)).
    rewrite Nat.add_0_r in Hfail.
    destruct (url (requests_sent w)) as [| |status0 body0]; [done..|].
    simpl in Hfail.
    destruct (raises_for_status status0); [done|].
    destruct body0 as [|[res|]|[]|s|]; simpl in *; try done.
    by destruct (occurs_in "result" s).
Qed.

End make_request_more.

(** X5. [make_request] returns the body of the first reply that is not a
    failed attempt, when that reply comes within its five attempts: after
    [k] failed attempts it has sent [k + 1] requests and slept
    [1, 2, .., 2^k] seconds, one sleep before each request. *)
Theorem request_returns_first_good_reply {R}
    (url : nat -> reply (Monitor.scan_body R)) (w : world) (k : nat)
    (status : Z) (body : Monitor.scan_body R) :
  (k < 5)%nat ->
  (forall i, (i < k)%nat ->
     scan_failure (url (requests_sent w + i)%nat) = true) ->
  url (requests_sent w + k)%nat = Response status body ->
  raises_for_status status = false ->
  Monitor.contains_result body = Ret true ->
  exists w',
    Monitor.make_request url w = (Ret (Some body), w') /\
    requests_sent w' = (requests_sent w + S k)%nat /\
    slept w' = (slept w ++ doubling (S k) 1)%list.
Proof.
  intros Hk Hfail Hurl Hstatus Hres.
  assert (k < Z.to_nat Monitor.MAX_RETRIES)%nat as Hlt
    by (change (Z.to_nat Monitor.MAX_RETRIES) with 5%nat; lia).
  destruct (make_request_from_first url (Z.to_nat Monitor.MAX_RETRIES)
              Monitor.INITIAL_DELAY w k status body Hlt Hfail Hurl Hstatus
              Hres)
    as (w' & Hrun & Hreq & Hsl & _).
  by exists w'.
Qed.

Lemma request_returns_first_good_reply_witness :
  exists w',
    Monitor.make_request
      (fun k => if (k <? 2)%nat then Timeout else answer "0x7530")
      fresh_world
    = (Ret (Some (Monitor.JsonObject (Some "0x7530"))), w') /\
    requests_sent w' = (requests_sent fresh_world + 3)%nat /\
    slept w' = (slept fresh_world ++ doubling 3 1)%list.
Proof.
  apply (request_returns_first_good_reply
           (fun k => if (k <? 2)%nat then Timeout else answer "0x7530")
           fresh_world 2 200 (Monitor.JsonObject (Some "0x7530"))).
  - lia.
  - intros i Hi. destruct i as [|[|i]]; [reflexivity|reflexivity|lia].
  - reflexivity.
  - reflexivity.
  - reflexivity.
Defined.

(** ** The chunked historical scan, continued *)

Section scan_more.
Import Monitor.
Variable net : network.

Lemma ascending_ranges_from lo lo' hi ranges :
  lo <= lo' -> ascending_ranges lo' hi ranges -> ascending_ranges lo hi ranges.
Proof.
  destruct ranges as [|[a b] rest]; simpl; [done|].
  intros ? (? & ? & ? & ?). split_and!; [lia|done..].
Qed.

(** The inner loop reports at most one range: the one it was asked for. *)
Lemma query_chunk_retrieved remaining a b st w st' w' :
  query_chunk net remaining a b st w = (Ret st', w') ->
  retrieved st' = retrieved st \/
  retrieved st' = (retrieved st ++ [(a, b)])%list.
Proof.
  revert st w. induction remaining as [|m IH]; intros st w; simpl.
  - unfold_io. intros [= <- <-]. by left.
  - intros (resp & w1 & _ & Hrest)%bind_inv.
    apply bind_inv in Hrest as (ok & w2 & _ & Hrest).
    destruct ok.
    + apply bind_inv in Hrest as (logs & w3 & _ & Hrest).
      unfold_io. injection Hrest as <- <-. by right.
    + apply bind_inv in Hrest as ([] & w3 & _ & Hrest).
      by apply IH in Hrest.
Qed.

(** What the outer loop adds to the ranges retrieved, and what it does to
    the chunk size. *)
Lemma walk_chunks_ranges budget latest start st w e w' st' :
  MIN_BLOCK_CHUNK <= chunk_size st ->
  walk_chunks net budget latest start st w = (Ret e, w') ->
  state_at_end e = Some st' ->
  exists added,
    retrieved st' = (retrieved st ++ added)%list /\
    ascending_ranges start latest added /\
    MIN_BLOCK_CHUNK <= chunk_size st' <= chunk_size st.
Proof.
  revert start st w.
  induction budget as [|n IH]; intros start st w Hmin; cbn [walk_chunks].
  - destruct (Z.leb_spec start latest); unfold_io; intros [= <- <-];
      [discriminate|].
    intros [= <-]. exists []. rewrite app_nil_r. split_and!; [done|done|lia..].
  - destruct (Z.leb_spec start latest); cycle 1.
    { unfold_io. intros [= <- <-] [= <-]. exists [].
      rewrite app_nil_r. split_and!; [done|done|lia..]. }
    intros (st1 & w1 & Hchunk & Hrest)%bind_inv Hend.
    pose proof Hchunk as Hfloor.
    apply query_chunk_floor in Hfloor; [|exact Hmin].
    apply query_chunk_retrieved in Hchunk as Hret. simpl in Hfloor, Hret.
    set (end_block := Z.min (start + chunk_size st) latest) in *.
    assert (start <= end_block <= latest) as Hend_block
      by (unfold MIN_BLOCK_CHUNK in *; lia).
    assert (exists first,
              retrieved st1 = (retrieved st ++ first)%list /\
              forall rest, ascending_ranges (end_block + 1) latest rest ->
                           ascending_ranges start latest (first ++ rest))
      as (first & Hfirst & Hasc).
    { destruct Hret as [Hret|Hret].
      - exists []. rewrite app_nil_r. split; [done|].
        intros rest. simpl. apply ascending_ranges_from. lia.
      - exists [(start, end_block)]. split; [done|].
        intros rest Hrest'. simpl. split_and!; [lia|lia|lia|done]. }
    destruct (_ && _).
    + unfold_io. injection Hrest as <- <-. simpl in Hend.
      injection Hend as <-. exists first. split_and!; [done| |lia..].
      rewrite <- (app_nil_r first). by apply Hasc.
    + eapply IH in Hrest as (added & Hadded & Hranges & Hsize);
        [|lia|exact Hend].
      exists (first ++ added)%list. rewrite Hadded, Hfirst, app_assoc.
      split_and!; [done|by apply Hasc|lia..].
Qed.

(** A log query that the service answers is retrieved at the first pass
    of the inner loop. *)
Lemma query_chunk_answered remaining a b st w :
  answers_logs net ->
  exists logs w',
    query_chunk net (S remaining) a b st w
    = (Ret (mkScan (retries st) (chunk_size st) (deposits st ++ logs)%list
                   (retrieved st ++ [(a, b)])%list), w').
Proof.
  intros Hnet.
  destruct (Hnet a b (requests_sent w))
    as (k & status & logs & Hk & Hfail & Hurl & Hstatus).
  destruct (make_request_from_first (getLogs net a b)
              (Z.to_nat MAX_RETRIES) INITIAL_DELAY w k status
              (JsonObject (Some logs)) Hk Hfail Hurl Hstatus eq_refl)
    as (w' & Hrun & _).
  exists logs, w'. cbn [query_chunk].
  unfold mbind at 1, M_bind at 1, make_request. rewrite Hrun.
  reflexivity.
Qed.

(** With such a service the outer loop walks the whole range, chunk after
    chunk. *)
Lemma walk_chunks_answered budget latest start st w :
  answers_logs net ->
  0 <= chunk_size st ->
  latest - start + 1 <= Z.of_nat budget ->
  exists st' w' added,
    walk_chunks net budget latest start st w = (Ret (RangeDone st'), w') /\
    retrieved st' = (retrieved st ++ added)%list /\
    tiles start latest added /\
    chunk_size st' = chunk_size st.
Proof.
  intros Hnet. revert start st w.
  induction budget as [|n IH]; intros start st w Hsize Hbudget;
    cbn [walk_chunks].
  - destruct (Z.leb_spec start latest); [lia|].
    exists st, w, []. rewrite app_nil_r. split_and!; try done; simpl; lia.
  - destruct (Z.leb_spec start latest); cycle 1.
    { exists st, w, []. rewrite app_nil_r. split_and!; try done; simpl; lia. }
    set (end_block := Z.min (start + chunk_size st) latest).
    destruct (query_chunk_answered 1 start end_block
                (mkScan 0 (chunk_size st) (deposits st) (retrieved st)) w Hnet)
      as (logs & w1 & Hchunk).
    change (Z.to_nat RETRY_LIMIT) with 2%nat.
    unfold mbind at 1, M_bind at 1. rewrite Hchunk.
    cbn [retries chunk_size deposits retrieved].
    change (0 =? RETRY_LIMIT) with false. cbn [andb].
    set (st1 := mkScan 0 (chunk_size st) _ _).
    destruct (IH (end_block + 1) st1 w1) as (st' & w' & added & Hrun & Hret
                                             & Htiles & Hsz).
    { done. }
    { lia. }
    exists st', w', ((start, end_block) :: added).
    split_and!; [done| | |done].
    + rewrite Hret. subst st1; simpl. by rewrite <- app_assoc.
    + simpl. split_and!; [done|lia|lia|done].
Qed.

End scan_more.

(** X6. However the service behaves, the chunk size of the historical
    scan ends between the floor of 3125 blocks and the 25000 blocks it
    starts with. *)
Theorem scan_chunk_size_bounded (net : Monitor.network) (latest start : Z)
    (w w' : world) (e : Monitor.walk_end) :
  Monitor.walk_chunks net (Z.to_nat (latest - start + 1)) latest start
    (Monitor.mkScan 0 Monitor.BLOCK_CHUNK_SIZE [] []) w = (Ret e, w') ->
  exists st',
    state_at_end e = Some st' /\
    Monitor.MIN_BLOCK_CHUNK <= Monitor.chunk_size st'
      <= Monitor.BLOCK_CHUNK_SIZE.
Proof.
  intros Hwalk.
  assert (Monitor.MIN_BLOCK_CHUNK
          <= Monitor.chunk_size (Monitor.mkScan 0 Monitor.BLOCK_CHUNK_SIZE [] []))
    as Hmin by (vm_compute; discriminate).
  assert (e <> Monitor.BudgetSpent) as Hspent
    by (eapply walk_chunks_ends; [exact Hmin| |exact Hwalk]; lia).
  destruct e as [st'|st'|]; [| |done]; exists st'; (split; [done|]);
    by destruct (walk_chunks_ranges _ _ _ _ _ _ _ _ st' Hmin Hwalk eq_refl)
      as (? & _ & _ & ?).
Qed.

Lemma scan_chunk_size_bounded_witness :
  exists st',
    state_at_end flaky_walk_end = Some st' /\
    Monitor.MIN_BLOCK_CHUNK <= Monitor.chunk_size st'
      <= Monitor.BLOCK_CHUNK_SIZE.
Proof.
  apply (scan_chunk_size_bounded flaky_net 30000 0 fresh_world
           flaky_walk_world flaky_walk_end).
  vm_compute. reflexivity.
Defined.

(** X7. However the service behaves, the block ranges that the historical
    scan retrieves are in ascending order, do not overlap, and lie inside
    the range from the start block to the head: no block is read twice. *)
Theorem scan_ranges_never_overlap (net : Monitor.network) (latest start : Z)
    (w w' : world) (e : Monitor.walk_end) :
  Monitor.walk_chunks net (Z.to_nat (latest - start + 1)) latest start
    (Monitor.mkScan 0 Monitor.BLOCK_CHUNK_SIZE [] []) w = (Ret e, w') ->
  exists st',
    state_at_end e = Some st' /\
    ascending_ranges start latest (Monitor.retrieved st').
Proof.
  intros Hwalk.
  assert (Monitor.MIN_BLOCK_CHUNK
          <= Monitor.chunk_size (Monitor.mkScan 0 Monitor.BLOCK_CHUNK_SIZE [] []))
    as Hmin by (vm_compute; discriminate).
  assert (e <> Monitor.BudgetSpent) as Hspent
    by (eapply walk_chunks_ends; [exact Hmin| |exact Hwalk]; lia).
  destruct e as [st'|st'|]; [| |done]; exists st'; (split; [done|]);
    destruct (walk_chunks_ranges _ _ _ _ _ _ _ _ st' Hmin Hwalk eq_refl)
      as (added & Hret & Hasc & _); by rewrite Hret.
Qed.

Lemma scan_ranges_never_overlap_witness :
  exists st',
    state_at_end flaky_walk_end = Some st' /\
    ascending_ranges 0 30000 (Monitor.retrieved st').
Proof.
  apply (scan_ranges_never_overlap flaky_net 30000 0 fresh_world
           flaky_walk_world flaky_walk_end).
  vm_compute. reflexivity.
Defined.

(** X8. When the service answers every log query within the attempts of
    one request, the historical scan walks the whole range: the ranges it
    retrieves follow each other from the start block to the head without
    a gap and without overlap, and the chunk size stays at 25000. *)
Theorem answered_scan_tiles_the_range (net : Monitor.network)
    (latest start : Z) (w : world) :
  answers_logs net ->
  exists st' w',
    Monitor.walk_chunks net (Z.to_nat (latest - start + 1)) latest start
      (Monitor.mkScan 0 Monitor.BLOCK_CHUNK_SIZE [] []) w
    = (Ret (Monitor.RangeDone st'), w') /\
    tiles start latest (Monitor.retrieved st') /\
    Monitor.chunk_size st' = Monitor.BLOCK_CHUNK_SIZE.
Proof.
  intros Hnet.
  destruct (walk_chunks_answered net (Z.to_nat (latest - start + 1)) latest
              start (Monitor.mkScan 0 Monitor.BLOCK_CHUNK_SIZE [] []) w Hnet)
    as (st' & w' & added & Hrun & Hret & Htiles & Hsize).
  { vm_compute. discriminate. }
  { lia. }
  exists st', w'. split_and!; [done| |done]. by rewrite Hret.
Qed.

Lemma answered_scan_tiles_the_range_witness :
  exists st' w',
    Monitor.walk_chunks quiet_net (Z.to_nat (60000 - 0 + 1)) 60000 0
      (Monitor.mkScan 0 Monitor.BLOCK_CHUNK_SIZE [] []) fresh_world
    = (Ret (Monitor.RangeDone st'), w') /\
    tiles 0 60000 (Monitor.retrieved st') /\
    Monitor.chunk_size st' = Monitor.BLOCK_CHUNK_SIZE.
Proof.
  apply (answered_scan_tiles_the_range quiet_net 60000 0 fresh_world).
  intros a b n. exists 0%nat, 200, []. split_and!.
  - vm_compute. lia.
  - intros i Hi. lia.
  - reflexivity.
  - reflexivity.
Defined.

(** ** The execution commands, continued *)

Section command_facts.
Variable get_paused : bool.
Variable balance_wei : option Z.
Variable fetched : outcome (list Tx).
Variable lookup : Z -> option FeedTx.
Variable execute : FeedTx -> exec_result.

#[local] Abbreviation command :=
  (Hot.run_execute_command get_paused balance_wei fetched lookup execute).

(** The journal of the part after the signature check: nothing, one
    message, or one submission of the record found and its report. *)
Lemma submit_lowest_journal check_balance allow balance (lowest : Tx) decoded :
  let sent :=
    (Hot.submit_lowest lookup execute check_balance allow balance lowest
       decoded).1 in
  (exists text, sent = [] \/ sent = [Send text]) \/
  exists t text, lookup (nonce lowest) = Some t /\
                 sent = [Submit (nonce t); Send text].
Proof.
  unfold Hot.submit_lowest. cbv zeta.
  destruct (match decoded with Some _ => _ | None => _ end) as [amount|];
    [|left; exists ""; by left].
  destruct (_ && _); [left; eexists; by right|].
  destruct (lookup (nonce lowest)) as [t|]; [|left; eexists; by right].
  right. by eexists t, _.
Qed.

Lemma command_journal message check_pause check_balance allow :
  let sent := (command message check_pause check_balance allow).1 in
  (submissions sent = 0)%nat \/
  exists transactions (lowest : Tx) rest t text,
    fetched = Ret transactions /\
    Normalizer.filter_and_sort_pending_transactions transactions
    = lowest :: rest /\
    lookup (nonce lowest) = Some t /\
    sent = [Send message; Submit (nonce t); Send text].
Proof.
  unfold Hot.run_execute_command. cbv zeta.
  destruct (check_pause && get_paused); [by left|].
  destruct fetched as [transactions|e]; [|by left].
  destruct (Normalizer.filter_and_sort_pending_transactions transactions)
    as [|lowest rest] eqn:Hpending; [by left|].
  destruct (negb allow && _); [by left|].
  destruct (_ <? _); [by left|].
  pose proof (submit_lowest_journal check_balance allow
                (rounded_balance balance_wei) lowest
                (decode_if_present (data lowest))) as Hsent.
  destruct (Hot.submit_lowest _ _ _ _ _ _ _) as [evs r]. simpl in *.
  destruct Hsent as [(text & [->| ->])|(t & text & Ht & ->)];
    [by left|by left|].
  right. by exists transactions, lowest, rest, t, text.
Qed.

End command_facts.

(** X9. Whatever its flags and whatever it meets, an execution command
    calls [execute_transaction] at most once, and only on the record
    found for the lowest nonce of the normalized queue. *)
Theorem command_submits_lowest_at_most_once
    (get_paused : bool) (balance_wei : option Z) (fetched : outcome (list Tx))
    (lookup : Z -> option FeedTx) (execute : FeedTx -> exec_result)
    (message : string) (check_pause check_balance allow : bool) :
  (submissions
     (Hot.run_execute_command get_paused balance_wei fetched lookup execute
        message check_pause check_balance allow).1 <= 1)%nat /\
  forall n,
    Submit n ∈ (Hot.run_execute_command get_paused balance_wei fetched lookup
                  execute message check_pause check_balance allow).1 ->
    exists transactions (lowest : Tx) rest t,
      fetched = Ret transactions /\
      Normalizer.filter_and_sort_pending_transactions transactions
      = lowest :: rest /\
      lookup (nonce lowest) = Some t /\ n = nonce t.
Proof.
  set (sent := (Hot.run_execute_command get_paused balance_wei fetched lookup
                  execute message check_pause check_balance allow).1).
  destruct (command_journal get_paused balance_wei fetched lookup execute
              message check_pause check_balance allow)
    as [Hnone|(transactions & lowest & rest & t & text & Hf & Hp & Ht & Hsent)];
    fold sent in Hnone || fold sent in Hsent.
  - split; [lia|]. intros n Hin. exfalso.
    unfold submissions in Hnone.
    assert (Submit n ∈ List.filter is_submit sent) as Hfiltered
      by (apply list_elem_of_In, List.filter_In;
          split; [by apply list_elem_of_In|done]).
    destruct (List.filter is_submit sent); [by apply elem_of_nil in Hfiltered|].
    discriminate.
  - rewrite Hsent. split; [unfold submissions; simpl; lia|].
    intros n Hin. exists transactions, lowest, rest, t.
    split_and!; try done.
    repeat (apply elem_of_cons in Hin as [Hin|Hin]); try discriminate.
    + by injection Hin.
    + by apply elem_of_nil in Hin.
Qed.

(** X10. The balance check stops [!execute] and [!shikai] and nothing
    else: when the lowest pending transaction has its signatures and asks
    for more than the rounded balance, these two commands end with the
    insufficient-balance message without looking the transaction up, while
    [!bankai] and [!shukai9000] submit the record found for its nonce. *)
Theorem balance_check_stops_execute_and_shikai
    (get_paused : bool) (balance_wei : option Z) (transactions : list Tx)
    (lookup : Z -> option FeedTx) (execute : FeedTx -> exec_result)
    (lowest : Tx) (rest : list Tx) (d : Decoder.DecodedPayload)
    (amount : PyFloat.float) :
  Normalizer.filter_and_sort_pending_transactions transactions
  = lowest :: rest ->
  decode_if_present (data lowest) = Some d ->
  Decoder.float_of_value (Decoder.amountInTokens d) = Some amount ->
  PyFloat.leb_ratio amount (rounded_balance balance_wei) 10 = false ->
  confirmations_required lowest <= signature_count lowest ->
  (forall command,
     command ∈ [Hot.execute false; Hot.force_execute get_paused] ->
     exists intro,
       command balance_wei (Ret transactions) lookup execute
       = ([Send intro;
           Send (Hot.insufficient_balance_text (nonce lowest)
                   (signature_count lowest) (confirmations_required lowest)
                   amount (rounded_balance balance_wei))],
          Ret tt)) /\
  (forall command t,
     command ∈ [Hot.force_execute_no_checks get_paused;
                Hot.ultimate_force_execute get_paused] ->
     lookup (nonce lowest) = Some t ->
     exists intro report,
       command balance_wei (Ret transactions) lookup execute
       = ([Send intro; Submit (nonce t); Send report], Ret tt)).
Proof.
  intros Hpending Hd Hamount Hshort Hsig.
  assert ((signature_count lowest <? confirmations_required lowest) = false)
    as Hltb by (apply Z.ltb_ge; lia).
  split.
  - intros command Hcommand.
    repeat (apply elem_of_cons in Hcommand as [->|Hcommand]);
      [| |by apply elem_of_nil in Hcommand].
    all: unfold Hot.execute, Hot.force_execute, Hot.run_execute_command.
    all: cbn [andb]; rewrite Hpending, Hd, Hltb.
    all: cbn [negb andb bool_decide decide_rel]; unfold Hot.submit_lowest.
    all: rewrite Hamount, Hshort; cbn [negb andb].
    all: by eexists.
  - intros command t Hcommand Ht.
    repeat (apply elem_of_cons in Hcommand as [->|Hcommand]);
      [| |by apply elem_of_nil in Hcommand].
    all: unfold Hot.force_execute_no_checks, Hot.ultimate_force_execute,
           Hot.run_execute_command.
    all: cbn [andb]; rewrite Hpending, Hd, Hltb.
    all: cbn [negb andb bool_decide decide_rel]; unfold Hot.submit_lowest.
    all: rewrite Hamount, Ht; cbn [negb andb].
    all: by eexists _, _.
Qed.

Lemma balance_check_stops_execute_and_shikai_witness :
  (exists intro,
     Hot.execute false (Some (10 ^ 21)) (Ret [ready_tx])
       (fun _ => Some (feed ready_tx)) (fun _ => ExecReceipt true "0xbeef")
     = ([Send intro;
         Send (Hot.insufficient_balance_text 5 1 1 (PyFloat.of_Z 2500)
                 10000)],
        Ret tt)) /\
  (exists intro report,
     Hot.force_execute_no_checks true (Some (10 ^ 21)) (Ret [ready_tx])
       (fun _ => Some (feed ready_tx)) (fun _ => ExecReceipt true "0xbeef")
     = ([Send intro; Submit 5; Send report], Ret tt)).
Proof.
  destruct (balance_check_stops_execute_and_shikai true (Some (10 ^ 21))
              [ready_tx] (fun _ => Some (feed ready_tx))
              (fun _ => ExecReceipt true "0xbeef") ready_tx []
              (Decoder.mkPayload (VStr "7") (VStr "2500.0"))
              (PyFloat.of_Z 2500))
    as [Hstopped Hforced].
  - vm_compute. reflexivity.
  - vm_compute. reflexivity.
  - vm_compute. reflexivity.
  - vm_compute. reflexivity.
  - vm_compute. discriminate.
  - split.
    + apply (Hstopped (Hot.execute false)). apply list_elem_of_here.
    + apply (Hforced (Hot.force_execute_no_checks true) (feed ready_tx)).
      * apply list_elem_of_here.
      * reflexivity.
Defined.

(** X11. A lowest pending transaction whose calldata is missing or does
    not decode is rejected by [!execute], [!shikai] and [!bankai] with the
    decode-failure message, and submitted by [!shukai9000] alone, whatever
    the balance: the record found for its nonce goes to
    [execute_transaction], and the report says that there is no decodable
    data. *)
Theorem undecodable_payload_only_shukai_submits
    (get_paused : bool) (balance_wei : option Z) (transactions : list Tx)
    (lookup : Z -> option FeedTx) (execute : FeedTx -> exec_result)
    (lowest : Tx) (rest : list Tx) (t : FeedTx) :
  Normalizer.filter_and_sort_pending_transactions transactions
  = lowest :: rest ->
  decode_if_present (data lowest) = None ->
  confirmations_required lowest <= signature_count lowest ->
  lookup (nonce lowest) = Some t ->
  (forall command,
     command ∈ [Hot.execute false; Hot.force_execute get_paused;
                Hot.force_execute_no_checks get_paused] ->
     exists intro,
       command balance_wei (Ret transactions) lookup execute
       = ([Send intro; Send (Hot.decode_failure_text (nonce lowest))],
          Ret tt)) /\
  exists intro,
    Hot.ultimate_force_execute get_paused balance_wei (Ret transactions)
      lookup execute
    = ([Send intro; Submit (nonce t);
        Send (if succeeded (execute t)
              then Hot.executed_text (nonce lowest)
                     ("- **No decodeable data**" ++ Monitor.nl)
                     (hash_of (execute t))
              else "❌ Transaction " ++ Py.str_of_Z (nonce lowest)
                   ++ " could not be executed.")],
       Ret tt).
Proof.
  intros Hpending Hd Hsig Ht.
  assert ((signature_count lowest <? confirmations_required lowest) = false)
    as Hltb by (apply Z.ltb_ge; lia).
  split.
  - intros command Hcommand.
    repeat (apply elem_of_cons in Hcommand as [->|Hcommand]);
      [| | |by apply elem_of_nil in Hcommand].
    all: unfold Hot.execute, Hot.force_execute, Hot.force_execute_no_checks,
           Hot.run_execute_command.
    all: cbn [andb]; rewrite Hpending, Hd.
    all: by eexists.
  - unfold Hot.ultimate_force_execute, Hot.run_execute_command.
    cbn [andb]. rewrite Hpending, Hd, Hltb.
    cbn [negb andb]. unfold Hot.submit_lowest. rewrite Ht.
    cbn [negb andb]. by eexists.
Qed.

Lemma undecodable_payload_only_shukai_submits_witness :
  (exists intro,
     Hot.force_execute_no_checks true (Some (10 ^ 21))
       (Ret [plain_transfer_tx]) (fun _ => Some (feed plain_transfer_tx))
       (fun _ => ExecReceipt true "0xbeef")
     = ([Send intro; Send (Hot.decode_failure_text 6)], Ret tt)) /\
  (exists intro,
     Hot.ultimate_force_execute true (Some (10 ^ 21))
       (Ret [plain_transfer_tx]) (fun _ => Some (feed plain_transfer_tx))
       (fun _ => ExecReceipt true "0xbeef")
     = ([Send intro; Submit 6;
         Send (Hot.executed_text 6 ("- **No decodeable data**" ++ Monitor.nl)
                 "0xbeef")],
        Ret tt)).
Proof.
  destruct (undecodable_payload_only_shukai_submits true (Some (10 ^ 21))
              [plain_transfer_tx] (fun _ => Some (feed plain_transfer_tx))
              (fun _ => ExecReceipt true "0xbeef") plain_transfer_tx []
              (feed plain_transfer_tx))
    as [Hrejected Hsubmitted].
  - vm_compute. reflexivity.
  - reflexivity.
  - vm_compute. discriminate.
  - reflexivity.
  - split.
    + apply (Hrejected (Hot.force_execute_no_checks true)).
      do 2 apply list_elem_of_further. apply list_elem_of_here.
    + exact Hsubmitted.
Defined.

(** ** The periodic tick, continued *)

Section journal_facts.
Import Engine.
Variable results : nat -> exec_result.
Variable writes : nat -> option bool.

Lemma no_submissions_elem l k : submissions l = 0%nat -> Submit k ∉ l.
Proof.
  unfold submissions. intros Hnone Hin.
  assert (Submit k ∈ List.filter is_submit l) as Hfiltered
    by (apply list_elem_of_In, List.filter_In;
        split; [by apply list_elem_of_In|done]).
  destruct (List.filter is_submit l); [by apply elem_of_nil in Hfiltered|].
  discriminate.
Qed.

Lemma grown_calm n st st' : calm st st' -> grown n st st'.
Proof.
  intros [He (added & Hj & Hs)]. exists added.
  split_and!; [done|lia|]. intros k Hin. by apply no_submissions_elem in Hin.
Qed.

Lemma grown_trans n st1 st2 st3 :
  grown n st1 st2 -> grown n st2 st3 -> grown n st1 st3.
Proof.
  intros (a1 & Hj1 & He1 & Hn1) (a2 & Hj2 & He2 & Hn2).
  exists (a1 ++ a2)%list. rewrite Hj2, Hj1, <- app_assoc, submissions_app.
  split_and!; [done|lia|].
  intros k [?|?]%elem_of_app; auto.
Qed.

(** The retry loop journals each of its calls, all for the nonce it was
    given. *)
Lemma attempt_loop_grown remaining attempts n v a st :
  grown n st (attempt_loop results writes remaining attempts n v a st).
Proof.
  revert attempts st.
  induction remaining as [|m IH]; intros attempts st; cbn [attempt_loop].
  - apply grown_calm, (quiet_calm writes). quiet_chain.
  - destruct (paused st) eqn:Hp;
      [apply grown_calm, (quiet_calm writes); quiet_chain|].
    set (st0 := mkAutomation _ _ (S (executions st)) _ _).
    assert (grown n st st0) as Hcall.
    { exists [Submit n]. subst st0. cbn [journal executions].
      split_and!; [done|unfold submissions; simpl; lia|].
      intros k Hin. apply list_elem_of_singleton in Hin. by injection Hin. }
    destruct (succeeded _).
    + eapply grown_trans; [exact Hcall|].
      apply grown_calm, (quiet_calm writes), quiet_broadcast.
    + eapply grown_trans; [exact Hcall|].
      eapply grown_trans; [|apply IH].
      apply grown_calm, (quiet_calm writes), quiet_after_failure.
Qed.

Lemma broadcasts_sent chunks st chunk :
  chunk ∈ chunks ->
  Send chunk
    ∈ journal (foldl (fun st chunk => broadcast writes chunk st) st chunks).
Proof.
  revert st. induction chunks as [|c chunks IH]; intros st Hin; simpl.
  - by apply elem_of_nil in Hin.
  - apply elem_of_cons in Hin as [->|Hin]; [|by apply IH].
    eapply calm_elem; [apply (quiet_calm writes), quiet_broadcasts|].
    cbn. apply elem_of_app. right. apply list_elem_of_here.
Qed.

End journal_facts.

Section tick_more.
Import Engine.
Variable probe : outcome (bool * string).
Variable chunks : string -> list string.
Variable balance_wei : option Z.
Variable fetched : outcome (list Tx).
Variable report : outcome string.
Variable lookup : Z -> option FeedTx.
Variable results : nat -> exec_result.
Variable writes : nat -> option bool.
Variable safe : option string.

#[local] Abbreviation recheck' :=
  (periodic_recheck probe chunks balance_wei fetched report lookup results
     writes safe).

(** What a tick adds to the journal: no submission at all, or the
    submissions of the retry loop for the lowest nonce of the queue, which
    then has its signatures, decodes to an amount within the balance, and
    was found by the lookup. *)
Lemma tick_grown st :
  calm st (recheck' st) \/
  exists transactions (lowest : Tx) rest d,
    fetched = Ret transactions /\
    Normalizer.filter_and_sort_pending_transactions transactions
    = lowest :: rest /\
    decode_if_present (data lowest) = Some d /\
    confirmations_required lowest <= signature_count lowest /\
    grown (nonce lowest) st (recheck' st).
Proof.
  destruct (tick_prefix probe chunks balance_wei fetched report lookup
              results writes safe st)
    as [[Hq _]|(transactions & st_gate & Hf & Hg & _ & ->)];
    [left; by apply (quiet_calm writes)|].
  destruct (execute_lowest_shape lookup results writes
              (rounded_balance balance_wei)
              (Normalizer.filter_and_sort_pending_transactions transactions)
              st_gate)
    as [Hq|(lowest & rest & d & amount & st1 & Hp & Hd & Hsig & Hq1 & _ & ->)].
  - left. apply (quiet_calm writes). by eapply quiet_trans.
  - right. exists transactions, lowest, rest, d.
    split_and!; try done.
    eapply grown_trans; [|apply attempt_loop_grown].
    apply grown_calm, (quiet_calm writes). by eapply quiet_trans.
Qed.

(** A tick whose probe raises the alert, and during which nobody resumes
    automation, sends the alert, ends paused and submits nothing. *)
Lemma tick_alert st msg :
  probe = Ret (true, msg) ->
  (forall k, writes k <> Some false) ->
  calm st (recheck' st) /\ paused (recheck' st) = true /\
  forall chunk, chunk ∈ chunks msg -> Send chunk ∈ journal (recheck' st).
Proof.
  intros Hprobe Hno. unfold periodic_recheck. cbv zeta. rewrite Hprobe.
  match goal with |- context [set_paused true ?s] =>
    set (st_a := set_paused true s);
    assert (quiet writes st st_a) as Hqa by (subst st_a; quiet_chain);
    assert (paused st_a = true) as Hpa by reflexivity;
    assert (forall chunk, chunk ∈ chunks msg -> Send chunk ∈ journal st_a)
      as Hsent by (intros chunk Hin; subst st_a; cbn [journal set_paused];
                   by apply broadcasts_sent)
  end.
  clearbody st_a.
  match goal with |- calm _ ?s /\ _ =>
    cut (quiet writes st_a s)
  end.
  { intros Hq. split_and!.
    - apply (quiet_calm writes). by eapply quiet_trans.
    - by apply (proj2 Hq).
    - intros chunk Hin. eapply calm_elem; [apply (quiet_calm writes), Hq|].
      by apply Hsent. }
  destruct fetched as [transactions|e]; [|quiet_chain].
  match goal with |- context [list_pending ?b ?p ?s] =>
    set (st_in := s);
    assert (quiet writes st_a st_in) as Hin by (subst st_in; quiet_chain);
    pose proof (quiet_list_pending writes b p st_in) as Hq;
    remember (list_pending b p st_in) as listed eqn:Hlist
  end.
  clearbody st_in. destruct listed as [st_listed [e|]]; simpl in Hq.
  { eapply quiet_trans; [|apply quiet_recover]. by eapply quiet_trans. }
  destruct report as [text|e]; cycle 1.
  { eapply quiet_trans; [|apply quiet_recover]. by eapply quiet_trans. }
  match goal with |- quiet _ _ (execute_lowest _ _ _ ?b ?p ?s) =>
    assert (quiet writes st_a s) as Hgate
      by (eapply quiet_trans; [|apply quiet_set_report];
          by eapply quiet_trans);
    destruct (execute_lowest_shape lookup results writes b p s)
      as [Hshape|(lowest & rest & d & amount & st1 & _ & _ & _ & Hq1 & Hp1
                  & _)]
  end.
  - by eapply quiet_trans.
  - pose proof (proj2 (quiet_trans _ _ _ _ Hgate Hq1) Hno Hpa). congruence.
Qed.

End tick_more.

(** X12. A tick calls [execute_transaction] at most three times, whatever
    it meets, and its journal shows every call. *)
Theorem tick_submits_at_most_three (e : surroundings)
    (st : Engine.automation) :
  exists added,
    Engine.journal (tick e st) = (Engine.journal st ++ added)%list /\
    (Engine.executions st + submissions added)%nat
    = Engine.executions (tick e st) /\
    (submissions added <= 3)%nat.
Proof.
  pose proof (tick_bound (probe_outcome e) (message_chunks e) (balance_wei e)
                (feed_outcome e) (report_outcome e) (found_by_nonce e)
                (execution_results e) (flag_writes e) (safe_address e) st) as Hbound.
  destruct (tick_grown (probe_outcome e) (message_chunks e) (balance_wei e)
              (feed_outcome e) (report_outcome e) (found_by_nonce e)
              (execution_results e) (flag_writes e) (safe_address e) st)
    as [Hcalm|(? & lowest & ? & ? & _ & _ & _ & _ & Hgrown)].
  - apply (grown_calm 0) in Hcalm as (added & Hj & He & _).
    exists added. unfold tick. split_and!; [done|done|lia].
  - destruct Hgrown as (added & Hj & He & _).
    exists added. unfold tick. split_and!; [done|done|lia].
Qed.

(** X13. A tick executes nothing but the lowest nonce of the normalized
    queue: every call of [execute_transaction] that it journals is for
    that nonce, and the transaction then has the signatures it requires
    and calldata that decodes. *)
Theorem tick_executes_only_the_lowest_nonce (e : surroundings)
    (st : Engine.automation) :
  exists added,
    Engine.journal (tick e st) = (Engine.journal st ++ added)%list /\
    forall k, Submit k ∈ added ->
      exists transactions (lowest : Tx) rest d,
        feed_outcome e = Ret transactions /\
        Normalizer.filter_and_sort_pending_transactions transactions
        = lowest :: rest /\
        k = nonce lowest /\
        confirmations_required lowest <= signature_count lowest /\
        decode_if_present (data lowest) = Some d.
Proof.
  destruct (tick_grown (probe_outcome e) (message_chunks e) (balance_wei e)
              (feed_outcome e) (report_outcome e) (found_by_nonce e)
              (execution_results e) (flag_writes e) (safe_address e) st)
    as [Hcalm|(transactions & lowest & rest & d & Hf & Hp & Hd & Hsig
               & Hgrown)].
  - destruct Hcalm as [_ (added & Hj & Hs)]. exists added.
    split; [done|]. intros k Hin. by apply no_submissions_elem in Hin.
  - destruct Hgrown as (added & Hj & _ & Hn). exists added.
    split; [done|]. intros k Hin.
    exists transactions, lowest, rest, d. split_and!; try done. by apply Hn.
Qed.

(** X14. While automation is paused and nobody resumes it during the
    tick, the tick executes nothing and leaves automation paused. *)
Theorem paused_tick_executes_nothing (e : surroundings)
    (st : Engine.automation) :
  Engine.paused st = true -> no_resume e ->
  Engine.executions (tick e st) = Engine.executions st /\
  submissions (Engine.journal (tick e st))
  = submissions (Engine.journal st) /\
  Engine.paused (tick e st) = true.
Proof.
  intros Hp Hno.
  pose proof (tick_paused (probe_outcome e) (message_chunks e) (balance_wei e)
                (feed_outcome e) (report_outcome e) (found_by_nonce e)
                (execution_results e) (flag_writes e) (safe_address e) st Hno Hp)
    as [Hcalm Hstill].
  split_and!; [apply Hcalm|by apply calm_submissions|by apply Hstill].
Qed.

Lemma paused_tick_executes_nothing_witness :
  Engine.executions (tick healthy_tick halted) = Engine.executions halted /\
  submissions (Engine.journal (tick healthy_tick halted))
  = submissions (Engine.journal halted) /\
  Engine.paused (tick healthy_tick halted) = true.
Proof.
  apply (paused_tick_executes_nothing healthy_tick halted).
  - reflexivity.
  - intros k. simpl. discriminate.
Defined.

(** X15. A tick whose deposit probe raises the alert sends every chunk of
    the alert message, and, unless somebody resumes automation during
    that tick, it ends paused without having executed anything, whether
    automation was paused before or not. *)
Theorem deposit_alert_pauses_the_tick (e : surroundings)
    (st : Engine.automation) (msg : string) :
  probe_outcome e = Ret (true, msg) -> no_resume e ->
  Engine.paused (tick e st) = true /\
  Engine.executions (tick e st) = Engine.executions st /\
  submissions (Engine.journal (tick e st))
  = submissions (Engine.journal st) /\
  forall chunk, chunk ∈ message_chunks e msg ->
    Send chunk ∈ Engine.journal (tick e st).
Proof.
  intros Hprobe Hno.
  destruct (tick_alert (probe_outcome e) (message_chunks e) (balance_wei e)
              (feed_outcome e) (report_outcome e) (found_by_nonce e)
              (execution_results e) (flag_writes e) (safe_address e) st msg Hprobe Hno)
    as (Hcalm & Hp & Hsent).
  split_and!; [done|apply Hcalm|by apply calm_submissions|done].
Qed.

Lemma deposit_alert_pauses_the_tick_witness :
  Engine.paused (tick alarmed_tick running) = true /\
  Engine.executions (tick alarmed_tick running) = Engine.executions running /\
  submissions (Engine.journal (tick alarmed_tick running))
  = submissions (Engine.journal running) /\
  forall chunk, chunk ∈ message_chunks alarmed_tick "alert" ->
    Send chunk ∈ Engine.journal (tick alarmed_tick running).
Proof.
  apply (deposit_alert_pauses_the_tick alarmed_tick running "alert").
  - reflexivity.
  - intros k. simpl. discriminate.
Defined.

(** ** The deposit probe, continued *)



(** ** The alert threshold *)

Section threshold_facts.
Import PyFloat.

(** When a lower bound holds for the mantissa, it holds for the float. *)
Lemma geb_ratio_mk (m e T : Z) :
  (if 0 <=? e then T <= m * 2 ^ e else T * 2 ^ (- e) <= m) ->
  geb_ratio (mkFloat m e) T 1 = true.
Proof.
  unfold geb_ratio, to_ratio, scaled. cbn [fm fe].
  destruct (Z.leb_spec 0 e); destruct (Z.leb_spec 0 (- e));
    intros Hm; apply Z.leb_le; try lia.
  - assert (e = 0) as -> by lia. change (- 0) with 0.
    rewrite Z.pow_0_r in *. lia.
  - replace (- - e) with e by lia. lia.
Qed.

(** Rounding to nearest never goes below a bound that the quotient
    rounded down respects. *)
Lemma round_step_ge (a b e T : Z) :
  0 <= T ->
  (if 0 <=? e then T <= (a / b) * 2 ^ e else T * 2 ^ (- e) <= a / b) ->
  (if 0 <=? e + 1 then T <= 2 ^ 52 * 2 ^ (e + 1)
   else T * 2 ^ (- (e + 1)) <= 2 ^ 52) ->
  let q := a / b in
  let r := a mod b in
  let q' :=
    if b <? 2 * r then q + 1
    else if 2 * r =? b then (if Z.even q then q else q + 1)
    else q in
  geb_ratio
    (if q' =? 2 ^ 53 then mkFloat (2 ^ 52) (e + 1) else mkFloat q' e) T 1
  = true.
Proof.
  intros HT Hq Htop q r q'.
  assert (q <= q') as Hle.
  { subst q'. destruct (b <? 2 * r); [lia|].
    destruct (2 * r =? b); [|lia]. destruct (Z.even q); lia. }
  destruct (q' =? 2 ^ 53); apply geb_ratio_mk; [done|].
  fold q in Hq. destruct (0 <=? e) eqn:He; [|lia].
  apply Z.leb_le in He.
  assert (0 < 2 ^ e) by (apply Z.pow_pos_nonneg; lia). nia.
Qed.

(** An amount of at least [10^23] wei is at or above the threshold once
    divided by [10^18] in floating point. *)
Lemma truediv_large (wei : Z) :
  10 ^ 23 <= wei ->
  Monitor.large (truediv wei Monitor.DECIMALS) = true.
Proof.
  intros Hwei. unfold Monitor.large, truediv, round_ratio.
  destruct (Z.leb_spec wei 0); [lia|].
  change (Z.log2 Monitor.DECIMALS) with 59.
  assert (76 <= Z.log2 wei) as Hlog.
  { change 76 with (Z.log2 (10 ^ 23)). by apply Z.log2_le_mono. }
  pose proof (Z.log2_spec wei ltac:(lia)) as [Hlo Hhi].
  set (L := Z.log2 wei) in *.
  set (e0 := L - 59 - 53).
  destruct (scaled wei Monitor.DECIMALS e0) as [a0 b0].
  set (e := if 2 ^ 53 <=? a0 / b0 then e0 + 1 else e0).
  assert (L - 112 <= e <= L - 111) as He
    by (subst e e0; destruct (_ <=? _); lia).
  clearbody e. clear a0 b0.
  unfold scaled, Monitor.FLAG_THRESHOLD.
  assert (Monitor.DECIMALS = 10 ^ 18) as HD by reflexivity.
  destruct (Z.leb_spec 0 e) as [Hpos|Hneg].
  - apply round_step_ge; [lia| |].
    + assert ((0 <=? e) = true) as -> by (apply Z.leb_le; lia).
      assert (2 ^ 51 <= wei / (Monitor.DECIMALS * 2 ^ e)) as Hq.
      { apply Z.div_le_lower_bound.
        - rewrite HD. assert (0 < 2 ^ e) by (apply Z.pow_pos_nonneg; lia). lia.
        - assert (2 ^ e <= 2 ^ (L - 111)) by (apply Z.pow_le_mono_r; lia).
          assert (2 ^ L = 2 ^ 111 * 2 ^ (L - 111)) as HL.
          { rewrite <- Z.pow_add_r by lia. f_equal. lia. }
          assert (Monitor.DECIMALS * 2 ^ 51 <= 2 ^ 111)
            by (vm_compute; discriminate).
          assert (0 < 2 ^ e) by (apply Z.pow_pos_nonneg; lia).
          nia. }
      assert (1 <= 2 ^ e) by (apply (Z.pow_le_mono_r 2 0 e); lia).
      assert (100000 <= 2 ^ 51) by (vm_compute; discriminate).
      nia.
    + assert ((0 <=? e + 1) = true) as -> by (apply Z.leb_le; lia).
      assert (1 <= 2 ^ (e + 1)) by (apply (Z.pow_le_mono_r 2 0 (e + 1)); lia).
      assert (100000 <= 2 ^ 52) by (vm_compute; discriminate).
      nia.
  - apply round_step_ge; [lia| |].
    + assert ((0 <=? e) = false) as -> by (apply Z.leb_gt; lia).
      apply Z.div_le_lower_bound; [rewrite HD; lia|].
      assert (0 < 2 ^ (- e)) by (apply Z.pow_pos_nonneg; lia).
      rewrite HD.
      assert (10 ^ 18 * 100000 = 10 ^ 23) as Hten by reflexivity.
      nia.
    + assert (2 ^ (- (e + 1)) <= 2 ^ 35) as Hsmall
        by (apply Z.pow_le_mono_r; lia).
      assert (100000 * 2 ^ 35 <= 2 ^ 52) by (vm_compute; discriminate).
      destruct (Z.leb_spec 0 (e + 1)).
      * assert (e + 1 = 0) as -> by lia. vm_compute. discriminate.
      * lia.
Qed.

End threshold_facts.

Section alert_facts.
Import Monitor.
Variable net : network.

(** The loop over the logs classifies every log, and ends with the alert
    flag set exactly when it was set before or some log is large. *)
Lemma process_deposits_alert logs a0 m0 l0 a m l :
  process_deposits logs (a0, m0, l0) = Ret (a, m, l) ->
  Forall (fun d => exists h s x, classify d = Ret (h, s, x)) logs /\
  (a = true <->
   a0 = true \/
   exists d h s x, d ∈ logs /\ classify d = Ret (h, s, x) /\ large x = true).
Proof.
  revert a0 m0 l0.
  induction logs as [|d logs IH]; intros a0 m0 l0; simpl.
  - intros [= <- <- <-]. split; [constructor|]. split; [by left|].
    intros [?|(d & h & s & x & Hin & _)]; [done|by apply elem_of_nil in Hin].
  - destruct (classify d) as [[[h s] x]|] eqn:Hc; simpl; [|discriminate].
    destruct (block_of d) as [b|]; simpl; [|discriminate].
    destruct (large x) eqn:Hlarge; intros [Hall Hiff]%IH.
    all: split; [constructor; [by exists h, s, x|done]|].
    all: rewrite Hiff; split.
    + intros _. right. exists d, h, s, x.
      split_and!; [apply list_elem_of_here|done..].
    + by left.
    + intros [?|(d' & h' & s' & x' & Hin & Hc' & Hl')]; [by left|].
      right. exists d', h', s', x'.
      split_and!; [by apply list_elem_of_further|done..].
    + intros [?|(d' & h' & s' & x' & Hin & Hc' & Hl')]; [by left|].
      apply elem_of_cons in Hin as [->|Hin]; [congruence|].
      right. by exists d', h', s', x'.
Qed.

(** A check that returns a checkpoint has read the logs of one answer of
    the service, and raised the alert exactly when one of them is large. *)
Lemma check_alert start_block w alert msg final w' :
  check_large_deposits_with_block net start_block w
  = (Ret (alert, msg, Some final), w') ->
  exists start head k status logs,
    (forall b, start_block = Some b -> start = b) /\
    (requests_sent w <= k < requests_sent w')%nat /\
    getLogs net start head k = Response status (JsonObject (Some logs)) /\
    Forall (fun d => exists h s x, classify d = Ret (h, s, x)) logs /\
    (alert = true <->
     exists d h s x,
       d ∈ logs /\ classify d = Ret (h, s, x) /\ large x = true).
Proof.
  unfold check_large_deposits_with_block.
  intros (resolved & w0 & Hresolve & Hrest)%bind_inv.
  assert (frame w w0 /\
          forall b, start_block = Some b -> resolved = Some b) as [Hf0 Hstart].
  { destruct start_block as [b|].
    - unfold_io. injection Hresolve as <- <-.
      split; [apply frame_refl|]. by intros ? [= ->].
    - split; [|done].
      apply bind_inv in Hresolve as (now & wa & Ha & Hresolve).
      unfold time in Ha. injection Ha as <- <-.
      apply bind_inv in Hresolve
        as (resp & wb & Hb%make_request_frame & Hresolve).
      destruct resp as [body|].
      + apply bind_inv in Hresolve as (r & wc & [_ ->]%run_inv & Hresolve).
        apply bind_inv in Hresolve as (b & wd & [_ ->]%lift_inv & Hresolve).
        unfold_io. by injection Hresolve as <- <-.
      + unfold_io. by injection Hresolve as <- <-. }
  destruct resolved as [start|]; [|unfold_io; discriminate].
  apply bind_inv in Hrest as (head_resp & w1 & Hhead & Hrest).
  pose proof (make_request_frame _ _ _ _ Hhead) as Hf1.
  destruct head_resp as [head_body|]; [|unfold_io; discriminate].
  apply bind_inv in Hrest as (r & w1' & [Hr ->]%run_inv & Hrest).
  apply bind_inv in Hrest as (head & w1' & [Hhd ->]%lift_inv & Hrest).
  apply bind_inv in Hrest as (logs_resp & w2 & Hlogs & Hrest).
  destruct logs_resp as [logs_body|]; [|unfold_io; discriminate].
  apply make_request_Some in Hlogs as (k & status & Hk & Hkurl & Hfound).
  apply bind_inv in Hrest as (logs & w2' & [Hget ->]%run_inv & Hrest).
  apply bind_inv in Hrest as (last & w3 & Hlast & Hrest).
  apply bind_inv in Hrest as ([[alert' msgs] last'] & w4 & [Hproc ->]%run_inv
                              & Hrest).
  assert (w3 = w2) as ->.
  { destruct logs as [|d rest].
    - unfold_io. by injection Hlast as <- <-.
    - apply bind_inv in Hlast as (b & wa & [_ ->]%run_inv & Hlast).
      by apply run_inv in Hlast as [_ ->]. }
  assert (alert = alert' /\ w' = w2) as [-> ->].
  { destruct alert'; unfold_io; by injection Hrest as <- <- <- <-. }
  destruct logs_body as [|[logs0|]| | |]; try discriminate.
  simpl in Hget. injection Hget as ->.
  apply process_deposits_alert in Hproc as [Hall Hiff].
  exists start, head, k, status, logs.
  destruct Hf0 as (_ & _ & Hle0), Hf1 as (_ & _ & Hle1).
  split_and!; [|lia|lia|done|done|].
  - intros b Hb. specialize (Hstart b Hb). by injection Hstart.
  - rewrite Hiff. split; [intros [?|?]; done|by right].
Qed.

End alert_facts.

(** X17. No large deposit slips through a completed check: when
    [check_large_deposits_with_block] returns a checkpoint, it has read
    the logs of one answer of the service to its log query, the alert is
    raised exactly when the amount of one of these logs, divided by
    [10^18] in floating point, is at or above the threshold, and it is
    raised whenever a log carries at least [10^23] wei (100000 tokens). *)
Theorem large_deposit_raises_the_alert (net : Monitor.network)
    (start_block : option Z) (w w' : world) (alert : bool) (msg : string)
    (final : Z) :
  Monitor.check_large_deposits_with_block net start_block w
  = (Ret (alert, msg, Some final), w') ->
  exists start head k status logs,
    (forall b, start_block = Some b -> start = b) /\
    (requests_sent w <= k < requests_sent w')%nat /\
    Monitor.getLogs net start head k
    = Response status (Monitor.JsonObject (Some logs)) /\
    (alert = true <->
     exists d h s x,
       d ∈ logs /\ Monitor.classify d = Ret (h, s, x) /\
       Monitor.large x = true) /\
    (forall d wei,
       d ∈ logs ->
       Py.int16 (Py.take 66 (default "0x0" (Monitor.log_data d))) = Some wei ->
       10 ^ 23 <= wei ->
       alert = true).
Proof.
  intros (start & head & k & status & logs & Hstart & Hk & Hurl & Hall
          & Hiff)%check_alert.
  exists start, head, k, status, logs. split_and!; try done; try lia.
  intros d wei Hin Hwei Hlarge. apply Hiff.
  rewrite Forall_forall in Hall. destruct (Hall d Hin) as (h & s & x & Hc).
  exists d, h, s, x. split_and!; [done|done|].
  unfold Monitor.classify in Hc.
  destruct (Monitor.topics d) as [|t0 [|t1 ts]]; try discriminate.
  rewrite Hwei in Hc. injection Hc as _ _ <-. by apply truediv_large.
Qed.

Lemma large_deposit_raises_the_alert_witness :
  exists start head k status logs,
    (forall b, Some 101 = Some b -> start = b) /\
    (requests_sent world_at_100 <= k < 2)%nat /\
    Monitor.getLogs whale_net start head k
    = Response status (Monitor.JsonObject (Some logs)) /\
    (true = true <->
     exists d h s x,
       d ∈ logs /\ Monitor.classify d = Ret (h, s, x) /\
       Monitor.large x = true) /\
    (forall d wei,
       d ∈ logs ->
       Py.int16 (Py.take 66 (default "0x0" (Monitor.log_data d))) = Some wei ->
       10 ^ 23 <= wei ->
       true = true).
Proof.
  apply (large_deposit_raises_the_alert whale_net (Some 101) world_at_100
           (mkWorld 2 1700000002 [1; 1] (Some 100) WriteSucceeds) true
           whale_message
           112).
  vm_compute. reflexivity.
Defined.

(** ** Signature aggregation, continued *)

Section signature_more.
Import Signatures.

Lemma string_leb_antisym (a b : string) :
  String.leb a b = true -> String.leb b a = true -> a = b.
Proof.
  unfold String.leb. rewrite (String.compare_antisym a b).
  destruct (String.compare b a) eqn:Hc; simpl; try done.
  intros _ _. symmetry. by apply String.compare_eq_iff.
Qed.

Lemma same_key_same_confirmation (l : list Confirmation) x y :
  NoDup (sort_key <$> l) -> x ∈ l -> y ∈ l -> sort_key x = sort_key y ->
  x = y.
Proof.
  induction l as [|z l IH]; simpl; [by intros _ ?%elem_of_nil|].
  intros [Hz Hl]%NoDup_cons Hx Hy Hkey.
  apply elem_of_cons in Hx as [->|Hx], Hy as [->|Hy]; auto.
  - exfalso. apply Hz. rewrite Hkey. apply list_elem_of_fmap. by exists y.
  - exfalso. apply Hz. rewrite <- Hkey. apply list_elem_of_fmap. by exists x.
Qed.

(** With distinct keys there is one way to put the confirmations in
    order. *)
Lemma sorted_by_owner_unique (l1 l2 : list Confirmation) :
  NoDup (sort_key <$> l1) -> l1 ≡ₚ l2 ->
  StronglySorted owner_le l1 -> StronglySorted owner_le l2 -> l1 = l2.
Proof.
  intros Hnodup Hperm Hs1. revert l2 Hperm Hnodup.
  induction Hs1 as [|x l1 Hs1 IH Hx]; intros l2 Hperm Hnodup Hs2.
  - by apply Permutation_nil_l in Hperm.
  - destruct Hs2 as [|y l2 Hs2 Hy].
    { by apply Permutation_nil_r in Hperm. }
    rewrite Forall_forall in Hx, Hy.
    assert (x ∈ y :: l2) as Hxin by (rewrite <- Hperm; apply list_elem_of_here).
    assert (y ∈ x :: l1) as Hyin by (rewrite Hperm; apply list_elem_of_here).
    assert (x = y) as <-.
    { apply elem_of_cons in Hxin as [?|Hxin]; [done|].
      apply elem_of_cons in Hyin as [?|Hyin]; [done|].
      apply (same_key_same_confirmation (x :: l1)); [done| | |].
      - apply list_elem_of_here.
      - by apply list_elem_of_further.
      - apply string_leb_antisym; [by apply Hx|by apply Hy]. }
    f_equal. apply IH.
    + by apply Permutation_cons_inv in Hperm.
    + rewrite fmap_cons in Hnodup. by apply NoDup_cons in Hnodup as [_ ?].
    + done.
Qed.

(** One malformed signature makes the whole loop raise. *)
Lemma append_signatures_malformed l acc c :
  c ∈ l -> raw_signature c = None ->
  append_signatures acc l = Raise ValueError.
Proof.
  intros Hin Hraw. revert acc.
  induction l as [|d l IH]; intros acc; [by apply elem_of_nil in Hin|].
  cbn [append_signatures].
  apply elem_of_cons in Hin as [<-|Hin].
  - unfold append_signature, raw_signature in *.
    destruct (signature c) as [[|a s]|]; [done| |done].
    by rewrite Hraw.
  - specialize (IH Hin).
    destruct (append_signature acc d) as [acc'|e] eqn:Hd; simpl; [apply IH|].
    unfold append_signature in Hd.
    destruct (signature d) as [[|a s]|]; try discriminate.
    destruct (Py.fromhex (Py.drop 2 (String a s))); congruence.
Qed.

End signature_more.

(** X18. When the owners of the confirmations differ (compared without
    regard to case), the order in which the Safe API lists the
    confirmations does not matter: two transactions whose confirmations
    are permutations of each other give the same result, bytes or
    exception. *)
Theorem signature_order_is_irrelevant (tx tx' : FeedTx)
    (confs confs' : list Confirmation) :
  confirmations tx = Some confs ->
  confirmations tx' = Some confs' ->
  confs ≡ₚ confs' ->
  NoDup (Signatures.sort_key <$> confs) ->
  Signatures.collect_and_sort_signatures tx
  = Signatures.collect_and_sort_signatures tx'.
Proof.
  intros Hc Hc' Hperm Hnodup.
  assert (Signatures.sorted_by_owner confs = Signatures.sorted_by_owner confs')
    as Hsame.
  { apply sorted_by_owner_unique.
    - by rewrite sorted_by_owner_perm.
    - by rewrite !sorted_by_owner_perm.
    - apply sorted_by_owner_sorted.
    - apply sorted_by_owner_sorted. }
  unfold Signatures.collect_and_sort_signatures. rewrite Hc, Hc', Hsame.
  destruct confs as [|c confs], confs' as [|c' confs']; try done.
  all: first [by apply Permutation_nil_l in Hperm
             |by apply Permutation_nil_r in Hperm].
Qed.

Lemma signature_order_is_irrelevant_witness :
  Signatures.collect_and_sort_signatures signed_tx
  = Signatures.collect_and_sort_signatures signed_tx_reversed.
Proof.
  apply (signature_order_is_irrelevant signed_tx signed_tx_reversed
           (default [] (confirmations signed_tx))
           (default [] (confirmations signed_tx_reversed))).
  - reflexivity.
  - reflexivity.
  - simpl. apply Permutation_swap.
  - apply (bool_decide_unpack _). vm_compute. reflexivity.
Defined.

(** X19. One confirmation whose signature text is not two characters
    followed by hexadecimal digits makes [collect_and_sort_signatures]
    raise [ValueError], whatever the other confirmations are. *)
Theorem malformed_signature_raises (tx : FeedTx)
    (confs : list Confirmation) (c : Confirmation) :
  confirmations tx = Some confs ->
  c ∈ confs ->
  raw_signature c = None ->
  Signatures.collect_and_sort_signatures tx = Raise ValueError.
Proof.
  intros Hconfs Hin Hraw.
  unfold Signatures.collect_and_sort_signatures. rewrite Hconfs.
  destruct confs as [|c0 confs0] eqn:E; [by apply elem_of_nil in Hin|].
  rewrite <- E in *.
  rewrite (append_signatures_malformed _ _ c); [done| |done].
  by rewrite sorted_by_owner_perm.
Qed.

Lemma malformed_signature_raises_witness :
  Signatures.collect_and_sort_signatures garbled_tx = Raise ValueError.
Proof.
  apply (malformed_signature_raises garbled_tx
           (default [] (confirmations garbled_tx)) garbled_confirmation).
  - reflexivity.
  - simpl. apply list_elem_of_further, list_elem_of_here.
  - vm_compute. reflexivity.
Defined.

(** ** The executor *)

Section executor_facts.
Variable rpc : Executor.node.

(** One pass of the [try] body makes at most one request and does not
    sleep. *)
Lemma try_once_trace t w r w' :
  Executor.try_once rpc t w = (r, w') ->
  slept w' = slept w /\
  (requests_sent w <= requests_sent w' <= S (requests_sent w))%nat.
Proof.
  unfold Executor.try_once, Executor.send_to_safe.
  destruct t as [t|]; [|unfold_io; intros [= <- <-]; split; [done|lia]].
  destruct (_ || _); [unfold_io; intros [= <- <-]; split; [done|lia]|].
  unfold mbind, M_bind, Monitor.run, lift, mret, M_ret, throw.
  destruct (default _ _); [|intros [= <- <-]; split; [done|lia]].
  destruct (data (Executor.fields t)) as [s|];
    [destruct (Py.fromhex _) as [calldata|];
       [|intros [= <- <-]; split; [done|lia]]|].
  all: destruct (Executor.gas_price t);
         [|intros [= <- <-]; split; [done|lia]].
  all: destruct (Signatures.collect_and_sort_signatures _) as [[sigs|]|];
         [|intros [= <- <-]; split; [done|lia]..].
  all: destruct (Executor.exec_transaction rpc _ _ _) as [h|e];
         [|intros [= <- <-]; simpl; split; [done|lia]].
  all: destruct (Executor.wait_for_receipt_flag t); intros [= <- <-]; simpl;
         split; [done|lia|done|lia].
Qed.

(** A pass that reports success has handed the signatures collected to
    the node, which returned a hash whose receipt has status 1. *)
Lemma try_once_success t w res w' :
  Executor.try_once rpc t w = (Ret res, w') ->
  succeeded res = true ->
  exists tr calldata sigs h,
    t = Some tr /\
    Signatures.collect_and_sort_signatures (Executor.fields tr)
    = Ret (Some sigs) /\
    Executor.exec_transaction rpc (requests_sent w) calldata sigs = Ret h /\
    Executor.receipt_status rpc h = Some 1 /\
    res = ExecReceipt true h /\
    requests_sent w' = S (requests_sent w).
Proof.
  unfold Executor.try_once, Executor.send_to_safe.
  destruct t as [t|]; [|unfold_io; by intros [= <- <-]].
  destruct (_ || _); [unfold_io; by intros [= <- <-]|].
  intros (v & w1 & [_ ->]%run_inv & Hrest)%bind_inv Hok.
  apply bind_inv in Hrest as (calldata & w1 & Hdata & Hrest).
  assert (w1 = w) as ->.
  { destruct (data (Executor.fields t)); [|unfold_io; by injection Hdata].
    by apply lift_inv in Hdata as [_ ->]. }
  apply bind_inv in Hrest as (g & w1 & [_ ->]%run_inv & Hrest).
  apply bind_inv in Hrest as (signatures & w1 & [Hsigs ->]%run_inv & Hrest).
  destruct signatures as [sigs|]; [|unfold_io; by injection Hrest as <- <-].
  apply bind_inv in Hrest as (h & w1 & Hsend & Hrest).
  injection Hsend as Hsend <-.
  exists t, calldata, sigs, h.
  destruct (Executor.wait_for_receipt_flag t); unfold_io;
    injection Hrest as <- <-; [|done].
  simpl in Hok. apply bool_decide_eq_true in Hok.
  rewrite Hok, bool_decide_eq_true_2 by done. by split_and!.
Qed.

(** The loop always returns, within the attempts it has left, and sleeps
    between two attempts only. *)
Lemma executor_attempts_trace remaining attempt delay t w :
  attempt = Executor.max_retries - Z.of_nat remaining ->
  exists res w' n,
    Executor.attempts_from rpc remaining attempt delay t w = (Ret res, w') /\
    (requests_sent w <= requests_sent w' <= requests_sent w + remaining)%nat /\
    (n <= remaining - 1)%nat /\
    slept w' = (slept w ++ doubling n delay)%list.
Proof.
  revert attempt delay w.
  induction remaining as [|m IH]; intros attempt delay w Hatt;
    cbn [Executor.attempts_from].
  - exists ExecNone, w, 0%nat. rewrite app_nil_r.
    split_and!; [done|lia|lia|lia|done].
  - destruct (Executor.try_once rpc t w) as [[res|e] w1] eqn:Htry;
      apply try_once_trace in Htry as [Hsl Hreq].
    + exists res, w1, 0%nat. rewrite app_nil_r.
      split_and!; [done|lia|lia|lia|done].
    + destruct (Z.eqb_spec (attempt + 1) Executor.max_retries) as [Hlast|Hmore].
      * exists ExecNone, w1, 0%nat. rewrite app_nil_r.
        split_and!; [done|lia|lia|lia|done].
      * unfold mbind, M_bind, sleep.
        set (w2 := mkWorld _ _ _ _ _).
        destruct (IH (attempt + 1) (delay * 2) w2 ltac:(lia))
          as (res & w' & n & Hrun & Hreq' & Hn & Hsl').
        exists res, w', (S n). subst w2.
        cbn [requests_sent slept] in Hreq', Hsl'. cbn [doubling].
        split_and!; [exact Hrun|lia|lia| |].
        -- unfold Executor.max_retries in *. lia.
        -- by rewrite Hsl', Hsl, <- app_assoc.
Qed.

(** A loop that reports success has seen one pass do so. *)
Lemma executor_attempts_success remaining attempt delay t w res w' :
  Executor.attempts_from rpc remaining attempt delay t w = (Ret res, w') ->
  succeeded res = true ->
  exists tr calldata sigs h k,
    t = Some tr /\
    Signatures.collect_and_sort_signatures (Executor.fields tr)
    = Ret (Some sigs) /\
    (requests_sent w <= k < requests_sent w')%nat /\
    Executor.exec_transaction rpc k calldata sigs = Ret h /\
    Executor.receipt_status rpc h = Some 1 /\
    res = ExecReceipt true h.
Proof.
  revert attempt delay w.
  induction remaining as [|m IH]; intros attempt delay w;
    cbn [Executor.attempts_from].
  - unfold_io. by intros [= <- <-].
  - destruct (Executor.try_once rpc t w) as [[res1|e] w1] eqn:Htry.
    + intros [= <- <-] Hok.
      destruct (try_once_success _ _ _ _ Htry Hok)
        as (tr & calldata & sigs & h & -> & Hsigs & Hsend & Hrec & -> & Hreq).
      exists tr, calldata, sigs, h, (requests_sent w).
      split_and!; [done|done|lia|lia|done..].
    + apply try_once_trace in Htry as [_ Hreq].
      destruct (_ =? _); [by intros [= <- <-]|].
      unfold mbind, M_bind, sleep.
      intros Hrun Hok.
      destruct (IH _ _ _ Hrun Hok)
        as (tr & calldata & sigs & h & k & -> & Hsigs & Hk & Hsend & Hrec & ->).
      exists tr, calldata, sigs, h, k. simpl in Hk.
      split_and!; [done|done|lia|lia|done..].
Qed.

End executor_facts.

(** X20. [execute_transaction] never raises and never runs away: for
    every record and every behaviour of the node it returns, after at most
    five passes through the web3 calls and at most four sleeps, of 1, 2, 4
    and 8 seconds in this order. *)
Theorem executor_always_returns (rpc : Executor.node)
    (transaction : option Executor.SafeTransaction) (w : world) :
  exists res w' n,
    Executor.execute_transaction rpc transaction w = (Ret res, w') /\
    (requests_sent w <= requests_sent w' <= requests_sent w + 5)%nat /\
    (n <= 4)%nat /\
    slept w' = (slept w ++ doubling n 1)%list.
Proof.
  destruct (executor_attempts_trace rpc (Z.to_nat Executor.max_retries) 0 1
              transaction w)
    as (res & w' & n & Hrun & Hreq & Hn & Hsl); [done|].
  exists res, w', n.
  change (Z.to_nat Executor.max_retries) with 5%nat in *.
  split_and!; [done|lia|lia|lia|done].
Qed.

(** X21. [execute_transaction] reports success (a dict with [ok] true)
    only when, in one of its passes, the node accepted the call with the
    signatures that [collect_and_sort_signatures] gives for the record and
    returned a hash whose receipt has status 1. *)
Theorem executor_success_means_mined (rpc : Executor.node)
    (transaction : option Executor.SafeTransaction) (w w' : world)
    (res : exec_result) :
  Executor.execute_transaction rpc transaction w = (Ret res, w') ->
  succeeded res = true ->
  exists tr calldata sigs h k,
    transaction = Some tr /\
    Signatures.collect_and_sort_signatures (Executor.fields tr)
    = Ret (Some sigs) /\
    (requests_sent w <= k < requests_sent w')%nat /\
    Executor.exec_transaction rpc k calldata sigs = Ret h /\
    Executor.receipt_status rpc h = Some 1 /\
    res = ExecReceipt true h.
Proof. apply executor_attempts_success. Qed.

Lemma executor_success_means_mined_witness :
  exists tr calldata sigs h k,
    Some transfer_tx = Some tr /\
    Signatures.collect_and_sort_signatures (Executor.fields tr)
    = Ret (Some sigs) /\
    (requests_sent fresh_world <= k < 1)%nat /\
    Executor.exec_transaction willing_node k calldata sigs = Ret h /\
    Executor.receipt_status willing_node h = Some 1 /\
    ExecReceipt true "0xbeef" = ExecReceipt true h.
Proof.
  apply (executor_success_means_mined willing_node (Some transfer_tx)
           fresh_world (mkWorld 1 1700000000 [] None WriteSucceeds)
           (ExecReceipt true "0xbeef")).
  - vm_compute. reflexivity.
  - reflexivity.
Defined.

Section calldata_facts.
Variable rpc : Executor.node.

Lemma space_is_not_hex (c : ascii) :
  Py.is_space c = true -> Py.hex_digit c = None.
Proof.
  destruct c as [[] [] [] [] [] [] [] []]; vm_compute; congruence.
Qed.

(** [bytes.fromhex] rejects an odd number of hexadecimal digits. *)
Lemma fromhex_odd (s : string) :
  (Forall (fun c => is_Some (Py.hex_digit c)) (list_ascii_of_string s) ->
   Nat.odd (String.length s) = true -> Py.fromhex s = None) /\
  (forall c,
     Forall (fun c => is_Some (Py.hex_digit c))
       (c :: list_ascii_of_string s) ->
     Nat.odd (S (String.length s)) = true ->
     Py.fromhex (String c s) = None).
Proof.
  induction s as [|d s [IH1 IH2]].
  - split; [by intros _ ?|].
    intros c [Hc _]%Forall_cons _. simpl.
    destruct (Py.is_space c) eqn:Hsp; [|done].
    apply space_is_not_hex in Hsp. rewrite Hsp in Hc. by destruct Hc.
  - split; [apply IH2|].
    intros c [Hc [Hd Hs]%Forall_cons]%Forall_cons Hodd.
    cbn [Py.fromhex].
    destruct (Py.is_space c) eqn:Hsp.
    { apply space_is_not_hex in Hsp. rewrite Hsp in Hc. by destruct Hc. }
    rewrite IH1; [by destruct (Py.hex_digit c), (Py.hex_digit d)|done|].
    simpl in Hodd. by rewrite Nat.odd_succ, Nat.even_succ in Hodd.
Qed.

(** When every pass raises before it reaches the node, the loop gives up
    after its sleeps without a single request. *)
Lemma executor_attempts_all_raise remaining attempt delay t w :
  (forall w0, exists e, Executor.try_once rpc t w0 = (Raise e, w0)) ->
  attempt = Executor.max_retries - Z.of_nat (S remaining) ->
  exists w',
    Executor.attempts_from rpc (S remaining) attempt delay t w
    = (Ret ExecNone, w') /\
    requests_sent w' = requests_sent w /\
    slept w' = (slept w ++ doubling remaining delay)%list.
Proof.
  intros Hraise. revert attempt delay w.
  induction remaining as [|m IH]; intros attempt delay w Hatt;
    cbn [Executor.attempts_from]; destruct (Hraise w) as [e ->].
  - assert ((attempt + 1 =? Executor.max_retries) = true) as ->
      by (apply Z.eqb_eq; lia).
    exists w. by rewrite app_nil_r.
  - assert ((attempt + 1 =? Executor.max_retries) = false) as ->
      by (apply Z.eqb_neq; lia).
    unfold mbind, M_bind, sleep.
    set (w2 := mkWorld _ _ _ _ _).
    destruct (IH (attempt + 1) (delay * 2) w2 ltac:(lia))
      as (w' & Hrun & Hreq & Hsl).
    exists w'. split_and!; [exact Hrun|by rewrite Hreq|].
    rewrite Hsl. subst w2. cbn [slept doubling]. by rewrite <- app_assoc.
Qed.

End calldata_facts.

(** X22. Calldata whose first hexadecimal digit is zero is never sent:
    [data.lstrip("0x")] strips that digit together with the prefix, the
    digits left are odd in number, [bytes.fromhex] raises in every pass,
    and [execute_transaction] returns [None] after sleeping 1, 2, 4 and 8
    seconds without having called the node. Every call of [approve]
    (selector [095ea7b3]) is of this kind. *)
Theorem zero_nibble_calldata_is_never_sent (rpc : Executor.node)
    (t : Executor.SafeTransaction) (d : ascii) (rest : string) (w : world) :
  Executor.has_to t = true ->
  Executor.has_data t = true ->
  is_Some (Executor.value t) ->
  data (Executor.fields t) = Some ("0x0" ++ String d rest) ->
  d <> "0"%char ->
  Forall (fun c => is_Some (Py.hex_digit c)) (d :: list_ascii_of_string rest) ->
  Nat.even (String.length rest) = true ->
  exists w',
    Executor.execute_transaction rpc (Some t) w = (Ret ExecNone, w') /\
    requests_sent w' = requests_sent w /\
    slept w' = (slept w ++ [1; 2; 4; 8])%list.
Proof.
  intros Hto Hdata Hvalue Hcalldata Hd Hhex Heven.
  apply (executor_attempts_all_raise rpc 4 0 1 (Some t) w); [|done].
  intros w0. unfold Executor.try_once.
  rewrite Hto, Hdata, (bool_decide_eq_true_2 _ Hvalue). cbn [negb orb].
  destruct Hvalue as [v ->]. cbn [default].
  unfold mbind at 1, M_bind at 1, Monitor.run.
  destruct v as [v|e]; [|by exists e].
  rewrite Hcalldata.
  assert (Executor.lstrip_0x ("0x0" ++ String d rest) = String d rest) as ->.
  { change ("0x0" ++ String d rest)
      with (String "0" (String "x" (String "0" (String d rest)))).
    change (Executor.lstrip_0x (String d rest) = String d rest).
    cbn [Executor.lstrip_0x].
    destruct (Ascii.eqb_spec d "0") as [?|_]; [done|].
    destruct (Ascii.eqb_spec d "x") as [->|_]; [|done].
    apply Forall_cons in Hhex as [[? Hx] _]. by vm_compute in Hx. }
  rewrite (proj2 (fromhex_odd rest) d Hhex).
  - by exists ValueError.
  - by rewrite Nat.odd_succ.
Qed.

Lemma zero_nibble_calldata_is_never_sent_witness :
  exists w',
    Executor.execute_transaction willing_node (Some approve_tx) fresh_world
    = (Ret ExecNone, w') /\
    requests_sent w' = requests_sent fresh_world /\
    slept w' = (slept fresh_world ++ [1; 2; 4; 8])%list.
Proof.
  apply (zero_nibble_calldata_is_never_sent willing_node approve_tx "9"
           approve_tail fresh_world).
  - reflexivity.
  - reflexivity.
  - simpl. eauto.
  - reflexivity.
  - discriminate.
  - apply (bool_decide_unpack _). vm_compute. reflexivity.
  - vm_compute. reflexivity.
Defined.

(** ** Splitting a long message *)

Section splitter_facts.
Import Splitter.

#[local] Abbreviation visible :=
  (List.filter (fun c => negb (is_whitespace c))).

Lemma last_line_feed_spec i s found r :
  last_line_feed i s found = Some r ->
  found = Some r \/
  ((i <= r < i + length s)%nat /\ s !! (r - i)%nat = Some line_feed).
Proof.
  revert i found. induction s as [|c s IH]; intros i found; simpl.
  - by left.
  - intros [Hfound|[Hr Hlook]]%IH.
    + destruct (Z.eqb_spec c line_feed) as [->|_]; [|by left].
      injection Hfound as <-. right. split; [lia|].
      by rewrite Nat.sub_diag.
    + right. split; [lia|].
      replace (r - i)%nat with (S (r - S i)) by lia. done.
Qed.

Lemma rfind_line_feed_spec msg stop r :
  rfind_line_feed msg stop = Some r ->
  (r < stop)%nat /\ msg !! r = Some line_feed.
Proof.
  unfold rfind_line_feed.
  intros [?|[Hr Hlook]]%last_line_feed_spec; [done|].
  rewrite Nat.sub_0_r in Hlook. rewrite length_take in Hr.
  split; [lia|]. rewrite <- Hlook. symmetry. apply lookup_take_lt. lia.
Qed.

Lemma lstrip_length s : (length (lstrip s) <= length s)%nat.
Proof.
  induction s as [|c s IH]; simpl; [done|].
  destruct (is_whitespace c); simpl; lia.
Qed.

Lemma visible_lstrip s : visible (lstrip s) = visible s.
Proof.
  induction s as [|c s IH]; simpl; [done|].
  destruct (is_whitespace c) eqn:Hc; simpl; [done|by rewrite Hc].
Qed.

(** What one iteration cuts off, and what it leaves. *)
Lemma split_step msg max_length :
  (0 < max_length < length msg)%nat ->
  let split_index := default max_length (rfind_line_feed msg max_length) in
  (length (take split_index msg) <= max_length)%nat /\
  (length (lstrip (drop split_index msg)) < length msg)%nat.
Proof.
  intros Hlen split_index.
  assert (split_index <= max_length)%nat as Hle.
  { subst split_index.
    destruct (rfind_line_feed msg max_length) as [r|] eqn:Hr; simpl; [|done].
    apply rfind_line_feed_spec in Hr as [? _]. lia. }
  split; [rewrite length_take; lia|].
  destruct split_index as [|k] eqn:Hk.
  - subst split_index.
    destruct (rfind_line_feed msg max_length) as [r|] eqn:Hr; simpl in Hk;
      [|lia].
    subst r. apply rfind_line_feed_spec in Hr as [_ Hlook].
    destruct msg as [|c msg]; [done|]. injection Hlook as ->.
    simpl. pose proof (lstrip_length msg). lia.
  - pose proof (lstrip_length (drop (S k) msg)) as Hstrip.
    rewrite length_drop in Hstrip. lia.
Qed.

(** With a positive limit the loop ends within one iteration per
    character, and every message it makes keeps within the limit. *)
Lemma split_from_fits fuel max_length msg messages :
  (0 < max_length)%nat -> (length msg <= fuel)%nat ->
  exists chunks,
    split_from fuel max_length msg messages = Some (messages ++ chunks)%list /\
    chunks <> [] /\
    Forall (fun chunk => (length chunk <= max_length)%nat) chunks.
Proof.
  intros Hmax. revert msg messages.
  induction fuel as [|fuel IH]; intros msg messages Hfuel;
    cbn [split_from]; destruct (Nat.ltb_spec max_length (length msg)).
  - lia.
  - exists [msg]. split_and!; [done|done|]. by repeat constructor.
  - destruct (split_step msg max_length ltac:(lia)) as [Htake Hrest].
    cbv zeta in Htake, Hrest.
    set (split_index := default max_length _) in *.
    destruct (IH (lstrip (drop split_index msg))
                (messages ++ [take split_index msg])%list ltac:(lia))
      as (chunks & -> & _ & Hfit).
    exists (take split_index msg :: chunks).
    split_and!; [by rewrite <- app_assoc|done|by constructor].
  - exists [msg]. split_and!; [done|done|]. by repeat constructor.
Qed.

(** Whatever the limit, a loop that ends has lost white space only. *)
Lemma split_from_visible fuel max_length msg messages result :
  split_from fuel max_length msg messages = Some result ->
  exists chunks,
    result = (messages ++ chunks)%list /\
    visible (concat chunks) = visible msg.
Proof.
  revert msg messages.
  induction fuel as [|fuel IH]; intros msg messages;
    cbn [split_from]; destruct (_ <? _)%nat; try discriminate.
  - intros [= <-]. exists [msg]. simpl. by rewrite app_nil_r.
  - set (split_index := default max_length _).
    intros (chunks & -> & Hvisible)%IH.
    exists (take split_index msg :: chunks).
    split; [by rewrite <- app_assoc|].
    simpl. rewrite List.filter_app, Hvisible, visible_lstrip,
      <- List.filter_app. by rewrite take_drop.
  - intros [= <-]. exists [msg]. simpl. by rewrite app_nil_r.
Qed.

End splitter_facts.

(** X23. For every message and every positive limit,
    [split_long_message] ends and returns at least one message, none of
    them longer than the limit; a message within the limit comes back
    alone and unchanged. *)
Theorem split_messages_fit (msg : Splitter.text) (max_length : nat) :
  (0 < max_length)%nat ->
  exists chunks,
    Splitter.split_long_message msg max_length = Some chunks /\
    chunks <> [] /\
    Forall (fun chunk => (length chunk <= max_length)%nat) chunks /\
    ((length msg <= max_length)%nat -> chunks = [msg]).
Proof.
  intros Hmax. unfold Splitter.split_long_message.
  destruct (split_from_fits (length msg) max_length msg [] Hmax ltac:(done))
    as (chunks & Hrun & Hne & Hfit).
  exists chunks. split_and!; try done.
  intros Hshort. destruct msg as [|c msg]; simpl in *.
  - by injection Hrun as <-.
  - destruct (Nat.ltb_spec max_length (S (length msg))); [lia|].
    by injection Hrun as <-.
Qed.

Lemma split_messages_fit_witness :
  exists chunks,
    Splitter.split_long_message [65; 10; 66; 67] 2 = Some chunks /\
    chunks <> [] /\
    Forall (fun chunk => (length chunk <= 2)%nat) chunks /\
    ((length [65; 10; 66; 67] <= 2)%nat -> chunks = [[65; 10; 66; 67]]).
Proof. apply (split_messages_fit [65; 10; 66; 67] 2). lia. Defined.

(** X24. [split_long_message] loses nothing but white space: the
    characters of the messages it returns, taken in order without the
    white space, are those of the message it was given. *)
Theorem split_loses_only_white_space (msg : Splitter.text)
    (max_length : nat) (chunks : list Splitter.text) :
  Splitter.split_long_message msg max_length = Some chunks ->
  List.filter (fun c => negb (Splitter.is_whitespace c)) (concat chunks)
  = List.filter (fun c => negb (Splitter.is_whitespace c)) msg.
Proof.
  intros (chunks' & -> & Hvisible)%split_from_visible. done.
Qed.

Lemma split_loses_only_white_space_witness :
  List.filter (fun c => negb (Splitter.is_whitespace c))
    (concat [[65]; [66; 67]])
  = List.filter (fun c => negb (Splitter.is_whitespace c)) [65; 10; 66; 67].
Proof.
  apply (split_loses_only_white_space [65; 10; 66; 67] 2 [[65]; [66; 67]]).
  vm_compute. reflexivity.
Defined.

(** ** The function names *)

Section names_facts.
Import Names.

Lemma dict_get_elem items k v d :
  NoDup items.*1 -> (k, v) ∈ items -> dict_get items k d = v.
Proof.
  induction items as [|[k0 v0] items IH]; simpl;
    [by intros _ ?%elem_of_nil|].
  intros [Hk0 Hnodup]%NoDup_cons [[= <- <-]|Hin]%elem_of_cons.
  - by rewrite String.eqb_refl.
  - destruct (String.eqb_spec k0 k) as [->|_]; [|by apply IH].
    exfalso. apply Hk0. apply list_elem_of_fmap. by exists (k, v).
Qed.

Lemma take_length_app (s t : string) :
  Py.take (String.length s) (s ++ t) = s.
Proof. induction s as [|c s IH]; simpl; [by destruct t|by rewrite IH]. Qed.

Lemma selectors_distinct : NoDup SELECTOR_TO_NAME.*1.
Proof. apply (bool_decide_unpack _). vm_compute. reflexivity. Qed.

Lemma selectors_without_prefix sel name :
  (sel, name) ∈ SELECTOR_TO_NAME -> Py.startswith sel "0x" = false.
Proof.
  assert (Forall (fun kv => Py.startswith kv.1 "0x" = false) SELECTOR_TO_NAME)
    as Hall by (repeat constructor).
  rewrite Forall_forall in Hall. intros Hin. by apply (Hall _ Hin).
Qed.

End names_facts.

(** X25. [get_function_name] looks at the selector alone: for every
    selector of the table, written in any mix of upper and lower case,
    with or without the [0x] prefix, and followed by any arguments, it
    returns the name that the table gives. *)
Theorem function_name_ignores_case_prefix_and_arguments
    (sel name s rest : string) :
  (sel, name) ∈ Names.SELECTOR_TO_NAME ->
  String.length s = 8%nat ->
  Py.lower s = sel ->
  Names.get_function_name (Some ("0x" ++ s ++ rest)) = name /\
  Names.get_function_name (Some (s ++ rest)) = name.
Proof.
  intros Hin Hlen Hlower.
  assert (Names.dict_get Names.SELECTOR_TO_NAME
            (Py.lower (Py.take 8 (s ++ rest))) "Unknown" = name) as Hname.
  { rewrite <- Hlen, take_length_app, Hlower.
    apply dict_get_elem; [apply selectors_distinct|done]. }
  split; [exact Hname|].
  destruct s as [|a [|b s]]; [discriminate..|].
  unfold Names.get_function_name.
  change (String a (String b s) ++ rest)
    with (String a (String b (s ++ rest))) in *.
  destruct (Py.startswith _ "0x") eqn:Hprefix; [|exact Hname].
  exfalso. apply selectors_without_prefix in Hin.
  rewrite <- Hlower in Hin. cbn [Py.startswith Py.lower] in Hprefix, Hin.
  destruct (Ascii.eqb_spec "0" a) as [<-|]; [|done].
  destruct (Ascii.eqb_spec "x" b) as [<-|]; [|done].
  vm_compute in Hin. discriminate.
Qed.

Lemma function_name_ignores_case_prefix_and_arguments_witness :
  Names.get_function_name
    (Some ("0x" ++ "D9A34952" ++ abi_word 7 ++ abi_word (2500 * 10 ^ 18)))
  = "delegate" /\
  Names.get_function_name
    (Some ("D9A34952" ++ abi_word 7 ++ abi_word (2500 * 10 ^ 18)))
  = "delegate".
Proof.
  apply (function_name_ignores_case_prefix_and_arguments "d9a34952"
           "delegate" "D9A34952" (abi_word 7 ++ abi_word (2500 * 10 ^ 18))).
  - do 4 apply list_elem_of_further. apply list_elem_of_here.
  - reflexivity.
  - reflexivity.
Defined.
